(** * PSRSOCIAL-OS: the generation gateway and its call sites

    A shallow embedding of [services/geminiService.ts] (both revisions kept in
    the repository), of the submit handlers of the feature components and of
    the task list of [App.tsx], with the properties the specification states
    about them. *)

From Stdlib Require Import List Bool Arith NArith ZArith Lia.
From Stdlib Require Import Ascii String.
From Stdlib Require Import DecimalString Permutation.
Import ListNotations.

Set Warnings "-register-all".

(** ** JavaScript strings

    A JavaScript string is a sequence of UTF-16 code units.  Literals of the
    source are written [str "..."]. *)

Definition jsstring := list N.

Definition str (s : string) : jsstring :=
  map N_of_ascii (list_ascii_of_string s).

Arguments str s%_string.

Definition jsstring_eqb (a b : jsstring) : bool :=
  if list_eq_dec N.eq_dec a b then true else false.

(** [WhiteSpace] and [LineTerminator] of ECMAScript, the code units that
    [String.prototype.trim] removes. *)
Definition isWhiteSpace (c : N) : bool :=
  (existsb (N.eqb c)
     [9; 10; 11; 12; 13; 32; 160; 5760; 8232; 8233; 8239; 8287; 12288; 65279]
   || ((8192 <=? c) && (c <=? 8202)))%N.

Fixpoint trimStart (s : jsstring) : jsstring :=
  match s with
  | [] => []
  | c :: r => if isWhiteSpace c then trimStart r else s
  end.

Fixpoint trimEnd (s : jsstring) : jsstring :=
  match s with
  | [] => []
  | c :: r =>
      match trimEnd r with
      | [] => if isWhiteSpace c then [] else [c]
      | r' => c :: r'
      end
  end.

Definition trim (s : jsstring) : jsstring := trimEnd (trimStart s).

Fixpoint startsWith (s p : jsstring) {struct p} : bool :=
  match p, s with
  | [], _ => true
  | _ :: _, [] => false
  | a :: p', c :: s' => N.eqb c a && startsWith s' p'
  end.

Definition endsWith (s p : jsstring) : bool :=
  startsWith (rev s) (rev p).

(** [String.prototype.includes]: some suffix of [s] starts with [p]. *)
Fixpoint includes (s p : jsstring) : bool :=
  startsWith s p ||
  match s with
  | [] => false
  | _ :: s' => includes s' p
  end.

(** [String.prototype.slice(start, end)]; a negative index counts from the
    end, an omitted [end] is the length. *)
Definition sliceIndex (len : nat) (i : Z) : nat :=
  if (i <? 0)%Z then Z.to_nat (Z.max (Z.of_nat len + i) 0)
  else Nat.min (Z.to_nat i) len.

Definition slice (s : jsstring) (start : Z) (end_ : option Z) : jsstring :=
  let len := List.length s in
  let from := sliceIndex len start in
  let to := match end_ with None => len | Some e => sliceIndex len e end in
  firstn (to - from) (skipn from s).

(** ** JSON values and [JSON.parse]

    The parsed value of a JSON text.  A number keeps its literal; an object
    keeps its members in the order of the text. *)

Inductive json : Type :=
| JNull
| JBool (b : bool)
| JNumber (literal : jsstring)
| JString (s : jsstring)
| JArray (items : list json)
| JObject (members : list (jsstring * json)).

Module Json.

(** The four white space characters of the JSON grammar. *)
Definition isJsonWs (c : N) : bool :=
  existsb (N.eqb c) [9; 10; 13; 32]%N.

Fixpoint skipWs (s : jsstring) : jsstring :=
  match s with
  | [] => []
  | c :: r => if isJsonWs c then skipWs r else s
  end.

Definition isDigit (c : N) : bool := ((48 <=? c) && (c <=? 57))%N.

Definition isHex (c : N) : bool :=
  (isDigit c || ((65 <=? c) && (c <=? 70)) || ((97 <=? c) && (c <=? 102)))%N.

Definition hexVal (c : N) : N :=
  (if isDigit c then c - 48
   else if (97 <=? c) then c - 87 else c - 55)%N.

(** The characters a JSON value can start with. *)
Definition isValueStart (c : N) : bool :=
  existsb (N.eqb c) [123; 91; 34; 116; 102; 110; 45]%N || isDigit c.

(** Splits the longest prefix of digits. *)
Fixpoint digits (s : jsstring) : jsstring * jsstring :=
  match s with
  | c :: r =>
      if isDigit c then let (d, r') := digits r in (c :: d, r')
      else ([], s)
  | [] => ([], [])
  end.

(** A number literal: an optional minus sign; an integer part that is a
    single zero or starts with a non-zero digit; optionally a dot and at
    least one digit; optionally an exponent letter, a sign and at least one
    digit. *)
Definition parseNumber (s : jsstring) : option (jsstring * jsstring) :=
  let (sign, s1) :=
    match s with
    | 45 :: r => ([45], r)
    | _ => ([], s)
    end%N in
  let (int, s2) := digits s1 in
  match int with
  | [] => None
  | d :: ds =>
      if N.eqb d 48 && negb (match ds with [] => true | _ => false end)
      then None
      else
        let frac :=
          match s2 with
          | 46 :: r =>
              let (f, r') := digits r in
              match f with
              | [] => None
              | _ => Some (46 :: f, r')
              end
          | _ => Some ([], s2)
          end%N in
        match frac with
        | None => None
        | Some (f, s3) =>
            let isE c := (N.eqb c 101 || N.eqb c 69)%N in
            let isSign c := (N.eqb c 43 || N.eqb c 45)%N in
            match s3 with
            | e :: r =>
                if isE e then
                  let (sg, r1) :=
                    match r with
                    | c :: r0 => if isSign c then ([c], r0) else ([], r)
                    | [] => ([], r)
                    end in
                  let (x, r2) := digits r1 in
                  match x with
                  | [] => None
                  | _ => Some (sign ++ int ++ f ++ e :: sg ++ x, r2)
                  end
                else Some (sign ++ int ++ f, s3)
            | [] => Some (sign ++ int ++ f, s3)
            end
        end
  end.

(** The characters of a string literal after its opening quote, up to the
    closing quote; escapes are decoded, control characters refused. *)
Fixpoint parseChars (s : jsstring) (acc : jsstring)
  : option (jsstring * jsstring) :=
  match s with
  | [] => None
  | 34 :: r => Some (rev acc, r)
  | 92 :: 117 :: a :: b :: c :: d :: r =>
      if isHex a && isHex b && isHex c && isHex d
      then parseChars r
             ((hexVal a * 4096 + hexVal b * 256 + hexVal c * 16 + hexVal d)
                :: acc)
      else None
  | 92 :: e :: r =>
      match
        (if N.eqb e 34 then Some 34 else if N.eqb e 92 then Some 92
         else if N.eqb e 47 then Some 47 else if N.eqb e 98 then Some 8
         else if N.eqb e 102 then Some 12 else if N.eqb e 110 then Some 10
         else if N.eqb e 114 then Some 13 else if N.eqb e 116 then Some 9
         else None)
      with
      | Some c => parseChars r (c :: acc)
      | None => None
      end
  | c :: r => if (c <? 32) then None else parseChars r (c :: acc)
  end%N.

Definition parseLiteral (word : jsstring) (v : json) (s : jsstring)
  : option (json * jsstring) :=
  if startsWith s word
  then Some (v, skipn (List.length word) s)
  else None.

(** Recursive descent; [fuel] bounds the depth of the recursion. *)
Fixpoint parseValue (fuel : nat) (s : jsstring) : option (json * jsstring) :=
  match fuel with
  | O => None
  | S fuel' =>
      match skipWs s with
      | [] => None
      | c :: r =>
          if N.eqb c 123 then
            match skipWs r with
            | 125 :: r' => Some (JObject [], r')
            | _ =>
                match parseMembers fuel' r with
                | Some (ms, r') => Some (JObject ms, r')
                | None => None
                end
            end
          else if N.eqb c 91 then
            match skipWs r with
            | 93 :: r' => Some (JArray [], r')
            | _ =>
                match parseElements fuel' r with
                | Some (vs, r') => Some (JArray vs, r')
                | None => None
                end
            end
          else if N.eqb c 34 then
            match parseChars r [] with
            | Some (x, r') => Some (JString x, r')
            | None => None
            end
          else if N.eqb c 116 then parseLiteral (str "true") (JBool true) (c :: r)
          else if N.eqb c 102 then parseLiteral (str "false") (JBool false) (c :: r)
          else if N.eqb c 110 then parseLiteral (str "null") JNull (c :: r)
          else if N.eqb c 45 || isDigit c then
            match parseNumber (c :: r) with
            | Some (x, r') => Some (JNumber x, r')
            | None => None
            end
          else None
      end
  end%N

with parseElements (fuel : nat) (s : jsstring)
  : option (list json * jsstring) :=
  match fuel with
  | O => None
  | S fuel' =>
      match parseValue fuel' s with
      | None => None
      | Some (v, r) =>
          match skipWs r with
          | 44 :: r' =>
              match parseElements fuel' r' with
              | Some (vs, r'') => Some (v :: vs, r'')
              | None => None
              end
          | 93 :: r' => Some ([v], r')
          | _ => None
          end
      end
  end%N

with parseMembers (fuel : nat) (s : jsstring)
  : option (list (jsstring * json) * jsstring) :=
  match fuel with
  | O => None
  | S fuel' =>
      match skipWs s with
      | 34 :: r =>
          match parseChars r [] with
          | None => None
          | Some (k, r0) =>
              match skipWs r0 with
              | 58 :: r1 =>
                  match parseValue fuel' r1 with
                  | None => None
                  | Some (v, r2) =>
                      match skipWs r2 with
                      | 44 :: r3 =>
                          match parseMembers fuel' r3 with
                          | Some (ms, r4) => Some ((k, v) :: ms, r4)
                          | None => None
                          end
                      | 125 :: r3 => Some ([(k, v)], r3)
                      | _ => None
                      end
                  end
              | _ => None
              end
          end
      | _ => None
      end
  end%N.

(** [JSON.parse(text)]: one value, surrounded by white space only.  [None]
    stands for the [SyntaxError] it throws. *)
Definition parse (text : jsstring) : option json :=
  match parseValue (S (List.length text)) text with
  | Some (v, r) =>
      match skipWs r with
      | [] => Some v
      | _ => None
      end
  | None => None
  end.

(** Property read [v.key] on a parsed object: the last member of that name;
    [None] is [undefined]. *)
Fixpoint member (key : jsstring) (ms : list (jsstring * json)) : option json :=
  match ms with
  | [] => None
  | (k, v) :: ms' =>
      match member key ms' with
      | Some v' => Some v'
      | None => if jsstring_eqb k key then Some v else None
      end
  end.

End Json.

(** ** The response normalizer: fence stripping, then [JSON.parse]

    The body of the [try] block of [generateMarketingPlan] and of
    [generateMarketAnalysis], applied to [response.text]. *)

Definition fenceOpen : jsstring := str "```json".
Definition fenceClose : jsstring := str "```".

Definition stripFence (text : jsstring) : jsstring :=
  let responseText := trim text in
  if startsWith responseText fenceOpen then
    let responseText := trim (slice responseText 7 None) in
    if endsWith responseText fenceClose then
      trim (slice responseText 0 (Some (-3)%Z))
    else responseText
  else responseText.

Definition parseFenced (text : jsstring) : option json :=
  Json.parse (stripFence text).


(** ** The shape of the domain types ([types.ts])

    A TypeScript interface, as far as it names required fields: strings,
    arrays and objects with their required members.  [conforms t v]: the value
    [v] has every field that [t] requires, all the way down. *)

Inductive shape : Type :=
| TString
| TArray (item : shape)
| TObject (required : list (jsstring * shape)).

Fixpoint conforms (t : shape) (v : json) : bool :=
  match t, v with
  | TString, JString _ => true
  | TArray item, JArray vs => forallb (conforms item) vs
  | TObject required, JObject ms =>
      forallb
        (fun field : jsstring * shape =>
           match Json.member (fst field) ms with
           | Some v' => conforms (snd field) v'
           | None => false
           end)
        required
  | _, _ => false
  end.

Definition PostIdeaShape : shape :=
  TObject [ (str "platform", TString); (str "prompt", TString);
            (str "visualIdea", TString) ].

(** [MarketingPlanResponse] as [generateMarketingPlan] declares it. *)
Definition MarketingPlanShape : shape :=
  TObject
    [ (str "competitorAnalysis",
       TArray (TObject [ (str "competitorName", TString);
                         (str "strengths", TArray TString);
                         (str "weaknesses", TArray TString) ]));
      (str "contentPillars",
       TArray (TObject [ (str "pillar", TString);
                         (str "description", TString) ]));
      (str "postIdeas", TArray PostIdeaShape) ].

(** [MarketingPlanResponse] as [generateMarketAnalysis] declares it;
    [postingFrequency] is optional. *)
Definition MarketAnalysisShape : shape :=
  TObject
    [ (str "brandSummary",
       TObject [ (str "mission", TString); (str "targetAudience", TString);
                 (str "toneOfVoice", TString) ]);
      (str "competitorStrategies",
       TArray (TObject [ (str "competitorName", TString);
                         (str "contentThemes", TArray TString);
                         (str "commonPostTypes", TArray TString);
                         (str "platformStrategies",
                          TArray (TObject [ (str "platform", TString);
                                            (str "strategy", TString) ])) ]));
      (str "trendingTopics",
       TArray (TObject [ (str "topic", TString); (str "relevance", TString) ]));
      (str "postIdeas", TArray PostIdeaShape) ].

(** [PostingRecommendation[]] *)
Definition RecommendationsShape : shape :=
  TArray (TObject [ (str "platform", TString); (str "optimalTime", TString);
                    (str "formatSuggestion", TString) ]).

(** ** Failures

    What a [throw] or a rejected promise carries, as far as the code tells the
    cases apart. *)

Inductive exn : Type :=
| Error (message : jsstring)   (* [new Error(message)] *)
| TypeError                    (* raised by the engine on a read through [undefined] *)
| Rejection.                   (* any other value a collaborator rejects with *)

Inductive result (A : Type) : Type :=
| Ok (a : A)
| Throw (e : exn).

Arguments Ok {A} a.
Arguments Throw {A} e.

Definition bind {A B : Type} (r : result A) (k : A -> result B) : result B :=
  match r with
  | Ok a => k a
  | Throw e => Throw e
  end.

Notation "x <- r ;; k" := (bind r (fun x => k))
  (at level 61, r at next level, right associativity).

(** A read [o.f] where [o] may be [undefined]: a [TypeError]. *)
Definition read {A : Type} (o : option A) : result A :=
  match o with
  | Some a => Ok a
  | None => Throw TypeError
  end.

(** [a[0]] on an array. *)
Definition first {A : Type} (l : list A) : option A := hd_error l.

(** Truthiness of a string that may be [undefined]. *)
Definition truthy (s : option jsstring) : bool :=
  match s with
  | Some (_ :: _) => true
  | _ => false
  end.

(** ** The host: [process.env.API_KEY] *)

Record Host : Type := { API_KEY : option jsstring }.

Definition getApiKey (h : Host) : result jsstring :=
  match API_KEY h with
  | Some (c :: k) => Ok (c :: k)
  | _ => Throw (Error (str "API_KEY environment variable not found."))
  end.

(** ** Domain types ([types.ts]) *)

Record GroundingSource : Type :=
  { title : jsstring; uri : jsstring }.

Record MapGroundingSource : Type :=
  { map_title : jsstring; map_uri : jsstring; placeId : option jsstring }.

Record GroundingMetadata : Type :=
  { web : list GroundingSource; maps : list MapGroundingSource }.

Inductive AspectRatio : Type := R16_9 | R9_16 | R1_1.

(** ** Replies of the SDK, with the fields the gateway reads; every field the
    SDK declares optional is an [option]. *)

Record WebChunk : Type :=
  { chunk_title : option jsstring; chunk_uri : option jsstring }.

Record MapsChunk : Type :=
  { mchunk_title : option jsstring;
    mchunk_uri : option jsstring;
    mchunk_placeId : option jsstring }.

Record GroundingChunk : Type :=
  { chunk_web : option WebChunk; chunk_maps : option MapsChunk }.

Record InlineData : Type := { data : option jsstring }.

Record Part : Type := { inlineData : option InlineData }.

Record Content : Type := { parts : option (list Part) }.

Record SdkGroundingMetadata : Type :=
  { groundingChunks : option (list GroundingChunk) }.

Record Candidate : Type :=
  { content : option Content;
    candidateGrounding : option SdkGroundingMetadata }.

Record GenerateContentResponse : Type :=
  { text : option jsstring; candidates : option (list Candidate) }.

Record Image : Type := { imageBytes : option jsstring }.

Record GeneratedImage : Type := { image : option Image }.

Record GenerateImagesResponse : Type :=
  { generatedImages : option (list GeneratedImage) }.

Record Video : Type := { videoUri : option jsstring }.

Record GeneratedVideo : Type := { video : option Video }.

Record GenerateVideosResponse : Type :=
  { generatedVideos : option (list GeneratedVideo) }.

Record Operation : Type :=
  { done : option bool; response : option GenerateVideosResponse }.

(** ** Grounding metadata *)

Definition nullish (o : option jsstring) (default : jsstring) : jsstring :=
  match o with
  | Some s => s
  | None => default
  end.

Definition webSource (w : WebChunk) : GroundingSource :=
  {| title := nullish (chunk_title w) (str "Untitled");
     uri := nullish (chunk_uri w) [] |}.

Definition mapSource (m : MapsChunk) : MapGroundingSource :=
  {| map_title := nullish (mchunk_title m) (str "Untitled");
     map_uri := nullish (mchunk_uri m) [];
     placeId := mchunk_placeId m |}.

(** The body of the [forEach] callback: two independent [push]es. *)
Definition pushChunk (metadata : GroundingMetadata) (chunk : GroundingChunk)
  : GroundingMetadata :=
  let metadata :=
    match chunk_web chunk with
    | Some w => {| web := web metadata ++ [webSource w]; maps := maps metadata |}
    | None => metadata
    end in
  match chunk_maps chunk with
  | Some m => {| web := web metadata; maps := maps metadata ++ [mapSource m] |}
  | None => metadata
  end.

Definition parseGroundingChunks (chunks : option (list GroundingChunk))
  : option GroundingMetadata :=
  match chunks with
  | None => None
  | Some [] => None
  | Some cs => Some (fold_left pushChunk cs {| web := []; maps := [] |})
  end.

(** What one chunk adds to each sequence. *)
Definition websOf (c : GroundingChunk) : list GroundingSource :=
  match chunk_web c with
  | Some w => [webSource w]
  | None => []
  end.

Definition placesOf (c : GroundingChunk) : list MapGroundingSource :=
  match chunk_maps c with
  | Some m => [mapSource m]
  | None => []
  end.

(** A chunk that is a web citation only, a chunk that is a place only. *)
Definition webChunk (w : WebChunk) : GroundingChunk :=
  {| chunk_web := Some w; chunk_maps := None |}.

Definition mapsChunk (m : MapsChunk) : GroundingChunk :=
  {| chunk_web := None; chunk_maps := Some m |}.

(** [response.candidates?.[0]?.groundingMetadata?.groundingChunks] *)
Definition responseChunks (response : GenerateContentResponse)
  : option (list GroundingChunk) :=
  match candidates response with
  | Some (c :: _) =>
      match candidateGrounding c with
      | Some g => groundingChunks g
      | None => None
      end
  | _ => None
  end.

(** ** The gateway ([services/geminiService.ts])

    The backend is opaque: its reply to the one request of a call is an
    argument, [Throw] when the SDK rejects. *)

Record PlanResult : Type :=
  { plan : json; groundingMetadata : option GroundingMetadata }.

Record InsightResult : Type :=
  { insight_text : option jsstring;
    insight_grounding : option GroundingMetadata }.

(** The [try] block of the plan calls; [None] is the [catch]. *)
Definition parsePlanText (response : GenerateContentResponse) : option json :=
  match text response with
  | None => None
  | Some t => parseFenced t
  end.

Definition planCall (failure : jsstring) (h : Host)
    (reply : result GenerateContentResponse) : result PlanResult :=
  _ <- getApiKey h ;;
  response <- reply ;;
  match parsePlanText response with
  | None => Throw (Error failure)
  | Some plan =>
      Ok {| plan := plan;
            groundingMetadata := parseGroundingChunks (responseChunks response) |}
  end.

Definition generateMarketingPlan
  : Host -> result GenerateContentResponse -> result PlanResult :=
  planCall
    (str "Could not generate a valid marketing plan. The response from the AI was not in the expected JSON format.").

Definition generateMarketAnalysis
  : Host -> result GenerateContentResponse -> result PlanResult :=
  planCall
    (str "Could not generate a valid analysis. The response from the AI was not in the expected JSON format.").

Definition generatePostContent (h : Host)
    (reply : result GenerateContentResponse) : result (option jsstring) :=
  _ <- getApiKey h ;;
  response <- reply ;;
  Ok (text response).

(** [parsedJson.recommendations]: a [TypeError] on [null], the member of an
    object, [undefined] on any other value. *)
Definition recommendationsOf (parsedJson : json) : option (option json) :=
  match parsedJson with
  | JNull => None
  | JObject ms => Some (Json.member (str "recommendations") ms)
  | _ => Some None
  end.

Definition getPostingRecommendations (h : Host)
    (reply : result GenerateContentResponse) : result (option json) :=
  _ <- getApiKey h ;;
  response <- reply ;;
  match
    match text response with
    | None => None
    | Some t =>
        match Json.parse (trim t) with
        | None => None
        | Some parsedJson => recommendationsOf parsedJson
        end
    end
  with
  | Some recommendations => Ok recommendations
  | None =>
      Throw
        (Error
           (str "Could not generate valid recommendations. The response from the AI was not in the expected JSON format."))
  end.

Definition generateImage (h : Host)
    (reply : result GenerateImagesResponse) : result jsstring :=
  _ <- getApiKey h ;;
  response <- reply ;;
  images <- read (generatedImages response) ;;
  generated <- read (first images) ;;
  img <- read (image generated) ;;
  match imageBytes img with
  | Some (c :: b) => Ok (c :: b)
  | _ => Throw (Error (str "No image was generated."))
  end.

(** The [for ... of] loop over the parts. *)
Fixpoint firstInlineData (ps : list Part) : result (option jsstring) :=
  match ps with
  | [] => Throw (Error (str "No image was generated."))
  | part :: ps' =>
      match inlineData part with
      | Some d => Ok (data d)
      | None => firstInlineData ps'
      end
  end.

Definition editImage (h : Host)
    (reply : result GenerateContentResponse) : result (option jsstring) :=
  _ <- getApiKey h ;;
  response <- reply ;;
  cands <- read (candidates response) ;;
  candidate <- read (first cands) ;;
  c <- read (content candidate) ;;
  ps <- read (parts c) ;;
  firstInlineData ps.

Definition getLocalInsights (h : Host)
    (reply : result GenerateContentResponse) : result InsightResult :=
  _ <- getApiKey h ;;
  response <- reply ;;
  Ok {| insight_text := text response;
        insight_grounding := parseGroundingChunks (responseChunks response) |}.

(** ** Video generation: the request, the polling loop, the download

    The call talks to its collaborators several times; they are a script of
    replies, and the call returns the trace of what it asked along with its
    result. *)

Record ImageInput : Type := { imageBytesIn : jsstring; mimeType : jsstring }.

Record VideoConfig : Type :=
  { numberOfVideos : N; resolution : jsstring; aspectRatio : AspectRatio }.

Record VideoRequest : Type :=
  { model : jsstring; prompt : jsstring; imageIn : ImageInput;
    config : VideoConfig }.

Definition Blob := list N.

Record FetchResponse : Type := { ok : bool; blob : result Blob }.

Record VideoBackend : Type :=
  { generateVideos : VideoRequest -> result Operation;
    (** the reply to the [i]-th status request of the call, from 0 *)
    getVideosOperation : nat -> result Operation;
    fetch : jsstring -> result FetchResponse;
    createObjectURL : Blob -> jsstring }.

Inductive event : Type :=
| EGenerateVideos (request : VideoRequest)
| ESetTimeout (ms : N)
| EGetVideosOperation (operation : Operation)
| EFetch (url : jsstring)
| EBlob
| ECreateObjectURL (b : Blob).

Definition videoRequest (base64Image mimeType prompt : jsstring)
    (aspectRatio : AspectRatio) : VideoRequest :=
  {| model := str "veo-3.1-fast-generate-preview";
     prompt := prompt;
     imageIn := {| imageBytesIn := base64Image; mimeType := mimeType |};
     config :=
       {| numberOfVideos := 1;
          resolution := str "720p";
          aspectRatio :=
            match aspectRatio with
            | R1_1 => R16_9
            | _ => aspectRatio
            end |} |}.

(** [operation.done] as the condition of the loop reads it. *)
Definition isDone (operation : Operation) : bool :=
  match done operation with
  | Some true => true
  | _ => false
  end.

(** The [while] loop.  [i] counts the status requests made so far.  The
    result is [None] when the loop is still running after [fuel] rounds; the
    trace is what it has asked by then. *)
Fixpoint poll (fuel : nat) (b : VideoBackend) (i : nat) (operation : Operation)
  : list event * option (result Operation) :=
  if isDone operation then ([], Some (Ok operation))
  else
    match fuel with
    | O => ([], None)
    | S fuel' =>
        match getVideosOperation b i with
        | Throw e =>
            ([ESetTimeout 10000; EGetVideosOperation operation], Some (Throw e))
        | Ok next =>
            let (tr, r) := poll fuel' b (S i) next in
            (ESetTimeout 10000 :: EGetVideosOperation operation :: tr, r)
        end
    end.

(** [operation.response?.generatedVideos?.[0]?.video?.uri] *)
Definition downloadLink (operation : Operation) : option jsstring :=
  match response operation with
  | Some r =>
      match generatedVideos r with
      | Some (g :: _) =>
          match video g with
          | Some v => videoUri v
          | None => None
          end
      | _ => None
      end
  | None => None
  end.

(** What follows the loop. *)
Definition download (h : Host) (b : VideoBackend) (operation : Operation)
  : list event * result jsstring :=
  if truthy (downloadLink operation) then
    match getApiKey h with
    | Throw e => ([], Throw e)
    | Ok key =>
        let url := nullish (downloadLink operation) [] ++ str "&key=" ++ key in
        match fetch b url with
        | Throw e => ([EFetch url], Throw e)
        | Ok videoResponse =>
            if ok videoResponse then
              match blob videoResponse with
              | Throw e => ([EFetch url; EBlob], Throw e)
              | Ok videoBlob =>
                  ([EFetch url; EBlob; ECreateObjectURL videoBlob],
                   Ok (createObjectURL b videoBlob))
              end
            else
              ([EFetch url], Throw (Error (str "Failed to fetch generated video.")))
        end
    end
  else ([], Throw (Error (str "Video generation failed or returned no URI."))).

Definition generateVideo (fuel : nat) (h : Host) (b : VideoBackend)
    (base64Image mimeType prompt : jsstring) (aspectRatio : AspectRatio)
  : list event * option (result jsstring) :=
  match getApiKey h with
  | Throw e => ([], Some (Throw e))
  | Ok _ =>
      let request := videoRequest base64Image mimeType prompt aspectRatio in
      match generateVideos b request with
      | Throw e => ([EGenerateVideos request], Some (Throw e))
      | Ok operation =>
          match poll fuel b 0 operation with
          | (tr, None) => (EGenerateVideos request :: tr, None)
          | (tr, Some (Throw e)) => (EGenerateVideos request :: tr, Some (Throw e))
          | (tr, Some (Ok operation)) =>
              let (tr', r) := download h b operation in
              (EGenerateVideos request :: tr ++ tr', Some r)
          end
      end
  end.

(** The two failures of the download, under the names of the error taxonomy. *)
Definition GenerationFailed : exn :=
  Error (str "Video generation failed or returned no URI.").

Definition DownloadFailed : exn :=
  Error (str "Failed to fetch generated video.").

(** The trace of the loop when it asks with the handles [handles] in turn. *)
Definition pollTrace (handles : list Operation) : list event :=
  flat_map (fun op => [ESetTimeout 10000; EGetVideosOperation op]) handles.

Definition isStatusCheck (e : event) : bool :=
  match e with
  | EGetVideosOperation _ => true
  | _ => false
  end.

Definition statusChecks (tr : list event) : nat :=
  List.length (filter isStatusCheck tr).

(** Every status request of the trace comes right after a 10-second timer. *)
Fixpoint eachCheckAfterWait (tr : list event) : Prop :=
  match tr with
  | [] => True
  | EGetVideosOperation _ :: _ => False
  | ESetTimeout ms :: EGetVideosOperation _ :: tr' =>
      ms = 10000%N /\ eachCheckAfterWait tr'
  | _ :: tr' => eachCheckAfterWait tr'
  end.

(** A run of the loop from the handle [op], the status requests numbered from
    [i]: the handles [pending], none of them done, are held in turn, each
    exchanged for the reply to the next status request, until the backend
    reports [final], which is done. *)
Fixpoint pollsUntil (b : VideoBackend) (i : nat) (op : Operation)
    (pending : list Operation) (final : Operation) : Prop :=
  match pending with
  | [] => op = final /\ isDone final = true
  | o :: rest =>
      o = op /\ isDone op = false /\
      exists next,
        getVideosOperation b i = Ok next /\ pollsUntil b (S i) next rest final
  end.


(** A scripted backend for the examples: the submitted operation is not
    done, [falses] status replies are not done either, the next ones are done
    and carry [link]; the fetch succeeds with [fetchOk]. *)
Definition pendingOperation : Operation :=
  {| done := Some false; response := None |}.

Definition doneOperation (link : option jsstring) : Operation :=
  {| done := Some true;
     response :=
       Some {| generatedVideos :=
                 Some [ {| video := Some {| videoUri := link |} |} ] |} |}.

Definition scriptedBackend (falses : nat) (link : option jsstring)
    (fetchOk : bool) : VideoBackend :=
  {| generateVideos := fun _ => Ok pendingOperation;
     getVideosOperation :=
       fun k => if k <? falses then Ok pendingOperation
                else Ok (doneOperation link);
     fetch := fun _ => Ok {| ok := fetchOk; blob := Ok [82; 73; 70; 70]%N |};
     createObjectURL := fun _ => str "blob:https://app/0001" |}.

(** A backend whose submission returns an operation that is done already. *)
Definition immediateBackend (link : option jsstring) : VideoBackend :=
  {| generateVideos := fun _ => Ok (doneOperation link);
     getVideosOperation := fun _ => Ok (doneOperation link);
     fetch := fun _ => Ok {| ok := true; blob := Ok [82; 73; 70; 70]%N |};
     createObjectURL := fun _ => str "blob:https://app/0001" |}.

Definition scriptedHost : Host := {| API_KEY := Some (str "secret") |}.

(** ** The feature components: their submit handlers

    A handler is a function from the state of its component, and from the
    outcome of the one promise it awaits, to the state once the handler has
    run to its end.  The [set...] calls are applied in program order; no
    other event of the component comes in between. *)

(** What a [catch] clause tells apart in the value it caught. *)
Inductive thrown : Type :=
| ErrorInstance (message : jsstring)   (* [err instanceof Error], [err.message] *)
| OtherValue.

Inductive outcome (A : Type) : Type :=
| Resolved (v : A)
| Rejected (err : thrown).

Arguments Resolved {A} v.
Arguments Rejected {A} err.

(** [err instanceof Error ? err.message : fallback] *)
Definition messageOf (err : thrown) (fallback : jsstring) : jsstring :=
  match err with
  | ErrorInstance m => m
  | OtherValue => fallback
  end.

(** [!s.trim()] *)
Definition blank (s : jsstring) : bool :=
  match trim s with
  | [] => true
  | _ => false
  end.

Module ImageGenerator.

Record State : Type :=
  { prompt : jsstring;
    aspectRatio : AspectRatio;
    generatedImageUrl : option jsstring;
    loading : bool;
    error : option jsstring }.

Definition setGeneratedImageUrl (v : option jsstring) (st : State) : State :=
  {| prompt := prompt st; aspectRatio := aspectRatio st;
     generatedImageUrl := v; loading := loading st; error := error st |}.

Definition setLoading (v : bool) (st : State) : State :=
  {| prompt := prompt st; aspectRatio := aspectRatio st;
     generatedImageUrl := generatedImageUrl st; loading := v;
     error := error st |}.

Definition setError (v : option jsstring) (st : State) : State :=
  {| prompt := prompt st; aspectRatio := aspectRatio st;
     generatedImageUrl := generatedImageUrl st; loading := loading st;
     error := v |}.

(** The [catch] and [finally] blocks. *)
Definition onFailure (err : thrown) (st : State) : State :=
  setLoading false
    (setError (Some (messageOf err (str "Failed to generate image."))) st).

(** [call]: the outcome of [generateImage(prompt, aspectRatio)]. *)
Definition handleSubmit (call : outcome jsstring) (st : State) : State :=
  if blank (prompt st) then
    setError (Some (str "Please enter a prompt to generate an image.")) st
  else
    let st := setLoading true st in
    let st := setError None st in
    let st := setGeneratedImageUrl None st in
    match call with
    | Resolved generatedBase64 =>
        setLoading false
          (setGeneratedImageUrl
             (Some (str "data:image/jpeg;base64," ++ generatedBase64)) st)
    | Rejected err => onFailure err st
    end.

End ImageGenerator.

Module PostWriter.

Record State : Type :=
  { topic : jsstring;
    tone : jsstring;
    platform : jsstring;
    generatedPost : jsstring;
    loading : bool;
    error : option jsstring;
    copySuccess : jsstring }.

Definition setGeneratedPost (v : jsstring) (st : State) : State :=
  {| topic := topic st; tone := tone st; platform := platform st;
     generatedPost := v; loading := loading st; error := error st;
     copySuccess := copySuccess st |}.

Definition setLoading (v : bool) (st : State) : State :=
  {| topic := topic st; tone := tone st; platform := platform st;
     generatedPost := generatedPost st; loading := v; error := error st;
     copySuccess := copySuccess st |}.

Definition setError (v : option jsstring) (st : State) : State :=
  {| topic := topic st; tone := tone st; platform := platform st;
     generatedPost := generatedPost st; loading := loading st; error := v;
     copySuccess := copySuccess st |}.

Definition setCopySuccess (v : jsstring) (st : State) : State :=
  {| topic := topic st; tone := tone st; platform := platform st;
     generatedPost := generatedPost st; loading := loading st;
     error := error st; copySuccess := v |}.

Definition onFailure (err : thrown) (st : State) : State :=
  setLoading false
    (setError
       (Some (messageOf err
                (str "An unknown error occurred while generating the post.")))
       st).

(** [call]: the outcome of [generatePostContent(topic, tone, platform)]. *)
Definition handleSubmit (call : outcome jsstring) (st : State) : State :=
  if blank (topic st) then
    setError (Some (str "Please enter a topic or some keywords.")) st
  else
    let st := setLoading true st in
    let st := setError None st in
    let st := setGeneratedPost [] st in
    let st := setCopySuccess [] st in
    match call with
    | Resolved post => setLoading false (setGeneratedPost post st)
    | Rejected err => onFailure err st
    end.

End PostWriter.

Module VideoGenerator.

Record File : Type := { type : jsstring }.

Record State : Type :=
  { apiKeySelected : bool;
    checkingApiKey : bool;
    imageFile : option File;
    previewUrl : option jsstring;
    generatedVideoUrl : option jsstring;
    prompt : jsstring;
    aspectRatio : AspectRatio;
    loading : bool;
    loadingMessage : jsstring;
    error : option jsstring }.

Definition setApiKeySelected (v : bool) (st : State) : State :=
  {| apiKeySelected := v; checkingApiKey := checkingApiKey st;
     imageFile := imageFile st; previewUrl := previewUrl st;
     generatedVideoUrl := generatedVideoUrl st; prompt := prompt st;
     aspectRatio := aspectRatio st; loading := loading st;
     loadingMessage := loadingMessage st; error := error st |}.

Definition setGeneratedVideoUrl (v : option jsstring) (st : State) : State :=
  {| apiKeySelected := apiKeySelected st; checkingApiKey := checkingApiKey st;
     imageFile := imageFile st; previewUrl := previewUrl st;
     generatedVideoUrl := v; prompt := prompt st;
     aspectRatio := aspectRatio st; loading := loading st;
     loadingMessage := loadingMessage st; error := error st |}.

Definition setLoading (v : bool) (st : State) : State :=
  {| apiKeySelected := apiKeySelected st; checkingApiKey := checkingApiKey st;
     imageFile := imageFile st; previewUrl := previewUrl st;
     generatedVideoUrl := generatedVideoUrl st; prompt := prompt st;
     aspectRatio := aspectRatio st; loading := v;
     loadingMessage := loadingMessage st; error := error st |}.

Definition setLoadingMessage (v : jsstring) (st : State) : State :=
  {| apiKeySelected := apiKeySelected st; checkingApiKey := checkingApiKey st;
     imageFile := imageFile st; previewUrl := previewUrl st;
     generatedVideoUrl := generatedVideoUrl st; prompt := prompt st;
     aspectRatio := aspectRatio st; loading := loading st;
     loadingMessage := v; error := error st |}.

Definition setError (v : option jsstring) (st : State) : State :=
  {| apiKeySelected := apiKeySelected st; checkingApiKey := checkingApiKey st;
     imageFile := imageFile st; previewUrl := previewUrl st;
     generatedVideoUrl := generatedVideoUrl st; prompt := prompt st;
     aspectRatio := aspectRatio st; loading := loading st;
     loadingMessage := loadingMessage st; error := v |}.

Definition loadingMessages : list jsstring :=
  [ str "Warming up the video engine...";
    str "Storyboarding your scene...";
    str "Rendering initial frames...";
    str "Applying special effects...";
    str "Compositing the final shots...";
    str "This can take a few minutes, hang tight...";
    str "Almost there..." ].

Definition notFound : jsstring := str "Requested entity was not found".

(** The [catch] block. *)
Definition onCatch (err : thrown) (st : State) : State :=
  let errorMessage := messageOf err (str "An unknown error occurred.") in
  if includes errorMessage notFound then
    setApiKeySelected false
      (setError (Some (str "Your API key is invalid. Please select a valid key."))
         st)
  else setError (Some errorMessage) st.

(** [call]: the outcome of the [try] block, [fileToBase64(imageFile)]
    followed by [generateVideo(...)]. *)
Definition handleSubmit (call : outcome jsstring) (st : State) : State :=
  match imageFile st with
  | Some _ =>
      if blank (prompt st) then
        setError
          (Some (str "Please upload an image and provide a video prompt.")) st
      else
        let st := setLoading true st in
        let st := setError None st in
        let st := setGeneratedVideoUrl None st in
        let st := setLoadingMessage (nth 0 loadingMessages []) st in
        match call with
        | Resolved videoUrl =>
            setLoading false (setGeneratedVideoUrl (Some videoUrl) st)
        | Rejected err => setLoading false (onCatch err st)
        end
  | None =>
      setError
        (Some (str "Please upload an image and provide a video prompt.")) st
  end.

(** Which of the three returns of the component renders. *)
Inductive screen : Type := CheckingKey | ApiKeyRequired | GeneratorForm.

Definition render (st : State) : screen :=
  if checkingApiKey st then CheckingKey
  else if negb (apiKeySelected st) then ApiKeyRequired
  else GeneratorForm.

End VideoGenerator.

(** ** The task list of [App] *)

Module App.

Record PostIdea : Type :=
  { platform : jsstring; prompt : jsstring; visualIdea : jsstring }.

Record Task : Type :=
  { id : jsstring; postIdea : PostIdea; completed : bool }.

(** What [addTask] compares of a task. *)
Definition ideaKey (t : Task) : jsstring * jsstring :=
  (prompt (postIdea t), platform (postIdea t)).

(** The callback of [some]. *)
Definition sameIdea (idea : PostIdea) (task : Task) : bool :=
  jsstring_eqb (prompt (postIdea task)) (prompt idea)
  && jsstring_eqb (platform (postIdea task)) (platform idea).

(** The template literal of the identifier; [now] and [random] are the
    texts of [Date.now()] and of [Math.random()]. *)
Definition newId (now random : jsstring) : jsstring :=
  str "task-" ++ now ++ str "-" ++ random.

(** The updater that [addTask] passes to [setTasks]. *)
Definition addTask (now random : jsstring) (idea : PostIdea)
    (prevTasks : list Task) : list Task :=
  let isAlreadyAdded := existsb (sameIdea idea) prevTasks in
  if isAlreadyAdded then prevTasks
  else
    let newTask :=
      {| id := newId now random; postIdea := idea; completed := false |} in
    prevTasks ++ [newTask].

(** The updater that [toggleTask] passes to [setTasks]. *)
Definition toggleTask (taskId : jsstring) (prevTasks : list Task) : list Task :=
  map (fun task =>
         if jsstring_eqb (id task) taskId
         then {| id := id task; postIdea := postIdea task;
                 completed := negb (completed task) |}
         else task)
      prevTasks.

(** The task lists the component can hold: [useState([])], then any
    sequence of the two updaters. *)
Inductive reachable : list Task -> Prop :=
| reach_initial : reachable []
| reach_add now random idea tasks :
    reachable tasks -> reachable (addTask now random idea tasks)
| reach_toggle taskId tasks :
    reachable tasks -> reachable (toggleTask taskId tasks).

End App.

(** ** Values for the examples *)


Definition readyVideo : VideoGenerator.State :=
  {| VideoGenerator.apiKeySelected := true;
     VideoGenerator.checkingApiKey := false;
     VideoGenerator.imageFile := Some {| VideoGenerator.type := str "image/png" |};
     VideoGenerator.previewUrl := Some (str "data:image/png;base64,AAAA");
     VideoGenerator.generatedVideoUrl := None;
     VideoGenerator.prompt := str "zoom out";
     VideoGenerator.aspectRatio := R16_9;
     VideoGenerator.loading := false;
     VideoGenerator.loadingMessage := str "Warming up the video engine...";
     VideoGenerator.error := None |}.

Definition quote : jsstring := [34%N].

(** The text of a JSON object whose only member is an empty [postIdeas]. *)
Definition onlyPostIdeas : jsstring :=
  str "{" ++ quote ++ str "postIdeas" ++ quote ++ str ": []}".

Definition ideaA : App.PostIdea :=
  {| App.platform := str "Instagram";
     App.prompt := str "Show the roastery at dawn";
     App.visualIdea := str "Steam over the first batch" |}.

Definition ideaB : App.PostIdea :=
  {| App.platform := str "LinkedIn";
     App.prompt := str "Show the roastery at dawn";
     App.visualIdea := str "The team at work" |}.

Definition twoTasks : list App.Task :=
  App.toggleTask (str "task-1700000000000-0.25")
    (App.addTask (str "1700000000002") (str "0.75") ideaA
       (App.addTask (str "1700000000001") (str "0.5") ideaB
          (App.addTask (str "1700000000000") (str "0.25") ideaA []))).

(** ** The gateway: names for its failures, measures of a trace *)

Definition ConfigurationError : exn :=
  Error (str "API_KEY environment variable not found.").

Definition PlanFormatError : exn :=
  Error
    (str "Could not generate a valid marketing plan. The response from the AI was not in the expected JSON format.").

Definition AnalysisFormatError : exn :=
  Error
    (str "Could not generate a valid analysis. The response from the AI was not in the expected JSON format.").

Definition RecommendationsFormatError : exn :=
  Error
    (str "Could not generate valid recommendations. The response from the AI was not in the expected JSON format.").

Definition NoContentGenerated : exn := Error (str "No image was generated.").

(** The milliseconds of all the timers of a trace. *)
Fixpoint waited (tr : list event) : N :=
  match tr with
  | [] => 0
  | ESetTimeout ms :: tr' => ms + waited tr'
  | _ :: tr' => waited tr'
  end.

Definition isSubmission (e : event) : bool :=
  match e with
  | EGenerateVideos _ => true
  | _ => false
  end.

Definition isFetch (e : event) : bool :=
  match e with
  | EFetch _ => true
  | _ => false
  end.

Definition submissions (tr : list event) : nat :=
  List.length (filter isSubmission tr).

Definition fetches (tr : list event) : nat :=
  List.length (filter isFetch tr).

(** The web parts and the maps parts of a list of chunks, in its order. *)
Definition webParts (cs : list GroundingChunk) : list WebChunk :=
  flat_map (fun c => match chunk_web c with Some w => [w] | None => [] end) cs.

Definition mapsParts (cs : list GroundingChunk) : list MapsChunk :=
  flat_map (fun c => match chunk_maps c with Some m => [m] | None => [] end) cs.

(** A reply of [generateContent] with the parts [ps] in its first candidate. *)
Definition replyWithParts (ps : list Part) : GenerateContentResponse :=
  {| text := None;
     candidates :=
       Some [ {| content := Some {| parts := Some ps |};
                 candidateGrounding := None |} ] |}.

(** ** [ContentCalendar]: the two cards over the task list *)

Module ContentCalendar.

Definition incompleteTasks (tasks : list App.Task) : list App.Task :=
  filter (fun task => negb (App.completed task)) tasks.

Definition completedTasks (tasks : list App.Task) : list App.Task :=
  filter (fun task => App.completed task) tasks.

(** What the component returns: the notice of the empty calendar, or the
    "To-Do" card and the "Completed" card, each one only if it has tasks;
    a card shows the number of its tasks and the tasks. *)
Inductive view : Type :=
| EmptyCalendar
| Cards (todo : option (nat * list App.Task))
        (completed : option (nat * list App.Task)).

Definition card (tasks : list App.Task) : option (nat * list App.Task) :=
  if 0 <? List.length tasks then Some (List.length tasks, tasks) else None.

Definition render (tasks : list App.Task) : view :=
  if List.length tasks =? 0 then EmptyCalendar
  else Cards (card (incompleteTasks tasks)) (card (completedTasks tasks)).

End ContentCalendar.

(** ** [MarketingPlan]: which ideas show as saved *)

Module MarketingPlan.

(** [isSaved], computed for each idea of the plan. *)
Definition isSaved (tasks : list App.Task) (idea : App.PostIdea) : bool :=
  existsb
    (fun task =>
       jsstring_eqb (App.prompt (App.postIdea task)) (App.prompt idea)
       && jsstring_eqb (App.platform (App.postIdea task)) (App.platform idea))
    tasks.

End MarketingPlan.

(** ** From the gateway to a handler

    What a [catch] clause sees of a failure of the gateway.  The message of
    a [TypeError] is the engine's, [engineText]; a [Rejection] is a value
    that is no [Error]. *)

Definition caught (engineText : jsstring) (e : exn) : thrown :=
  match e with
  | Error m => ErrorInstance m
  | TypeError => ErrorInstance engineText
  | Rejection => OtherValue
  end.

Definition settle {A : Type} (engineText : jsstring) (r : result A) : outcome A :=
  match r with
  | Ok a => Resolved a
  | Throw e => Rejected (caught engineText e)
  end.

(** ** [VideoGenerator]: the key check, the key dialog, the loading messages,
    and the submission with the gateway behind it *)

Module VideoGeneratorEffects.

Import VideoGenerator.

Definition setCheckingApiKey (v : bool) (st : State) : State :=
  {| apiKeySelected := apiKeySelected st; checkingApiKey := v;
     imageFile := imageFile st; previewUrl := previewUrl st;
     generatedVideoUrl := generatedVideoUrl st; prompt := prompt st;
     aspectRatio := aspectRatio st; loading := loading st;
     loadingMessage := loadingMessage st; error := error st |}.

(** [window.aistudio], when the host provides it: the outcomes of its two
    promises. *)
Record AIStudio : Type :=
  { hasSelectedApiKey : outcome bool; openSelectKey : outcome unit }.

(** The effect that runs once, when the component mounts. *)
Definition checkKey (aistudio : option AIStudio) (st : State) : State :=
  match aistudio with
  | Some studio =>
      setCheckingApiKey false
        (match hasSelectedApiKey studio with
         | Resolved hasKey => setApiKeySelected hasKey st
         | Rejected _ => setApiKeySelected true st
         end)
  | None => setCheckingApiKey false (setApiKeySelected true st)
  end.

Definition handleSelectKey (aistudio : option AIStudio) (st : State) : State :=
  match aistudio with
  | Some studio =>
      match openSelectKey studio with
      | Resolved _ => setApiKeySelected true st
      | Rejected _ =>
          setError (Some (str "Could not open the API key selection dialog.")) st
      end
  | None =>
      setError
        (Some (str "API key selection is not available in this environment.")) st
  end.

(** [Array.prototype.indexOf]: the first position of [x], or -1. *)
Fixpoint indexOfFrom (i : Z) (l : list jsstring) (x : jsstring) : Z :=
  match l with
  | [] => (-1)%Z
  | y :: l' => if jsstring_eqb y x then i else indexOfFrom (i + 1) l' x
  end.

Definition indexOf (l : list jsstring) (x : jsstring) : Z := indexOfFrom 0 l x.

(** The updater that the interval passes to [setLoadingMessage]. *)
Definition nextLoadingMessage (prev : jsstring) : jsstring :=
  let currentIndex := indexOf loadingMessages prev in
  let nextIndex :=
    Z.rem (currentIndex + 1) (Z.of_nat (List.length loadingMessages)) in
  nth (Z.to_nat nextIndex) loadingMessages [].

(** One firing of the interval, every 3000 ms while [loading]. *)
Definition onInterval (st : State) : State :=
  setLoadingMessage (nextLoadingMessage (loadingMessage st)) st.

(** [handleSubmit] with what it awaits: [fileToBase64(imageFile)], of
    outcome [base64], then [generateVideo].  [None]: the gateway is still
    polling, and the handler has not come to its end. *)
Definition submit (fuel : nat) (h : Host) (b : VideoBackend)
    (engineText : jsstring) (base64 : outcome jsstring) (st : State)
  : option State :=
  match imageFile st with
  | None => Some (handleSubmit (Rejected OtherValue) st)
  | Some file =>
      if blank (prompt st) then Some (handleSubmit (Rejected OtherValue) st)
      else
        match base64 with
        | Rejected err => Some (handleSubmit (Rejected err) st)
        | Resolved base64Image =>
            match
              snd (generateVideo fuel h b base64Image (type file) (prompt st)
                     (aspectRatio st))
            with
            | None => None
            | Some r => Some (handleSubmit (settle engineText r) st)
            end
        end
  end.

End VideoGeneratorEffects.

(** ** [GroundingSources]: the card of the citations *)

Module GroundingSources.

Record Link : Type := { href : jsstring; label : jsstring }.

(** [s || fallback] on strings. *)
Definition orElse (s fallback : jsstring) : jsstring :=
  match s with
  | [] => fallback
  | _ => s
  end.

Definition webLink (source : GroundingSource) : Link :=
  {| href := uri source; label := orElse (title source) (str "Untitled Source") |}.

Definition mapLink (source : MapGroundingSource) : Link :=
  {| href := map_uri source;
     label := orElse (map_title source) (str "Untitled Place") |}.

(** The card: the list of web sources and the list of map sources, each one
    only if it has entries. *)
Record Card : Type :=
  { webSources : option (list Link); mapSources : option (list Link) }.

Definition render (metadata : GroundingMetadata) : option Card :=
  let hasWebSources := 0 <? List.length (web metadata) in
  let hasMapSources := 0 <? List.length (maps metadata) in
  if negb hasWebSources && negb hasMapSources then None
  else
    Some {| webSources :=
              if hasWebSources then Some (map webLink (web metadata)) else None;
            mapSources :=
              if hasMapSources then Some (map mapLink (maps metadata)) else None |}.

(** Where the components use it: [grounding && <GroundingSources ... />]. *)
Definition show (grounding : option GroundingMetadata) : option Card :=
  match grounding with
  | Some metadata => render metadata
  | None => None
  end.

End GroundingSources.

(** ** [MultiPostManager]: the selection of platforms *)

Module MultiPostManager.

Inductive Platform : Type :=
| Facebook | Instagram | LinkedIn | GoogleBusinessProfile.

Definition Platform_eqb (a b : Platform) : bool :=
  match a, b with
  | Facebook, Facebook | Instagram, Instagram | LinkedIn, LinkedIn
  | GoogleBusinessProfile, GoogleBusinessProfile => true
  | _, _ => false
  end.

(** [prev.includes(platform)] *)
Definition includesPlatform (prev : list Platform) (platform : Platform) : bool :=
  existsb (fun p => Platform_eqb p platform) prev.

(** The updater that [handlePlatformChange] passes to
    [setSelectedPlatforms]. *)
Definition handlePlatformChange (platform : Platform) (prev : list Platform)
  : list Platform :=
  if includesPlatform prev platform
  then filter (fun p => negb (Platform_eqb p platform)) prev
  else prev ++ [platform].

(** The selections the component can hold: [useState([])], then any
    sequence of changes. *)
Inductive selectable : list Platform -> Prop :=
| select_initial : selectable []
| select_change platform prev :
    selectable prev -> selectable (handlePlatformChange platform prev).

End MultiPostManager.

(** ** [useGeolocation] and [LocalInsights] *)

Module LocalInsights.

(** The position, as the hook keeps it; a coordinate is the text of its
    number. *)
Record Coords : Type := { latitude : jsstring; longitude : jsstring }.

Record GeolocationState : Type :=
  { geoLoading : bool; geoError : option jsstring; geoData : option Coords }.

(** What the browser does with [getCurrentPosition]: it calls back with a
    position or with an error, of message [inl]. *)
Definition fetchLocation (geolocation : option (jsstring + Coords))
  : GeolocationState :=
  match geolocation with
  | None =>
      {| geoLoading := false;
         geoError := Some (str "Geolocation is not supported by your browser.");
         geoData := None |}
  | Some (inr position) =>
      {| geoLoading := false; geoError := None; geoData := Some position |}
  | Some (inl message) =>
      {| geoLoading := false; geoError := Some message; geoData := None |}
  end.

Record State : Type :=
  { query : jsstring;
    insights : option jsstring;
    grounding : option GroundingMetadata;
    loading : bool;
    error : option jsstring }.

Definition setInsights (v : option jsstring) (st : State) : State :=
  {| query := query st; insights := v; grounding := grounding st;
     loading := loading st; error := error st |}.

Definition setGrounding (v : option GroundingMetadata) (st : State) : State :=
  {| query := query st; insights := insights st; grounding := v;
     loading := loading st; error := error st |}.

Definition setLoading (v : bool) (st : State) : State :=
  {| query := query st; insights := insights st; grounding := grounding st;
     loading := v; error := error st |}.

Definition setError (v : option jsstring) (st : State) : State :=
  {| query := query st; insights := insights st; grounding := grounding st;
     loading := loading st; error := v |}.

(** [call]: the outcome of [getLocalInsights(query, geoData)]. *)
Definition handleSubmit (geo : GeolocationState) (call : outcome InsightResult)
    (st : State) : State :=
  if blank (query st) then setError (Some (str "Please enter a query.")) st
  else
    match geoData geo with
    | None => setError (Some (str "Could not determine your location.")) st
    | Some _ =>
        let st := setLoading true st in
        let st := setError None st in
        let st := setInsights None st in
        let st := setGrounding None st in
        match call with
        | Resolved r =>
            setLoading false
              (setGrounding (insight_grounding r)
                 (setInsights (insight_text r) st))
        | Rejected err =>
            setLoading false
              (setError (Some (messageOf err (str "An unknown error occurred.")))
                 st)
        end
    end.

(** The form is rendered under [geoData &&]. *)
Definition formShown (geo : GeolocationState) : bool :=
  match geoData geo with
  | Some _ => true
  | None => false
  end.

(** The card of the results is rendered under [(insights || grounding) &&]. *)
Definition resultsShown (st : State) : bool :=
  truthy (insights st)
  || match grounding st with Some _ => true | None => false end.

(** [handleSubmit] with the gateway behind it. *)
Definition submit (geo : GeolocationState) (h : Host)
    (reply : result GenerateContentResponse) (engineText : jsstring)
    (st : State) : State :=
  handleSubmit geo (settle engineText (getLocalInsights h reply)) st.

End LocalInsights.

(** ** More values for the examples *)

Definition here : LocalInsights.Coords :=
  {| LocalInsights.latitude := str "60.17";
     LocalInsights.longitude := str "24.94" |}.

(** The component after a query that was answered. *)
Definition answered : LocalInsights.State :=
  {| LocalInsights.query := str "cafes";
     LocalInsights.insights := Some (str "Three cafes nearby.");
     LocalInsights.grounding := None;
     LocalInsights.loading := false;
     LocalInsights.error := None |}.

(** A reply without text whose only chunk has no web and no maps part. *)
Definition bareReply : GenerateContentResponse :=
  {| text := None;
     candidates :=
       Some [ {| content := None;
                 candidateGrounding :=
                   Some {| groundingChunks :=
                             Some [ {| chunk_web := None;
                                       chunk_maps := None |} ] |} |} ] |}.

Definition engineMessage : jsstring :=
  str "Cannot read properties of undefined (reading '0')".

(** ** [imageUtils], [DownloadButton] and [ImageEditor] *)

(** [s.split(sep)] for a separator of one code unit. *)
Fixpoint split (sep : N) (s : jsstring) : list jsstring :=
  match s with
  | [] => [[]]
  | c :: s' =>
      if N.eqb c sep then [] :: split sep s'
      else
        match split sep s' with
        | piece :: pieces => (c :: piece) :: pieces
        | [] => [[c]]
        end
  end.

(** [a.join(sep)]: an element that is [undefined] gives the empty text. *)
Fixpoint join (sep : jsstring) (a : list (option jsstring)) : jsstring :=
  match a with
  | [] => []
  | [x] => nullish x []
  | x :: a' => nullish x [] ++ sep ++ join sep a'
  end.

(** A value in a template literal. *)
Definition interpolate (v : option jsstring) : jsstring :=
  nullish v (str "undefined").

Definition numberText (n : N) : jsstring :=
  str (NilEmpty.string_of_uint (N.to_uint n)).

Inductive ImageFilter : Type := FNone | Grayscale | Sepia | Invert | Vintage.

Definition ImageFilter_eqb (a b : ImageFilter) : bool :=
  match a, b with
  | FNone, FNone | Grayscale, Grayscale | Sepia, Sepia | Invert, Invert
  | Vintage, Vintage => true
  | _, _ => false
  end.

(** The text of a filter, as the type [ImageFilter] has it. *)
Definition filterId (filter : ImageFilter) : jsstring :=
  match filter with
  | FNone => str "none"
  | Grayscale => str "grayscale"
  | Sepia => str "sepia"
  | Invert => str "invert"
  | Vintage => str "vintage"
  end.

Definition getCssFilterValue (filter : ImageFilter) : jsstring :=
  match filter with
  | Grayscale => str "grayscale(100%)"
  | Sepia => str "sepia(100%)"
  | Invert => str "invert(100%)"
  | Vintage => str "sepia(60%) contrast(110%) brightness(90%)"
  | FNone => str "none"
  end.

(** The browser, as [applyFilterAndGetUrl] uses it: an image element loads
    from a URL, or fails with an event of text [inl]; a canvas has a 2d
    context or not; [toDataURL] gives the PNG of what was drawn, an image
    under a filter. *)
Record HTMLImage : Type := { src : jsstring; width : N; height : N }.

Record Browser : Type :=
  { loadImage : jsstring -> jsstring + HTMLImage;
    getContext : bool;
    toDataURL : jsstring -> HTMLImage -> jsstring }.

Definition applyFilterAndGetUrl (browser : Browser)
    (originalImageUrl : jsstring) (filter : ImageFilter) : outcome jsstring :=
  if ImageFilter_eqb filter FNone then Resolved originalImageUrl
  else
    match loadImage browser originalImageUrl with
    | inr image =>
        if getContext browser then
          Resolved (toDataURL browser (getCssFilterValue filter) image)
        else Rejected (ErrorInstance (str "Could not get canvas context"))
    | inl err =>
        Rejected
          (ErrorInstance (str "Failed to load image for filtering: " ++ err))
    end.

Module DownloadButton.

Record Anchor : Type := { href : jsstring; download : jsstring }.

Definition render (imageUrl : option jsstring) (filename : jsstring)
  : option Anchor :=
  match imageUrl with
  | Some (c :: u) => Some {| href := c :: u; download := filename |}
  | _ => None
  end.

End DownloadButton.

Module ImageEditor.

Record File : Type := { size : N }.

Definition supportedMimeTypes : list jsstring :=
  [ str "image/jpeg"; str "image/png"; str "image/webp"; str "image/heic";
    str "image/heif" ].

Definition MAX_FILE_SIZE_MB : N := 4.

Definition MAX_FILE_SIZE_BYTES : N := MAX_FILE_SIZE_MB * 1024 * 1024.

Record State : Type :=
  { imageFile : option File;
    originalImageUrl : option jsstring;
    editedImageUrl : option jsstring;
    downloadableUrl : option jsstring;
    selectedFilter : ImageFilter;
    prompt : jsstring;
    loading : bool;
    error : option jsstring }.

Definition setEditedImageUrl (v : option jsstring) (st : State) : State :=
  {| imageFile := imageFile st; originalImageUrl := originalImageUrl st;
     editedImageUrl := v; downloadableUrl := downloadableUrl st;
     selectedFilter := selectedFilter st; prompt := prompt st;
     loading := loading st; error := error st |}.

Definition setDownloadableUrl (v : option jsstring) (st : State) : State :=
  {| imageFile := imageFile st; originalImageUrl := originalImageUrl st;
     editedImageUrl := editedImageUrl st; downloadableUrl := v;
     selectedFilter := selectedFilter st; prompt := prompt st;
     loading := loading st; error := error st |}.

Definition setSelectedFilter (v : ImageFilter) (st : State) : State :=
  {| imageFile := imageFile st; originalImageUrl := originalImageUrl st;
     editedImageUrl := editedImageUrl st; downloadableUrl := downloadableUrl st;
     selectedFilter := v; prompt := prompt st;
     loading := loading st; error := error st |}.

Definition setLoading (v : bool) (st : State) : State :=
  {| imageFile := imageFile st; originalImageUrl := originalImageUrl st;
     editedImageUrl := editedImageUrl st; downloadableUrl := downloadableUrl st;
     selectedFilter := selectedFilter st; prompt := prompt st;
     loading := v; error := error st |}.

Definition setError (v : option jsstring) (st : State) : State :=
  {| imageFile := imageFile st; originalImageUrl := originalImageUrl st;
     editedImageUrl := editedImageUrl st; downloadableUrl := downloadableUrl st;
     selectedFilter := selectedFilter st; prompt := prompt st;
     loading := loading st; error := v |}.

Definition sizeMessage : jsstring :=
  str "Image size exceeds the " ++ numberText MAX_FILE_SIZE_MB
  ++ str " MB limit.".

Definition typeMessage : jsstring :=
  str "Unsupported image type. Please use one of the following: "
  ++ join (str ", ")
       (map (fun t => nth_error (split 47 t) 1) supportedMimeTypes)
  ++ str ".".

(** The checks at the head of [handleSubmit]: the message of the first one
    that fails.  [mimeType] is the value of [getMimeType(imageFile)]. *)
Definition validate (mimeType : jsstring) (st : State) : option jsstring :=
  match imageFile st with
  | None => Some (str "Please upload an image and provide an editing prompt.")
  | Some file =>
      if blank (prompt st) then
        Some (str "Please upload an image and provide an editing prompt.")
      else if N.ltb MAX_FILE_SIZE_BYTES (size file) then Some sizeMessage
      else if negb (existsb (fun t => jsstring_eqb t mimeType) supportedMimeTypes)
      then Some typeMessage
      else None
  end.

(** What [handleSubmit] sets before it awaits. *)
Definition started (st : State) : State :=
  let st := setLoading true st in
  let st := setError None st in
  let st := setEditedImageUrl None st in
  setSelectedFilter FNone st.

(** What it sets once the [try] block is settled; [call] is the outcome of
    [fileToBase64(imageFile)] followed by
    [editImage(base64Image, mimeType, prompt)]. *)
Definition settled (mimeType : jsstring) (call : outcome (option jsstring))
    (st : State) : State :=
  match call with
  | Resolved editedBase64 =>
      setLoading false
        (setEditedImageUrl
           (Some (str "data:" ++ mimeType ++ str ";base64,"
                  ++ interpolate editedBase64)) st)
  | Rejected err =>
      setLoading false
        (setError (Some (messageOf err (str "Failed to edit image."))) st)
  end.

Definition handleSubmit (mimeType : jsstring)
    (call : outcome (option jsstring)) (st : State) : State :=
  match validate mimeType st with
  | Some message => setError (Some message) st
  | None => settled mimeType call (started st)
  end.

(** The effect on [editedImageUrl] and [selectedFilter], with the promise
    of [applyFilterAndGetUrl] settled. *)
Definition downloadEffect (browser : Browser) (st : State) : State :=
  match editedImageUrl st with
  | Some (c :: u) =>
      let editedImageUrl := c :: u in
      let st := setDownloadableUrl (Some editedImageUrl) st in
      if negb (ImageFilter_eqb (selectedFilter st) FNone) then
        match applyFilterAndGetUrl browser editedImageUrl (selectedFilter st) with
        | Resolved url => setDownloadableUrl (Some url) st
        | Rejected _ =>
            setDownloadableUrl (Some editedImageUrl)
              (setError (Some (str "Could not apply filter for download.")) st)
        end
      else st
  | _ => st
  end.

(** The effect runs after a render in which [editedImageUrl] or
    [selectedFilter] is no longer what it was. *)
Definition sameUrl (a b : option jsstring) : bool :=
  match a, b with
  | Some x, Some y => jsstring_eqb x y
  | None, None => true
  | _, _ => false
  end.

Definition afterRender (browser : Browser) (before after : State) : State :=
  if sameUrl (editedImageUrl before) (editedImageUrl after)
     && ImageFilter_eqb (selectedFilter before) (selectedFilter after)
  then after
  else downloadEffect browser after.

(** A click on the button of a filter. *)
Definition selectFilter (browser : Browser) (filter : ImageFilter) (st : State)
  : State :=
  afterRender browser st (setSelectedFilter filter st).

(** A submission with the gateway behind it: a render when the handler
    awaits, and one when it is through. *)
Definition submit (browser : Browser) (h : Host)
    (reply : result GenerateContentResponse) (engineText mimeType : jsstring)
    (base64 : outcome jsstring) (st : State) : State :=
  match validate mimeType st with
  | Some message => setError (Some message) st
  | None =>
      let awaiting := afterRender browser st (started st) in
      afterRender browser awaiting
        (settled mimeType
           (match base64 with
            | Resolved _ => settle engineText (editImage h reply)
            | Rejected err => Rejected err
            end) awaiting)
  end.

(** The link under the edited image, which is rendered under
    [editedImageUrl &&]. *)
Definition downloadLink (st : State) : option DownloadButton.Anchor :=
  if truthy (editedImageUrl st) then
    DownloadButton.render (downloadableUrl st)
      (str "edited-image-" ++ filterId (selectedFilter st) ++ str ".png")
  else None.

(** The filter of the edited image on the screen. *)
Definition shownFilter (st : State) : jsstring :=
  getCssFilterValue (selectedFilter st).

End ImageEditor.

(** ** Values for the examples of the editor *)

(** An image at the limit of the size, and the editor ready to submit it. *)
Definition photo : ImageEditor.File := {| ImageEditor.size := 4194304 |}.

Definition editing : ImageEditor.State :=
  {| ImageEditor.imageFile := Some photo;
     ImageEditor.originalImageUrl := Some (str "data:image/png;base64,AAAA");
     ImageEditor.editedImageUrl := None;
     ImageEditor.downloadableUrl := None;
     ImageEditor.selectedFilter := FNone;
     ImageEditor.prompt := str "add a cat";
     ImageEditor.loading := false;
     ImageEditor.error := None |}.

(** The editor with an edited image on the screen. *)
Definition edited : ImageEditor.State :=
  {| ImageEditor.imageFile := Some photo;
     ImageEditor.originalImageUrl := Some (str "data:image/png;base64,AAAA");
     ImageEditor.editedImageUrl := Some (str "data:image/png;base64,QUJD");
     ImageEditor.downloadableUrl := Some (str "data:image/png;base64,QUJD");
     ImageEditor.selectedFilter := FNone;
     ImageEditor.prompt := str "add a cat";
     ImageEditor.loading := false;
     ImageEditor.error := None |}.

(** A browser whose canvas works, and one without a 2d context. *)
Definition canvasBrowser (context : bool) : Browser :=
  {| loadImage := fun url => inr {| src := url; width := 640; height := 480 |};
     getContext := context;
     toDataURL := fun _ _ => str "data:image/png;base64,UE5H" |}.

(** ** [MarketingPlan]: the plan on the screen

    The plan that the component holds is what [JSON.parse] made of the
    reply, whatever its shape.  The component reads it as a
    [MarketingPlanResponse]; a read through [undefined] or [null], and a call
    of [map] on what is no array, raise a [TypeError]. *)

(** A JavaScript value that comes from a parsed text; [None] is
    [undefined]. *)
Definition value : Type := option json.

(** The value of a number literal of JSON is zero: its digits are all
    zeros, or it is so small that the nearest double is zero, a half of the
    least double at most. *)
Fixpoint span (p : N -> bool) (s : jsstring) : jsstring * jsstring :=
  match s with
  | c :: s' =>
      if p c then let (taken, rest) := span p s' in (c :: taken, rest)
      else ([], s)
  | [] => ([], [])
  end.

Definition digitsValue (ds : jsstring) : N :=
  fold_left (fun acc c => 10 * acc + (c - 48))%N ds 0%N.

Definition numberIsZero (literal : jsstring) : bool :=
  let unsigned :=
    match literal with
    | 45%N :: rest => rest
    | _ => literal
    end in
  let (integer, afterInteger) := span Json.isDigit unsigned in
  let (fraction, afterFraction) :=
    match afterInteger with
    | 46%N :: rest => span Json.isDigit rest
    | _ => ([], afterInteger)
    end in
  let exponent :=
    match afterFraction with
    | _ :: 45%N :: ds => (- Z.of_N (digitsValue ds))%Z
    | _ :: 43%N :: ds => Z.of_N (digitsValue ds)
    | _ :: ds => Z.of_N (digitsValue ds)
    | [] => 0%Z
    end in
  let mantissa := digitsValue (integer ++ fraction) in
  if N.eqb mantissa 0 then true
  else
    let scale := (exponent - Z.of_nat (List.length fraction))%Z in
    if (0 <=? scale)%Z then false
    else (mantissa * 2 ^ 1075 <=? 10 ^ Z.to_N (- scale))%N.

(** [v && ...]: whether [v] is truthy. *)
Definition truthyValue (v : json) : bool :=
  match v with
  | JNull => false
  | JBool b => b
  | JNumber literal => negb (numberIsZero literal)
  | JString s => match s with [] => false | _ => true end
  | JArray _ | JObject _ => true
  end.

(** [v.key], for a key that no prototype has. *)
Definition get (v : value) (key : jsstring) : result value :=
  match v with
  | None | Some JNull => Throw TypeError
  | Some (JObject ms) => Ok (Json.member key ms)
  | Some _ => Ok None
  end.

Fixpoint traverse {A B : Type} (f : A -> result B) (l : list A)
  : result (list B) :=
  match l with
  | [] => Ok []
  | x :: l' =>
      y <- f x ;;
      ys <- traverse f l' ;;
      Ok (y :: ys)
  end.

(** [v.map(f)]: [v] has a [map] only if it is an array. *)
Definition mapOver {B : Type} (v : value) (f : json -> result B)
  : result (list B) :=
  match v with
  | Some (JArray items) => traverse f items
  | _ => Throw TypeError
  end.

(** [a.some(f)] *)
Fixpoint some {A : Type} (f : A -> result bool) (a : list A) : result bool :=
  match a with
  | [] => Ok false
  | x :: a' =>
      found <- f x ;;
      if found then Ok true else some f a'
  end.

(** [s === v] for a string [s]. *)
Definition strictEq (s : jsstring) (v : value) : bool :=
  match v with
  | Some (JString t) => jsstring_eqb s t
  | _ => false
  end.

Module MarketingPlanView.

Record CompetitorCard : Type :=
  { competitorName : value; strengths : list json; weaknesses : list json }.

Record PillarCard : Type := { pillar : value; description : value }.

(** The card of an idea; [saved]: the button is disabled and reads
    "Saved". *)
Record IdeaCard : Type :=
  { platform : value; prompt : value; visualIdea : value; saved : bool }.

Record Cards : Type :=
  { competitors : list CompetitorCard;
    pillars : list PillarCard;
    ideas : list IdeaCard;
    sources : option GroundingSources.Card }.

(** What [plan && (...)] gives: the plan itself when it is falsy, the cards
    otherwise. *)
Inductive view : Type :=
| Falsy (plan : json)
| Shown (cards : Cards).

Definition competitorCard (comp : json) : result CompetitorCard :=
  name <- get (Some comp) (str "competitorName") ;;
  strengths <- get (Some comp) (str "strengths") ;;
  strengthItems <- mapOver strengths (fun s => Ok s) ;;
  weaknesses <- get (Some comp) (str "weaknesses") ;;
  weaknessItems <- mapOver weaknesses (fun w => Ok w) ;;
  Ok {| competitorName := name; strengths := strengthItems;
        weaknesses := weaknessItems |}.

Definition pillarCard (pillar : json) : result PillarCard :=
  name <- get (Some pillar) (str "pillar") ;;
  description <- get (Some pillar) (str "description") ;;
  Ok {| pillar := name; description := description |}.

(** [isSaved], on the idea as it was parsed. *)
Definition isSaved (tasks : list App.Task) (idea : json) : result bool :=
  some (fun task =>
          prompt <- get (Some idea) (str "prompt") ;;
          if strictEq (App.prompt (App.postIdea task)) prompt then
            platform <- get (Some idea) (str "platform") ;;
            Ok (strictEq (App.platform (App.postIdea task)) platform)
          else Ok false)
       tasks.

Definition ideaCard (tasks : list App.Task) (idea : json) : result IdeaCard :=
  isSaved <- isSaved tasks idea ;;
  platform <- get (Some idea) (str "platform") ;;
  prompt <- get (Some idea) (str "prompt") ;;
  visualIdea <- get (Some idea) (str "visualIdea") ;;
  Ok {| platform := platform; prompt := prompt; visualIdea := visualIdea;
        saved := isSaved |}.

Definition render (tasks : list App.Task) (plan : json)
    (grounding : option GroundingMetadata) : result view :=
  if truthyValue plan then
    competitorAnalysis <- get (Some plan) (str "competitorAnalysis") ;;
    competitors <- mapOver competitorAnalysis competitorCard ;;
    contentPillars <- get (Some plan) (str "contentPillars") ;;
    pillars <- mapOver contentPillars pillarCard ;;
    postIdeas <- get (Some plan) (str "postIdeas") ;;
    ideas <- mapOver postIdeas (ideaCard tasks) ;;
    Ok (Shown {| competitors := competitors; pillars := pillars;
                 ideas := ideas;
                 sources := GroundingSources.show grounding |})
  else Ok (Falsy plan).

(** The items of a value that is an array. *)
Definition items (v : value) : list json :=
  match v with
  | Some (JArray l) => l
  | _ => []
  end.

(** The form above the plan, and its submission. *)
Record State : Type :=
  { businessInfo : jsstring;
    competitorsInfo : jsstring;
    plan : json;
    grounding : option GroundingMetadata;
    loading : bool;
    error : option jsstring }.

Definition setPlan (v : json) (st : State) : State :=
  {| businessInfo := businessInfo st; competitorsInfo := competitorsInfo st;
     plan := v; grounding := grounding st; loading := loading st;
     error := error st |}.

Definition setGrounding (v : option GroundingMetadata) (st : State) : State :=
  {| businessInfo := businessInfo st; competitorsInfo := competitorsInfo st;
     plan := plan st; grounding := v; loading := loading st;
     error := error st |}.

Definition setLoading (v : bool) (st : State) : State :=
  {| businessInfo := businessInfo st; competitorsInfo := competitorsInfo st;
     plan := plan st; grounding := grounding st; loading := v;
     error := error st |}.

Definition setError (v : option jsstring) (st : State) : State :=
  {| businessInfo := businessInfo st; competitorsInfo := competitorsInfo st;
     plan := plan st; grounding := grounding st; loading := loading st;
     error := v |}.

(** [call]: the outcome of
    [generateMarketingPlan(businessInfo, competitorsInfo)]. *)
Definition handleSubmit (call : outcome PlanResult) (st : State) : State :=
  if blank (businessInfo st) || blank (competitorsInfo st) then
    setError
      (Some (str "Please fill in both your business and competitor information."))
      st
  else
    let st := setLoading true st in
    let st := setError None st in
    let st := setPlan JNull st in
    let st := setGrounding None st in
    match call with
    | Resolved (Build_PlanResult newPlan groundingMetadata) =>
        setLoading false (setGrounding groundingMetadata (setPlan newPlan st))
    | Rejected err =>
        setLoading false
          (setError (Some (messageOf err (str "An unknown error occurred.")))
             st)
    end.

(** The submission with the gateway behind it. *)
Definition submit (h : Host) (reply : result GenerateContentResponse)
    (engineText : jsstring) (st : State) : State :=
  handleSubmit (settle engineText (generateMarketingPlan h reply)) st.

(** The part of the screen under the form. *)
Definition screen (tasks : list App.Task) (st : State) : result view :=
  render tasks (plan st) (grounding st).

End MarketingPlanView.

(** ** Values for the examples of the plan *)

(** A plan that was parsed from an object with an empty [postIdeas] and
    nothing else. *)
Definition partialPlan : json := JObject [(str "postIdeas", JArray [])].

Definition planForm : MarketingPlanView.State :=
  {| MarketingPlanView.businessInfo := str "An artisanal coffee shop";
     MarketingPlanView.competitorsInfo := str "The chain next door";
     MarketingPlanView.plan := JNull;
     MarketingPlanView.grounding := None;
     MarketingPlanView.loading := false;
     MarketingPlanView.error := None |}.

(** * Properties *)

(** ** Strings *)

Lemma startsWith_app (p s : jsstring) : startsWith (p ++ s) p = true.
Proof.
  induction p as [|a p IH]; simpl.
  - reflexivity.
  - now rewrite N.eqb_refl, IH.
Qed.

Lemma startsWith_prefix (s p : jsstring) :
  startsWith s p = true <-> exists r, s = p ++ r.
Proof.
  revert s; induction p as [|a p IH]; intros s; simpl.
  - split; [intros _; now exists s | reflexivity].
  - destruct s as [|c s].
    + split; [discriminate | intros [r Hr]; discriminate].
    + rewrite andb_true_iff, N.eqb_eq, IH. split.
      * intros [-> [r ->]]. now exists r.
      * intros [r Hr]. injection Hr as -> ->. split; [reflexivity | now exists r].
Qed.

(** [includes] decides the presence of a substring. *)
Lemma includes_substring (s p : jsstring) :
  includes s p = true <-> exists a b, s = a ++ p ++ b.
Proof.
  induction s as [|c s IH].
  - simpl. rewrite orb_false_r, startsWith_prefix. split.
    + intros [r Hr]. now exists [], r.
    + intros [a [b Hab]]. destruct a; [now exists b | discriminate].
  - cbn [includes]. rewrite orb_true_iff, IH, startsWith_prefix. split.
    + intros [[r Hr] | [a [b Hab]]].
      * now exists [], r.
      * exists (c :: a), b. now rewrite Hab.
    + intros [a [b Hab]]. destruct a as [|a0 a].
      * left. now exists b.
      * right. injection Hab as _ ->. now exists a, b.
Qed.

Lemma trimStart_app (t : jsstring) (c : N) (r : jsstring) :
  isWhiteSpace c = false -> trimStart (t ++ c :: r) = trimStart t ++ c :: r.
Proof.
  intros Hc. induction t as [|a t IH]; simpl.
  - now rewrite Hc.
  - destruct (isWhiteSpace a); [exact IH | reflexivity].
Qed.

Lemma trimStart_idem (s : jsstring) : trimStart (trimStart s) = trimStart s.
Proof.
  induction s as [|a s IH]; simpl; [reflexivity|].
  destruct (isWhiteSpace a) eqn:Ha; [exact IH | simpl; now rewrite Ha].
Qed.

Lemma trimEnd_app (x y : jsstring) :
  trimEnd y <> [] -> trimEnd (x ++ y) = x ++ trimEnd y.
Proof.
  intros Hy. induction x as [|a x IH]; simpl; [reflexivity|].
  rewrite IH. destruct (x ++ trimEnd y) eqn:E; [|reflexivity].
  apply app_eq_nil in E. now destruct E.
Qed.

Lemma trimEnd_head (c : N) (r : jsstring) :
  isWhiteSpace c = false -> exists r', trimEnd (c :: r) = c :: r'.
Proof.
  intros Hc. simpl. destruct (trimEnd r) as [|d r'].
  - rewrite Hc. now exists [].
  - now exists (d :: r').
Qed.

Lemma slice_from (s : jsstring) (n : nat) :
  slice s (Z.of_nat n) None = skipn n s.
Proof.
  unfold slice, sliceIndex.
  destruct (Z.ltb_spec (Z.of_nat n) 0) as [H|_]; [lia|].
  rewrite Nat2Z.id.
  destruct (Nat.le_gt_cases n (List.length s)) as [Hle|Hgt].
  - rewrite Nat.min_l by exact Hle.
    apply firstn_all2. rewrite length_skipn. lia.
  - rewrite Nat.min_r by lia.
    rewrite skipn_all, Nat.sub_diag. simpl.
    symmetry. apply skipn_all2. lia.
Qed.

Lemma slice_until (x y : jsstring) :
  y <> [] -> slice (x ++ y) 0 (Some (- Z.of_nat (List.length y))%Z) = x.
Proof.
  intros Hy.
  assert (0 < List.length y)%nat by (destruct y; [congruence | simpl; lia]).
  unfold slice. change (sliceIndex (List.length (x ++ y)) 0) with 0%nat.
  cbn [skipn]. rewrite Nat.sub_0_r. unfold sliceIndex. rewrite length_app.
  destruct (Z.ltb_spec (- Z.of_nat (List.length y)) 0) as [_|?]; [|lia].
  replace (Z.to_nat (Z.max (Z.of_nat (List.length x + List.length y)
                            + - Z.of_nat (List.length y)) 0))
    with (List.length x) by lia.
  rewrite firstn_app, Nat.sub_diag, firstn_all. simpl.
  apply app_nil_r.
Qed.

(** ** The fence *)

Lemma stripFence_fenced (t : jsstring) :
  stripFence (fenceOpen ++ t ++ fenceClose) = trim t.
Proof.
  assert (Hclose : trimEnd fenceClose <> []) by (vm_compute; discriminate).
  assert (Hclose' : trimEnd fenceClose = fenceClose) by (vm_compute; reflexivity).
  assert (Htrim : trim (fenceOpen ++ t ++ fenceClose) = fenceOpen ++ t ++ fenceClose).
  { unfold trim. change (trimStart (fenceOpen ++ t ++ fenceClose))
      with (fenceOpen ++ t ++ fenceClose).
    rewrite app_assoc, trimEnd_app by exact Hclose. now rewrite Hclose'. }
  assert (Hinner : trim (t ++ fenceClose) = trimStart t ++ fenceClose).
  { unfold trim. change fenceClose with (96 :: str "``")%N at 1.
    rewrite trimStart_app by reflexivity.
    change (96 :: str "``")%N with fenceClose.
    rewrite trimEnd_app by exact Hclose. now rewrite Hclose'. }
  assert (Hslice : slice (fenceOpen ++ t ++ fenceClose) 7 None = t ++ fenceClose).
  { change 7%Z with (Z.of_nat (List.length fenceOpen)).
    now rewrite slice_from, skipn_app, Nat.sub_diag, skipn_all. }
  assert (Hends : endsWith (trimStart t ++ fenceClose) fenceClose = true).
  { unfold endsWith. now rewrite rev_app_distr, startsWith_app. }
  assert (Huntil : slice (trimStart t ++ fenceClose) 0 (Some (-3)%Z) = trimStart t).
  { change (-3)%Z with (- Z.of_nat (List.length fenceClose))%Z.
    apply slice_until. vm_compute. discriminate. }
  unfold stripFence.
  rewrite Htrim, startsWith_app, Hslice, Hinner, Hends, Huntil.
  unfold trim. now rewrite trimStart_idem.
Qed.

Lemma stripFence_plain (t : jsstring) :
  startsWith (trim t) fenceOpen = false -> stripFence t = trim t.
Proof. intros H. unfold stripFence. now rewrite H. Qed.

(** ** JSON texts start with no fence *)

Lemma parseValue_start (fuel : nat) (s : jsstring) (x : json * jsstring) :
  Json.parseValue fuel s = Some x ->
  exists c r, Json.skipWs s = c :: r /\ Json.isValueStart c = true.
Proof.
  destruct fuel as [|fuel]; [discriminate|].
  cbn [Json.parseValue]. destruct (Json.skipWs s) as [|c r]; [discriminate|].
  intros H. exists c, r. split; [reflexivity|].
  unfold Json.isValueStart. cbn [existsb].
  repeat match type of H with
         | (if ?b then _ else _) = Some _ =>
             let E := fresh "E" in
             destruct b eqn:E;
             [ rewrite ?orb_true_iff in E; rewrite ?E; rewrite ?orb_true_r;
               try reflexivity | ]
         end; try discriminate.
  destruct E5 as [-> | ->]; now rewrite ?orb_true_r.
Qed.

Lemma isJsonWs_isWhiteSpace (c : N) :
  Json.isJsonWs c = true -> isWhiteSpace c = true.
Proof.
  unfold Json.isJsonWs. cbn [existsb]. rewrite !orb_true_iff, !N.eqb_eq.
  intros [-> | [-> | [-> | [-> | H]]]]; try reflexivity. discriminate.
Qed.

Lemma isValueStart_spec (c : N) :
  Json.isValueStart c = true -> isWhiteSpace c = false /\ c <> 96%N.
Proof.
  unfold Json.isValueStart, Json.isDigit. cbn [existsb].
  rewrite !orb_true_iff, andb_true_iff, !N.eqb_eq, !N.leb_le.
  intros H. split.
  - unfold isWhiteSpace. cbn [existsb].
    repeat match goal with
           | |- context [N.eqb c ?k] => destruct (N.eqb_spec c k); [lia|]
           end.
    simpl. apply andb_false_iff.
    destruct (N.leb_spec 8192 c); [right; apply N.leb_gt; lia | now left].
  - lia.
Qed.

Lemma skipWs_trimStart (s : jsstring) (c : N) (r : jsstring) :
  Json.skipWs s = c :: r -> isWhiteSpace c = false -> trimStart s = c :: r.
Proof.
  intros Hs Hc. induction s as [|a s IH]; [discriminate|].
  simpl in *. destruct (Json.isJsonWs a) eqn:Ha.
  - rewrite (isJsonWs_isWhiteSpace _ Ha). now apply IH.
  - injection Hs as -> ->. now rewrite Hc.
Qed.

(** A text that [JSON.parse] accepts does not start, once trimmed, with the
    opening fence. *)
Lemma parse_no_fence (t : jsstring) (v : json) :
  Json.parse t = Some v -> startsWith (trim t) fenceOpen = false.
Proof.
  unfold Json.parse. intros H.
  destruct (Json.parseValue (S (List.length t)) t) as [x|] eqn:E; [|discriminate].
  destruct (parseValue_start _ _ _ E) as (c & r & Hs & Hc).
  destruct (isValueStart_spec _ Hc) as [Hws Hne].
  unfold trim. rewrite (skipWs_trimStart _ _ _ Hs Hws).
  destruct (trimEnd_head _ r Hws) as [r' ->].
  simpl. apply N.eqb_neq in Hne. now rewrite Hne.
Qed.



Example fenced_array :
  parseFenced (fenceOpen ++ str " [1, 2] " ++ fenceClose)
  = Some (JArray [JNumber (str "1"); JNumber (str "2")]).
Proof. vm_compute. reflexivity. Qed.

Lemma trimEnd_idem (s : jsstring) : trimEnd (trimEnd s) = trimEnd s.
Proof.
  induction s as [|a s IH]; simpl; [reflexivity|].
  destruct (trimEnd s) as [|c r'] eqn:E.
  - destruct (isWhiteSpace a) eqn:Ha; simpl; [reflexivity | now rewrite Ha].
  - cbn [trimEnd] in *. now rewrite IH.
Qed.

Lemma trimStart_trim (s : jsstring) : trimStart (trim s) = trim s.
Proof.
  unfold trim. induction s as [|a s IH]; simpl; [reflexivity|].
  destruct (isWhiteSpace a) eqn:Ha; [exact IH|].
  destruct (trimEnd_head a s Ha) as [r' ->]. simpl. now rewrite Ha.
Qed.

Lemma trim_idem (s : jsstring) : trim (trim s) = trim s.
Proof.
  unfold trim at 1. rewrite trimStart_trim. unfold trim. apply trimEnd_idem.
Qed.

(** When the text, trimmed as the normalizer trims it, parses to [v], both
    sides yield [v]. *)
Corollary fenced_json_value (t : jsstring) (v : json) :
  Json.parse (trim t) = Some v ->
  parseFenced (fenceOpen ++ t ++ fenceClose) = Some v
  /\ parseFenced t = Some v.
Proof.
  intros H. unfold parseFenced.
  pose proof (parse_no_fence _ _ H) as Hno. rewrite trim_idem in Hno.
  now rewrite stripFence_fenced, (stripFence_plain _ Hno).
Qed.

(** ** The fence, on lines of its own *)

Lemma trimStart_ws (pre s : jsstring) :
  forallb isWhiteSpace pre = true -> trimStart (pre ++ s) = trimStart s.
Proof.
  induction pre as [|a pre IH]; simpl; [reflexivity|].
  rewrite andb_true_iff. intros [-> H]. now apply IH.
Qed.

Lemma trimEnd_ws (s post : jsstring) :
  forallb isWhiteSpace post = true -> trimEnd (s ++ post) = trimEnd s.
Proof.
  intros H. induction s as [|a s IH]; simpl.
  - induction post as [|c post IHp]; simpl; [reflexivity|].
    simpl in H. apply andb_true_iff in H. destruct H as [Hc Hp].
    now rewrite (IHp Hp), Hc.
  - now rewrite IH.
Qed.

Lemma trim_padded (pre t post : jsstring) :
  forallb isWhiteSpace pre = true ->
  forallb isWhiteSpace post = true ->
  trim (pre ++ t ++ post) = trim t.
Proof.
  intros Hpre Hpost. unfold trim. rewrite (trimStart_ws _ _ Hpre).
  induction t as [|a t IH]; simpl.
  - rewrite <- (app_nil_r post), (trimStart_ws _ _ Hpost). reflexivity.
  - destruct (isWhiteSpace a); [exact IH|].
    change (a :: t ++ post) with ((a :: t) ++ post).
    now rewrite (trimEnd_ws _ _ Hpost).
Qed.

(** The same with white space, line breaks for one, between the fence and the
    text. *)
Corollary fenced_json_with_padding (pre t post : jsstring) (v : json) :
  forallb isWhiteSpace pre = true ->
  forallb isWhiteSpace post = true ->
  Json.parse t = Some v ->
  parseFenced (fenceOpen ++ pre ++ t ++ post ++ fenceClose) = parseFenced t.
Proof.
  intros Hpre Hpost H. unfold parseFenced.
  replace (fenceOpen ++ pre ++ t ++ post ++ fenceClose)
    with (fenceOpen ++ (pre ++ t ++ post) ++ fenceClose)
    by now rewrite <- !app_assoc.
  rewrite stripFence_fenced, (trim_padded _ _ _ Hpre Hpost).
  now rewrite (stripFence_plain _ (parse_no_fence _ _ H)).
Qed.

(** A text that starts with a fence of its own is no JSON text, and there the
    two sides differ. *)
Example fenced_fence_differs :
  parseFenced (fenceOpen ++ (fenceOpen ++ str "1" ++ fenceClose) ++ fenceClose) = None
  /\ parseFenced (fenceOpen ++ str "1" ++ fenceClose) = Some (JNumber (str "1")).
Proof. split; vm_compute; reflexivity. Qed.

(** ** Grounding metadata *)

Lemma pushChunk_spec (md : GroundingMetadata) (c : GroundingChunk) :
  pushChunk md c =
  {| web := web md ++ websOf c; maps := maps md ++ placesOf c |}.
Proof.
  unfold pushChunk, websOf, placesOf.
  destruct md as [ws ms], (chunk_web c), (chunk_maps c); simpl;
    now rewrite ?app_nil_r.
Qed.

Lemma fold_pushChunk (cs : list GroundingChunk) (md : GroundingMetadata) :
  fold_left pushChunk cs md =
  {| web := web md ++ flat_map websOf cs;
     maps := maps md ++ flat_map placesOf cs |}.
Proof.
  revert md. induction cs as [|c cs IH]; intros md; simpl.
  - destruct md. now rewrite !app_nil_r.
  - rewrite IH, pushChunk_spec. simpl. now rewrite <- !app_assoc.
Qed.

(** The loop of [parseGroundingChunks] is a partition of the chunks that
    keeps their order. *)
Lemma parseGroundingChunks_spec (c : GroundingChunk) (cs : list GroundingChunk) :
  parseGroundingChunks (Some (c :: cs)) =
  Some {| web := flat_map websOf (c :: cs);
          maps := flat_map placesOf (c :: cs) |}.
Proof.
  unfold parseGroundingChunks. now rewrite fold_pushChunk.
Qed.

Lemma flat_map_webChunk (ws : list WebChunk) :
  flat_map websOf (map webChunk ws) = map webSource ws
  /\ flat_map placesOf (map webChunk ws) = [].
Proof.
  induction ws as [|w ws [IH1 IH2]]; simpl; [now split|].
  now rewrite IH1, IH2.
Qed.

(** C8, as amended. For every non-empty list of web chunks,
    [parseGroundingChunks] returns the metadata whose maps sequence is empty
    and whose web sequence holds the sources of the chunks in the order of the
    list. *)
Theorem parseGroundingChunks_web_only (ws : list WebChunk) :
  ws <> [] ->
  parseGroundingChunks (Some (map webChunk ws)) =
  Some {| web := map webSource ws; maps := [] |}.
Proof.
  intros Hne. destruct ws as [|w ws]; [congruence|].
  change (map webChunk (w :: ws)) with (webChunk w :: map webChunk ws).
  rewrite parseGroundingChunks_spec.
  change (webChunk w :: map webChunk ws) with (map webChunk (w :: ws)).
  destruct (flat_map_webChunk (w :: ws)) as [-> ->]. reflexivity.
Qed.

Lemma parseGroundingChunks_web_only_witness :
  let ws := [ {| chunk_title := Some (str "A"); chunk_uri := Some (str "https://a") |};
              {| chunk_title := None; chunk_uri := None |} ] in
  ws <> [] /\
  parseGroundingChunks (Some (map webChunk ws)) =
  Some {| web := [ {| title := str "A"; uri := str "https://a" |};
                   {| title := str "Untitled"; uri := [] |} ];
          maps := [] |}.
Proof.
  intros ws. split.
  - discriminate.
  - apply (parseGroundingChunks_web_only ws). discriminate.
Defined.

(** C8, as stated, fails on the empty list: every chunk of it is a web chunk,
    and there is no result at all. *)
Lemma parseGroundingChunks_empty_list_no_result :
  Forall (fun c => exists w, c = webChunk w) []
  /\ ~ (exists md, parseGroundingChunks (Some []) = Some md
                   /\ maps md = [] /\ web md = map webSource []).
Proof.
  split; [constructor|]. intros [md [H _]]. discriminate.
Qed.

(** C2, as amended. Every chunk of the list is in the result: its web part
    with the title "Untitled" when it has none, its maps part with the title
    "Untitled" as well when it has none, both with the empty string for a
    missing URI; a title or a URI that is there is kept. *)
Theorem parseGroundingChunks_defaults (cs : list GroundingChunk) (c : GroundingChunk) :
  In c cs ->
  exists md,
    parseGroundingChunks (Some cs) = Some md
    /\ (forall w, chunk_web c = Some w ->
          In {| title := match chunk_title w with
                         | Some t => t
                         | None => str "Untitled"
                         end;
                uri := match chunk_uri w with
                       | Some u => u
                       | None => []
                       end |} (web md))
    /\ (forall m, chunk_maps c = Some m ->
          In {| map_title := match mchunk_title m with
                             | Some t => t
                             | None => str "Untitled"
                             end;
                map_uri := match mchunk_uri m with
                           | Some u => u
                           | None => []
                           end;
                placeId := mchunk_placeId m |} (maps md)).
Proof.
  intros Hin. destruct cs as [|c0 cs]; [contradiction|].
  rewrite parseGroundingChunks_spec. eexists. split; [reflexivity|].
  cbn [web maps]. split.
  - intros w Hw. apply in_flat_map. exists c. split; [exact Hin|].
    unfold websOf. rewrite Hw. now left.
  - intros m Hm. apply in_flat_map. exists c. split; [exact Hin|].
    unfold placesOf. rewrite Hm. now left.
Qed.

Lemma parseGroundingChunks_defaults_witness :
  let c := mapsChunk {| mchunk_title := None; mchunk_uri := None;
                        mchunk_placeId := Some (str "p1") |} in
  In c [c] /\
  exists md,
    parseGroundingChunks (Some [c]) = Some md
    /\ In {| map_title := str "Untitled"; map_uri := [];
             placeId := Some (str "p1") |} (maps md).
Proof.
  intros c. split; [now left|].
  destruct (parseGroundingChunks_defaults [c] c (or_introl eq_refl))
    as (md & Hmd & _ & Hmaps).
  exists md. split; [exact Hmd|]. exact (Hmaps _ eq_refl).
Defined.

(** C2, as stated, fails: a maps chunk without a title gets "Untitled", not
    "Untitled Place". *)
Lemma maps_chunk_default_title_is_Untitled :
  let c := mapsChunk {| mchunk_title := None; mchunk_uri := Some (str "https://maps/x");
                        mchunk_placeId := None |} in
  parseGroundingChunks (Some [c]) =
    Some {| web := [];
            maps := [ {| map_title := str "Untitled";
                         map_uri := str "https://maps/x";
                         placeId := None |} ] |}
  /\ ~ (exists md, parseGroundingChunks (Some [c]) = Some md
        /\ exists s, In s (maps md) /\ map_title s = str "Untitled Place").
Proof.
  intros c. split; [reflexivity|].
  intros (md & Hmd & s & Hs & Ht).
  injection Hmd as <-. simpl in Hs. destruct Hs as [<- | []].
  vm_compute in Ht. discriminate.
Qed.

(** ** Video generation *)

Section Polling.

Variable b : VideoBackend.

(** With enough fuel the loop ends, on the report that is done, after one
    timer and one status request per handle that was not. *)
Lemma poll_pollsUntil (pending : list Operation) :
  forall (fuel i : nat) (op final : Operation),
    pollsUntil b i op pending final ->
    List.length pending <= fuel ->
    poll fuel b i op = (pollTrace pending, Some (Ok final)).
Proof.
  induction pending as [|o rest IH]; intros fuel i op final H Hfuel.
  - destruct H as [-> Hdone]. destruct fuel; simpl; now rewrite Hdone.
  - destruct H as (-> & Hnot & next & Hnext & Hrest).
    destruct fuel as [|fuel]; [simpl in Hfuel; lia|].
    simpl in Hfuel. cbn [poll]. rewrite Hnot, Hnext.
    rewrite (IH fuel (S i) next final Hrest) by lia. reflexivity.
Qed.

(** Without enough fuel the loop has not ended. *)
Lemma poll_still_running (pending : list Operation) :
  forall (fuel i : nat) (op final : Operation),
    pollsUntil b i op pending final ->
    fuel < List.length pending ->
    poll fuel b i op = (pollTrace (firstn fuel pending), None).
Proof.
  induction pending as [|o rest IH]; intros fuel i op final H Hfuel.
  - simpl in Hfuel. lia.
  - destruct H as (-> & Hnot & next & Hnext & Hrest).
    destruct fuel as [|fuel]; cbn [poll]; rewrite Hnot; [reflexivity|].
    rewrite Hnext. simpl in Hfuel.
    now rewrite (IH fuel (S i) next final Hrest) by lia.
Qed.

(** The status replies counted from [i]: [n] of them not done, the next one
    done, after a handle that is not done either. *)
Lemma pollsUntil_of_replies (n : nat) :
  forall (i : nat) (op final : Operation),
    isDone op = false ->
    (forall k, k < n ->
       exists o, getVideosOperation b (i + k) = Ok o /\ isDone o = false) ->
    getVideosOperation b (i + n) = Ok final ->
    isDone final = true ->
    exists pending,
      List.length pending = S n /\ pollsUntil b i op pending final.
Proof.
  induction n as [|n IH]; intros i op final Hop Hk Hn Hfinal.
  - exists [op]. split; [reflexivity|]. simpl.
    rewrite Nat.add_0_r in Hn. repeat split; try assumption.
    now exists final.
  - destruct (Hk 0 ltac:(lia)) as (o & Ho & Hodone).
    rewrite Nat.add_0_r in Ho.
    destruct (IH (S i) o final Hodone) as (pending & Hlen & Hp).
    + intros k Hlt. destruct (Hk (S k) ltac:(lia)) as (o' & Ho' & Hd').
      exists o'. split; [|exact Hd']. now replace (S i + k) with (i + S k) by lia.
    + now replace (S i + n) with (i + S n) by lia.
    + exact Hfinal.
    + exists (op :: pending). split; [simpl; now rewrite Hlen|].
      simpl. repeat split; try assumption. now exists o.
Qed.

Lemma statusChecks_pollTrace (handles : list Operation) :
  statusChecks (pollTrace handles) = List.length handles.
Proof.
  unfold statusChecks, pollTrace.
  induction handles as [|o rest IH]; simpl; [reflexivity | now rewrite IH].
Qed.

Lemma statusChecks_app (tr tr' : list event) :
  statusChecks (tr ++ tr') = statusChecks tr + statusChecks tr'.
Proof. unfold statusChecks. now rewrite filter_app, length_app. Qed.

Lemma eachCheckAfterWait_pollTrace (handles : list Operation) (tr : list event) :
  eachCheckAfterWait tr -> eachCheckAfterWait (pollTrace handles ++ tr).
Proof.
  intros H. induction handles as [|o rest IH]; simpl; [exact H | now split].
Qed.

Lemma download_trace (h : Host) (op : Operation) :
  statusChecks (fst (download h b op)) = 0
  /\ eachCheckAfterWait (fst (download h b op))
  /\ forall req, ~ In (EGenerateVideos req) (fst (download h b op)).
Proof.
  unfold download.
  destruct (truthy (downloadLink op)); [|simpl; intuition].
  destruct (getApiKey h); [|simpl; intuition].
  destruct (fetch b _) as [resp|]; [|simpl; intuition discriminate].
  destruct (ok resp); [|simpl; intuition discriminate].
  destruct (blob resp); simpl; intuition discriminate.
Qed.

Lemma pollTrace_no_submit (handles : list Operation) (req : VideoRequest) :
  ~ In (EGenerateVideos req) (pollTrace handles).
Proof.
  unfold pollTrace. rewrite in_flat_map. intros (o & _ & [H | [H | []]]);
    discriminate.
Qed.

(** The trace of the loop holds timers and status requests only, whatever
    the replies. *)
Lemma poll_no_submit (fuel : nat) :
  forall (i : nat) (op : Operation) (req : VideoRequest),
    ~ In (EGenerateVideos req) (fst (poll fuel b i op)).
Proof.
  induction fuel as [|fuel IH]; intros i op req; cbn [poll].
  - destruct (isDone op); intros [].
  - destruct (isDone op); [intros []|].
    destruct (getVideosOperation b i) as [next|e].
    + specialize (IH (S i) next req).
      destruct (poll fuel b (S i) next) as [tr0 r0]. simpl in *.
      intros [Hin | [Hin | Hin]]; try discriminate. now apply IH.
    + intros [Hin | [Hin | []]]; discriminate.
Qed.

End Polling.

(** The call as a whole, once the loop is known to end. *)
Lemma generateVideo_run (h : Host) (b : VideoBackend)
    (base64Image mimeType prompt key : jsstring) (ar : AspectRatio)
    (op0 final : Operation) (pending : list Operation) :
  getApiKey h = Ok key ->
  generateVideos b (videoRequest base64Image mimeType prompt ar) = Ok op0 ->
  pollsUntil b 0 op0 pending final ->
  (forall fuel, List.length pending <= fuel ->
     generateVideo fuel h b base64Image mimeType prompt ar =
     (EGenerateVideos (videoRequest base64Image mimeType prompt ar)
        :: pollTrace pending ++ fst (download h b final),
      Some (snd (download h b final))))
  /\ (forall fuel, fuel < List.length pending ->
        generateVideo fuel h b base64Image mimeType prompt ar =
        (EGenerateVideos (videoRequest base64Image mimeType prompt ar)
           :: pollTrace (firstn fuel pending),
         None)).
Proof.
  intros Hkey Hsubmit Hpoll. split; intros fuel Hfuel; unfold generateVideo;
    rewrite Hkey, Hsubmit.
  - rewrite (poll_pollsUntil b pending fuel 0 op0 final Hpoll Hfuel).
    now destruct (download h b final).
  - now rewrite (poll_still_running b pending fuel 0 op0 final Hpoll Hfuel).
Qed.




(** The same count, read off the status replies alone.  When the submitted
    operation is not done and the status replies are [done=false] [n] times
    and then [done=true], the poller has asked [n + 1] times. *)
Corollary generateVideo_polls_until_done (h : Host) (b : VideoBackend)
    (base64Image mimeType prompt key : jsstring) (ar : AspectRatio)
    (op0 final : Operation) (n : nat) :
  getApiKey h = Ok key ->
  generateVideos b (videoRequest base64Image mimeType prompt ar) = Ok op0 ->
  isDone op0 = false ->
  (forall k, k < n ->
     exists o, getVideosOperation b k = Ok o /\ isDone o = false) ->
  getVideosOperation b n = Ok final ->
  isDone final = true ->
  exists (handles : list Operation) (tr : list event),
    List.length handles = n + 1
    /\ tr = EGenerateVideos (videoRequest base64Image mimeType prompt ar)
              :: pollTrace handles ++ fst (download h b final)
    /\ statusChecks tr = n + 1
    /\ eachCheckAfterWait tr
    /\ (forall fuel, n < fuel ->
          generateVideo fuel h b base64Image mimeType prompt ar =
          (tr, Some (snd (download h b final))))
    /\ (forall fuel, fuel <= n ->
          snd (generateVideo fuel h b base64Image mimeType prompt ar) = None).
Proof.
  intros Hkey Hsubmit Hop0 Hk Hn Hfinal.
  destruct (pollsUntil_of_replies b n 0 op0 final Hop0 Hk Hn Hfinal)
    as (handles & Hlen & Hpoll).
  destruct (generateVideo_run h b base64Image mimeType prompt key ar
              op0 final handles Hkey Hsubmit Hpoll) as [Hrun Hnot].
  destruct (download_trace b h final) as (Hchecks & Hwait & _).
  exists handles, (EGenerateVideos (videoRequest base64Image mimeType prompt ar)
                     :: pollTrace handles ++ fst (download h b final)).
  repeat split.
  - lia.
  - change (statusChecks (pollTrace handles ++ fst (download h b final)) = n + 1).
    rewrite statusChecks_app, statusChecks_pollTrace, Hchecks. lia.
  - simpl. apply eachCheckAfterWait_pollTrace. exact Hwait.
  - intros fuel Hf. apply Hrun. lia.
  - intros fuel Hf. rewrite Hnot by lia. reflexivity.
Qed.

(** C6. Once the operation is done: without a result URI the call fails with
    [GenerationFailed], and nothing is asked after the loop, neither a fetch
    nor a second submission; with a URI whose fetch is not ok, the call makes
    that one fetch and fails with [DownloadFailed]. *)
Theorem generateVideo_terminal_failures (h : Host) (b : VideoBackend)
    (base64Image mimeType prompt key : jsstring) (ar : AspectRatio)
    (op0 final : Operation) (pending : list Operation) (fuel : nat) :
  getApiKey h = Ok key ->
  generateVideos b (videoRequest base64Image mimeType prompt ar) = Ok op0 ->
  pollsUntil b 0 op0 pending final ->
  List.length pending <= fuel ->
  (truthy (downloadLink final) = false ->
     generateVideo fuel h b base64Image mimeType prompt ar =
     (EGenerateVideos (videoRequest base64Image mimeType prompt ar)
        :: pollTrace pending,
      Some (Throw GenerationFailed)))
  /\ (forall (link : jsstring) (videoResponse : FetchResponse),
        downloadLink final = Some link ->
        link <> [] ->
        fetch b (link ++ str "&key=" ++ key) = Ok videoResponse ->
        ok videoResponse = false ->
        generateVideo fuel h b base64Image mimeType prompt ar =
        (EGenerateVideos (videoRequest base64Image mimeType prompt ar)
           :: pollTrace pending ++ [EFetch (link ++ str "&key=" ++ key)],
         Some (Throw DownloadFailed))).
Proof.
  intros Hkey Hsubmit Hpoll Hfuel.
  destruct (generateVideo_run h b base64Image mimeType prompt key ar
              op0 final pending Hkey Hsubmit Hpoll) as [Hrun _].
  split.
  - intros Hno. rewrite (Hrun fuel Hfuel). unfold download. rewrite Hno.
    simpl. now rewrite app_nil_r.
  - intros link videoResponse Hlink Hne Hfetch Hok.
    rewrite (Hrun fuel Hfuel). unfold download. rewrite Hlink.
    destruct link as [|c link]; [congruence|].
    cbn [truthy nullish]. rewrite Hkey, Hfetch, Hok. reflexivity.
Qed.

(** C9. Every request that the call submits, whether the call has returned
    or is still polling, carries 16:9 for the caller's 1:1 and the caller's
    value otherwise; with an API key the submission of that request is the
    first thing the call does. *)
Theorem generateVideo_aspect_ratio (fuel : nat) (h : Host) (b : VideoBackend)
    (base64Image mimeType prompt : jsstring) (ar : AspectRatio) :
  (forall req,
     In (EGenerateVideos req)
        (fst (generateVideo fuel h b base64Image mimeType prompt ar)) ->
     aspectRatio (config req) =
     match ar with
     | R1_1 => R16_9
     | R16_9 => R16_9
     | R9_16 => R9_16
     end)
  /\ (forall key, getApiKey h = Ok key ->
        exists req,
          hd_error (fst (generateVideo fuel h b base64Image mimeType prompt ar))
          = Some (EGenerateVideos req)).
Proof.
  unfold generateVideo.
  assert (Hreq : aspectRatio (config (videoRequest base64Image mimeType prompt ar))
                 = match ar with R1_1 => R16_9 | R16_9 => R16_9 | R9_16 => R9_16 end)
    by now destruct ar.
  destruct (getApiKey h) as [key0|e].
  - destruct (generateVideos b _) as [op0|e].
    + pose proof (poll_no_submit b fuel 0 op0) as Hpoll.
      destruct (poll fuel b 0 op0) as [tr0 [[op|e]|]]; simpl in Hpoll.
      * pose proof (download_trace b h op) as (_ & _ & Hno).
        destruct (download h b op) as [tr1 r1]. simpl in Hno.
        split; [|intros; eexists; reflexivity].
        intros req [Hin | Hin]; [now injection Hin as <-|].
        apply in_app_or in Hin. destruct Hin as [Hin | Hin].
        -- now apply Hpoll in Hin.
        -- now apply Hno in Hin.
      * split; [|intros; eexists; reflexivity].
        intros req [Hin | Hin]; [now injection Hin as <-|].
        now apply Hpoll in Hin.
      * split; [|intros; eexists; reflexivity].
        intros req [Hin | Hin]; [now injection Hin as <-|].
        now apply Hpoll in Hin.
    + split; [|intros; eexists; reflexivity].
      intros req [Hin | []]. now injection Hin as <-.
  - split; [intros req []|]. intros key Hkey. discriminate.
Qed.

Example generateVideo_two_false_replies :
  generateVideo 3 scriptedHost
    (scriptedBackend 2 (Some (str "https://v/1?alt=media")) true)
    (str "aW1n") (str "image/png") (str "zoom out") R9_16
  = ([ EGenerateVideos
         (videoRequest (str "aW1n") (str "image/png") (str "zoom out") R9_16);
       ESetTimeout 10000; EGetVideosOperation pendingOperation;
       ESetTimeout 10000; EGetVideosOperation pendingOperation;
       ESetTimeout 10000; EGetVideosOperation pendingOperation;
       EFetch (str "https://v/1?alt=media&key=secret");
       EBlob;
       ECreateObjectURL [82; 73; 70; 70]%N ],
     Some (Ok (str "blob:https://app/0001"))).
Proof. vm_compute. reflexivity. Qed.

Lemma generateVideo_polls_until_done_witness :
  exists (handles : list Operation) (tr : list event),
    List.length handles = 2 + 1
    /\ tr = EGenerateVideos
              (videoRequest (str "aW1n") (str "image/png") (str "zoom out") R9_16)
              :: pollTrace handles
                 ++ fst (download scriptedHost
                           (scriptedBackend 2 (Some (str "https://v/1?alt=media")) true)
                           (doneOperation (Some (str "https://v/1?alt=media"))))
    /\ statusChecks tr = 2 + 1
    /\ eachCheckAfterWait tr
    /\ (forall fuel, 2 < fuel ->
          generateVideo fuel scriptedHost
            (scriptedBackend 2 (Some (str "https://v/1?alt=media")) true)
            (str "aW1n") (str "image/png") (str "zoom out") R9_16 =
          (tr, Some (snd (download scriptedHost
                            (scriptedBackend 2 (Some (str "https://v/1?alt=media")) true)
                            (doneOperation (Some (str "https://v/1?alt=media")))))))
    /\ (forall fuel, fuel <= 2 ->
          snd (generateVideo fuel scriptedHost
                 (scriptedBackend 2 (Some (str "https://v/1?alt=media")) true)
                 (str "aW1n") (str "image/png") (str "zoom out") R9_16) = None).
Proof.
  apply (generateVideo_polls_until_done scriptedHost
           (scriptedBackend 2 (Some (str "https://v/1?alt=media")) true)
           (str "aW1n") (str "image/png") (str "zoom out") (str "secret") R9_16
           pendingOperation (doneOperation (Some (str "https://v/1?alt=media"))) 2).
  - reflexivity.
  - reflexivity.
  - reflexivity.
  - intros k Hk. exists pendingOperation.
    destruct k as [|[|k]]; [split; reflexivity | split; reflexivity | lia].
  - reflexivity.
  - reflexivity.
Defined.

(** The scenario of the specification: [done=false] seen twice, then
    [done=true] with a URI, then a fetch that is not ok. *)
Lemma generateVideo_terminal_failures_witness :
  generateVideo 2 scriptedHost
    (scriptedBackend 1 (Some (str "https://v/1?alt=media")) false)
    (str "aW1n") (str "image/png") (str "zoom out") R16_9
  = ([ EGenerateVideos
         (videoRequest (str "aW1n") (str "image/png") (str "zoom out") R16_9);
       ESetTimeout 10000; EGetVideosOperation pendingOperation;
       ESetTimeout 10000; EGetVideosOperation pendingOperation;
       EFetch (str "https://v/1?alt=media&key=secret") ],
     Some (Throw DownloadFailed)).
Proof.
  refine (proj2 (generateVideo_terminal_failures scriptedHost
           (scriptedBackend 1 (Some (str "https://v/1?alt=media")) false)
           (str "aW1n") (str "image/png") (str "zoom out") (str "secret") R16_9
           pendingOperation (doneOperation (Some (str "https://v/1?alt=media")))
           [pendingOperation; pendingOperation] 2 _ _ _ _)
           (str "https://v/1?alt=media")
           {| ok := false; blob := Ok [82; 73; 70; 70]%N |} _ _ _ _).
  - reflexivity.
  - reflexivity.
  - simpl. repeat split.
    exists pendingOperation. repeat split.
    exists (doneOperation (Some (str "https://v/1?alt=media"))). repeat split.
  - simpl. lia.
  - reflexivity.
  - discriminate.
  - reflexivity.
  - reflexivity.
Defined.

Example generateVideo_no_uri :
  generateVideo 2 scriptedHost (scriptedBackend 1 None true)
    (str "aW1n") (str "image/png") (str "zoom out") R16_9
  = ([ EGenerateVideos
         (videoRequest (str "aW1n") (str "image/png") (str "zoom out") R16_9);
       ESetTimeout 10000; EGetVideosOperation pendingOperation;
       ESetTimeout 10000; EGetVideosOperation pendingOperation ],
     Some (Throw GenerationFailed)).
Proof. vm_compute. reflexivity. Qed.

Lemma generateVideo_aspect_ratio_witness :
  aspectRatio
    (config (videoRequest (str "aW1n") (str "image/png") (str "zoom out") R1_1))
  = R16_9.
Proof.
  exact (proj1 (generateVideo_aspect_ratio 0 scriptedHost
                  (immediateBackend (Some (str "https://v/1?alt=media")))
                  (str "aW1n") (str "image/png") (str "zoom out") R1_1)
           _ (or_introl eq_refl)).
Defined.

(** While the loop is running the request has been submitted all the same. *)
Example generateVideo_still_polling :
  generateVideo 1 scriptedHost
    (scriptedBackend 5 (Some (str "https://v/1?alt=media")) true)
    (str "aW1n") (str "image/png") (str "zoom out") R1_1
  = ([ EGenerateVideos
         (videoRequest (str "aW1n") (str "image/png") (str "zoom out") R16_9);
       ESetTimeout 10000; EGetVideosOperation pendingOperation ],
     None).
Proof. vm_compute. reflexivity. Qed.

(** ** The submit handlers *)




(** C7. In the video generator, a failure whose message contains
    "Requested entity was not found" is shown as an invalid API key and
    withdraws the key selection, so that the component renders the key
    prompt; any other failure is shown with its own message and leaves the
    key selection as it was. *)
Theorem video_error_classifier (st : VideoGenerator.State)
    (file : VideoGenerator.File) (err : thrown) :
  VideoGenerator.imageFile st = Some file ->
  blank (VideoGenerator.prompt st) = false ->
  let errorMessage := messageOf err (str "An unknown error occurred.") in
  let st' := VideoGenerator.handleSubmit (Rejected err) st in
  ((exists a b, errorMessage = a ++ str "Requested entity was not found" ++ b) ->
     VideoGenerator.apiKeySelected st' = false
     /\ VideoGenerator.error st'
        = Some (str "Your API key is invalid. Please select a valid key.")
     /\ (VideoGenerator.checkingApiKey st = false ->
         VideoGenerator.render st' = VideoGenerator.ApiKeyRequired))
  /\ (~ (exists a b, errorMessage = a ++ str "Requested entity was not found" ++ b) ->
        VideoGenerator.apiKeySelected st' = VideoGenerator.apiKeySelected st
        /\ VideoGenerator.error st' = Some errorMessage).
Proof.
  intros Hfile Hprompt errorMessage st'.
  assert (Hst' : st' = VideoGenerator.setLoading false
                         (VideoGenerator.onCatch err
                            (VideoGenerator.setLoadingMessage
                               (nth 0 VideoGenerator.loadingMessages [])
                               (VideoGenerator.setGeneratedVideoUrl None
                                  (VideoGenerator.setError None
                                     (VideoGenerator.setLoading true st)))))).
  { unfold st', VideoGenerator.handleSubmit. now rewrite Hfile, Hprompt. }
  unfold VideoGenerator.onCatch in Hst'. fold errorMessage in Hst'.
  change (str "Requested entity was not found") with VideoGenerator.notFound.
  split; intros H.
  - apply includes_substring in H. rewrite H in Hst'. rewrite Hst'.
    repeat split. intros Hc. unfold VideoGenerator.render. simpl. now rewrite Hc.
  - destruct (includes errorMessage VideoGenerator.notFound) eqn:E.
    + exfalso. apply H. now apply includes_substring.
    + rewrite Hst'. now split.
Qed.

Lemma video_error_classifier_witness :
  VideoGenerator.render
    (VideoGenerator.handleSubmit
       (Rejected (ErrorInstance (str "404: Requested entity was not found.")))
       readyVideo)
  = VideoGenerator.ApiKeyRequired.
Proof.
  refine (proj2 (proj2 (proj1 (video_error_classifier readyVideo
            {| VideoGenerator.type := str "image/png" |}
            (ErrorInstance (str "404: Requested entity was not found."))
            eq_refl eq_refl) _)) eq_refl).
  exists (str "404: "), (str "."). reflexivity.
Defined.

Example video_other_error :
  VideoGenerator.error
    (VideoGenerator.handleSubmit
       (Rejected (ErrorInstance (str "Failed to fetch generated video.")))
       readyVideo)
  = Some (str "Failed to fetch generated video.")
  /\ VideoGenerator.render
       (VideoGenerator.handleSubmit
          (Rejected (ErrorInstance (str "Failed to fetch generated video.")))
          readyVideo)
     = VideoGenerator.GeneratorForm.
Proof. split; reflexivity. Qed.

(** ** The task list *)

Lemma jsstring_eqb_eq (a b : jsstring) : jsstring_eqb a b = true <-> a = b.
Proof.
  unfold jsstring_eqb. destruct (list_eq_dec N.eq_dec a b); split;
    congruence.
Qed.

Module AppFacts.
Import App.

Lemma sameIdea_spec (idea : PostIdea) (t : Task) :
  sameIdea idea t = true <->
  prompt (postIdea t) = prompt idea /\ platform (postIdea t) = platform idea.
Proof.
  unfold sameIdea. now rewrite andb_true_iff, !jsstring_eqb_eq.
Qed.

Lemma isAlreadyAdded_spec (idea : PostIdea) (tasks : list Task) :
  existsb (sameIdea idea) tasks = true <->
  exists t, In t tasks /\ prompt (postIdea t) = prompt idea
            /\ platform (postIdea t) = platform idea.
Proof.
  rewrite existsb_exists. split; intros (t & Hin & H); exists t;
    (split; [exact Hin | now apply sameIdea_spec]).
Qed.

Lemma toggleTask_keys (taskId : jsstring) (tasks : list Task) :
  map ideaKey (toggleTask taskId tasks) = map ideaKey tasks.
Proof.
  unfold toggleTask. rewrite map_map. apply map_ext. intros t.
  now destruct (jsstring_eqb (id t) taskId).
Qed.

Lemma addTask_keys (now random : jsstring) (idea : PostIdea) (tasks : list Task) :
  NoDup (map ideaKey tasks) ->
  NoDup (map ideaKey (addTask now random idea tasks)).
Proof.
  intros Hnd. unfold addTask.
  destruct (existsb (sameIdea idea) tasks) eqn:E; [exact Hnd|].
  rewrite map_app. simpl.
  apply NoDup_app; [exact Hnd | repeat constructor; intros [] | ].
  intros k Hk [<- | []]. apply in_map_iff in Hk. destruct Hk as (t & Hkey & Hin).
  assert (existsb (sameIdea idea) tasks = true); [|congruence].
  apply isAlreadyAdded_spec. exists t. split; [exact Hin|].
  unfold ideaKey in Hkey. simpl in Hkey. now injection Hkey.
Qed.

Lemma reachable_keys (tasks : list Task) :
  reachable tasks -> NoDup (map ideaKey tasks).
Proof.
  induction 1 as [| now random idea tasks _ IH | taskId tasks _ IH].
  - constructor.
  - now apply addTask_keys.
  - now rewrite toggleTask_keys.
Qed.

End AppFacts.

(** C10. No two tasks of a reachable list have the same prompt and the same
    platform.  [addTask] returns the list as it is when a task with the
    prompt and the platform of the idea is there, and otherwise the list
    followed by one task, not completed, for the idea.  [toggleTask] keeps the
    length and, position by position, the identifier and the idea; it negates
    [completed] where the identifier is the given one and nowhere else. *)
Theorem task_list_updaters :
  (forall tasks, App.reachable tasks ->
     forall i j ti tj,
       nth_error tasks i = Some ti -> nth_error tasks j = Some tj ->
       App.prompt (App.postIdea ti) = App.prompt (App.postIdea tj) ->
       App.platform (App.postIdea ti) = App.platform (App.postIdea tj) ->
       i = j)
  /\ (forall now random idea tasks,
        (exists t, In t tasks
                   /\ App.prompt (App.postIdea t) = App.prompt idea
                   /\ App.platform (App.postIdea t) = App.platform idea) ->
        App.addTask now random idea tasks = tasks)
  /\ (forall now random idea tasks,
        ~ (exists t, In t tasks
                     /\ App.prompt (App.postIdea t) = App.prompt idea
                     /\ App.platform (App.postIdea t) = App.platform idea) ->
        App.addTask now random idea tasks =
        tasks ++ [ {| App.id := str "task-" ++ now ++ str "-" ++ random;
                      App.postIdea := idea;
                      App.completed := false |} ])
  /\ (forall taskId tasks,
        List.length (App.toggleTask taskId tasks) = List.length tasks
        /\ forall i t,
             nth_error tasks i = Some t ->
             exists t',
               nth_error (App.toggleTask taskId tasks) i = Some t'
               /\ App.id t' = App.id t
               /\ App.postIdea t' = App.postIdea t
               /\ (App.id t = taskId ->
                   App.completed t' = negb (App.completed t))
               /\ (App.id t <> taskId -> t' = t)).
Proof.
  repeat apply conj.
  - intros tasks Hr i j ti tj Hi Hj Hp Hq.
    pose proof (AppFacts.reachable_keys tasks Hr) as Hnd.
    rewrite NoDup_nth_error in Hnd. apply Hnd.
    + rewrite length_map. apply nth_error_Some. congruence.
    + rewrite !nth_error_map, Hi, Hj. simpl. unfold App.ideaKey.
      now rewrite Hp, Hq.
  - intros now random idea tasks H. apply AppFacts.isAlreadyAdded_spec in H.
    unfold App.addTask. now rewrite H.
  - intros now random idea tasks H. unfold App.addTask.
    destruct (existsb (App.sameIdea idea) tasks) eqn:E; [|reflexivity].
    exfalso. apply H. now apply AppFacts.isAlreadyAdded_spec.
  - intros taskId tasks. unfold App.toggleTask. split; [apply length_map|].
    intros i t Hi. rewrite nth_error_map, Hi. simpl.
    destruct (jsstring_eqb (App.id t) taskId) eqn:E.
    + eexists. split; [reflexivity|]. simpl. repeat split.
      intros Hne. apply jsstring_eqb_eq in E. contradiction.
    + exists t. repeat split. intros He. apply jsstring_eqb_eq in He. congruence.
Qed.

Lemma task_list_updaters_witness :
  App.reachable twoTasks
  /\ twoTasks =
     [ {| App.id := str "task-1700000000000-0.25"; App.postIdea := ideaA;
          App.completed := true |};
       {| App.id := str "task-1700000000001-0.5"; App.postIdea := ideaB;
          App.completed := false |} ]
  /\ App.addTask (str "1700000000003") (str "0.125") ideaB twoTasks = twoTasks.
Proof.
  split; [|split].
  - unfold twoTasks. repeat constructor.
  - reflexivity.
  - apply (proj1 (proj2 task_list_updaters)).
    exists {| App.id := str "task-1700000000001-0.5"; App.postIdea := ideaB;
              App.completed := false |}.
    split; [right; left; reflexivity | split; reflexivity].
Defined.

(** ** What the gateway returns *)

Lemma getApiKey_ok (h : Host) :
  (exists key, getApiKey h = Ok key) \/ (exists e, getApiKey h = Throw e).
Proof.
  unfold getApiKey. destruct (API_KEY h) as [[|c k]|]; eauto.
Qed.

Lemma planCall_spec (failure : jsstring) (h : Host)
    (reply : result GenerateContentResponse) (r : PlanResult) :
  planCall failure h reply = Ok r <->
  exists key response t,
    getApiKey h = Ok key /\ reply = Ok response /\ text response = Some t
    /\ parseFenced t = Some (plan r)
    /\ groundingMetadata r = parseGroundingChunks (responseChunks response).
Proof.
  unfold planCall, parsePlanText. split.
  - destruct (getApiKey h) as [key|e]; [|discriminate].
    destruct reply as [response|e]; [|discriminate]. cbn [bind].
    destruct (text response) as [t|] eqn:T; [|discriminate].
    destruct (parseFenced t) as [v|] eqn:E; [|discriminate].
    intros H. injection H as <-. exists key, response, t. now repeat split.
  - intros (key & response & t & -> & -> & Ht & Hp & Hg). cbn [bind].
    rewrite Ht, Hp, <- Hg. now destruct r.
Qed.

Lemma firstInlineData_spec (ps : list Part) (d : option jsstring) :
  firstInlineData ps = Ok d ->
  exists part inl, In part ps /\ inlineData part = Some inl /\ data inl = d.
Proof.
  induction ps as [|part ps IH]; simpl; [discriminate|].
  destruct (inlineData part) as [inl|] eqn:E.
  - intros H. injection H as <-. exists part, inl. auto.
  - intros H. destruct (IH H) as (p & i & Hin & Hp & Hd). exists p, i. auto.
Qed.

Lemma download_ok (h : Host) (b : VideoBackend) (op : Operation) (url : jsstring) :
  snd (download h b op) = Ok url ->
  exists videoBlob,
    url = createObjectURL b videoBlob
    /\ In (ECreateObjectURL videoBlob) (fst (download h b op)).
Proof.
  unfold download.
  destruct (truthy (downloadLink op)); [|discriminate].
  destruct (getApiKey h); [|discriminate].
  destruct (fetch b _) as [resp|]; [|discriminate].
  destruct (ok resp); [|discriminate].
  destruct (blob resp) as [videoBlob|]; [|discriminate].
  simpl. intros H. injection H as <-. exists videoBlob. auto.
Qed.

(** C1, as amended. Every gateway call fails outright or returns a result,
    never a part of one; but what comes from the backend is passed on as it
    is.  The plan calls return exactly the JSON value that the text of the
    reply parses to, any value at all, with the grounding metadata;
    [getPostingRecommendations] returns the [recommendations] member of the
    parsed value, or [undefined]; [getLocalInsights] returns the text and the
    grounding metadata of the reply; [editImage] returns the data of an
    inline part of the reply.  Only [generateImage], a non-empty string, and
    [generateVideo], the object URL of the fetched blob, return something of
    which the gateway has checked that it is there. *)
Theorem gateway_passes_backend_content_on (h : Host) :
  (forall reply r,
     generateMarketingPlan h reply = Ok r <->
     exists key response t,
       getApiKey h = Ok key /\ reply = Ok response /\ text response = Some t
       /\ parseFenced t = Some (plan r)
       /\ groundingMetadata r = parseGroundingChunks (responseChunks response))
  /\ (forall reply r,
        generateMarketAnalysis h reply = Ok r <->
        exists key response t,
          getApiKey h = Ok key /\ reply = Ok response /\ text response = Some t
          /\ parseFenced t = Some (plan r)
          /\ groundingMetadata r = parseGroundingChunks (responseChunks response))
  /\ (forall reply r,
        getPostingRecommendations h reply = Ok r <->
        exists key response t parsedJson,
          getApiKey h = Ok key /\ reply = Ok response /\ text response = Some t
          /\ Json.parse (trim t) = Some parsedJson
          /\ recommendationsOf parsedJson = Some r)
  /\ (forall reply r,
        getLocalInsights h reply = Ok r <->
        exists key response,
          getApiKey h = Ok key /\ reply = Ok response
          /\ insight_text r = text response
          /\ insight_grounding r = parseGroundingChunks (responseChunks response))
  /\ (forall reply d,
        editImage h reply = Ok d ->
        exists response cands candidate c ps part inl,
          reply = Ok response /\ candidates response = Some cands
          /\ first cands = Some candidate /\ content candidate = Some c
          /\ parts c = Some ps /\ In part ps
          /\ inlineData part = Some inl /\ data inl = d)
  /\ (forall reply s, generateImage h reply = Ok s -> s <> [])
  /\ (forall fuel b base64Image mimeType prompt ar tr url,
        generateVideo fuel h b base64Image mimeType prompt ar = (tr, Some (Ok url)) ->
        exists videoBlob,
          url = createObjectURL b videoBlob /\ In (ECreateObjectURL videoBlob) tr).
Proof.
  repeat apply conj.
  - intros reply r. apply planCall_spec.
  - intros reply r. apply planCall_spec.
  - intros reply r. unfold getPostingRecommendations. split.
    + destruct (getApiKey h) as [key|e]; [|discriminate].
      destruct reply as [response|e]; [|discriminate]. cbn [bind].
      destruct (text response) as [t|] eqn:T; [|discriminate].
      destruct (Json.parse (trim t)) as [v|] eqn:E; [|discriminate].
      destruct (recommendationsOf v) as [rec|] eqn:R; [|discriminate].
      intros H. injection H as <-. exists key, response, t, v. now repeat split.
    + intros (key & response & t & v & -> & -> & Ht & Hp & Hr). cbn [bind].
      now rewrite Ht, Hp, Hr.
  - intros reply r. unfold getLocalInsights. split.
    + destruct (getApiKey h) as [key|e]; [|discriminate].
      destruct reply as [response|e]; [|discriminate]. cbn [bind].
      intros H. injection H as <-. exists key, response. now repeat split.
    + intros (key & response & -> & -> & Ht & Hg). cbn [bind].
      rewrite <- Ht, <- Hg. now destruct r.
  - intros reply d. unfold editImage.
    destruct (getApiKey h) as [key|e]; [|discriminate].
    destruct reply as [response|e]; [|discriminate]. cbn [bind].
    destruct (candidates response) as [cands|] eqn:E1; [|discriminate].
    cbn [read bind].
    destruct (first cands) as [candidate|] eqn:E2; [|discriminate].
    cbn [read bind].
    destruct (content candidate) as [c|] eqn:E3; [|discriminate].
    cbn [read bind].
    destruct (parts c) as [ps|] eqn:E4; [|discriminate].
    cbn [read bind]. intros H.
    destruct (firstInlineData_spec ps d H) as (part & inl & Hin & Hp & Hd).
    exists response, cands, candidate, c, ps, part, inl. now repeat split.
  - intros reply s. unfold generateImage.
    destruct (getApiKey h) as [key|e]; [|discriminate].
    destruct reply as [response|e]; [|discriminate]. cbn [bind].
    destruct (generatedImages response) as [images|]; [|discriminate].
    cbn [read bind].
    destruct (first images) as [generated|]; [|discriminate].
    cbn [read bind].
    destruct (image generated) as [img|]; [|discriminate].
    cbn [read bind].
    destruct (imageBytes img) as [[|c bs]|]; try discriminate.
    intros H. injection H as <-. discriminate.
  - intros fuel b base64Image mimeType prompt ar tr url. unfold generateVideo.
    destruct (getApiKey h) as [key|e]; [|discriminate].
    destruct (generateVideos b _) as [op0|e]; [|discriminate].
    destruct (poll fuel b 0 op0) as [tr0 [[op|e]|]]; try discriminate.
    pose proof (download_ok h b op url) as Hd.
    destruct (download h b op) as [tr1 r1]. simpl in Hd.
    intros H. injection H as <- ->.
    destruct (Hd eq_refl) as (videoBlob & Hu & Hin).
    exists videoBlob. split; [exact Hu|].
    right. apply in_or_app. now right.
Qed.

Lemma gateway_passes_backend_content_on_witness :
  generateMarketingPlan scriptedHost
    (Ok {| text := Some (fenceOpen ++ onlyPostIdeas ++ fenceClose);
           candidates := None |})
  = Ok {| plan := JObject [(str "postIdeas", JArray [])];
          groundingMetadata := None |}.
Proof.
  apply (proj1 (gateway_passes_backend_content_on scriptedHost)).
  exists (str "secret"),
    {| text := Some (fenceOpen ++ onlyPostIdeas ++ fenceClose);
       candidates := None |},
    (fenceOpen ++ onlyPostIdeas ++ fenceClose).
  repeat split.
Defined.

(** C1, as stated, fails: the backend answers with a JSON object that has
    one of the three required fields, and the call returns it as the plan;
    it answers with an empty object, and [getPostingRecommendations] returns
    [undefined]. *)
Lemma gateway_returns_partial_plan :
  generateMarketingPlan scriptedHost
    (Ok {| text := Some onlyPostIdeas; candidates := None |})
  = Ok {| plan := JObject [(str "postIdeas", JArray [])];
          groundingMetadata := None |}
  /\ conforms MarketingPlanShape (JObject [(str "postIdeas", JArray [])]) = false
  /\ getPostingRecommendations scriptedHost
       (Ok {| text := Some (str "{}"); candidates := None |})
     = Ok None.
Proof. repeat split. Qed.

Example conforms_full_plan :
  conforms MarketingPlanShape
    (JObject
       [ (str "competitorAnalysis",
          JArray [ JObject [ (str "competitorName", JString (str "Acme"));
                             (str "strengths", JArray [JString (str "reach")]);
                             (str "weaknesses", JArray []) ] ]);
         (str "contentPillars", JArray []);
         (str "postIdeas",
          JArray [ JObject [ (str "platform", JString (str "X"));
                             (str "prompt", JString (str "p"));
                             (str "visualIdea", JString (str "v")) ] ]) ])
  = true.
Proof. reflexivity. Qed.

(** ** Further properties: the gateway, the traces, the components *)

(** * More properties *)

(** ** The gateway without a key, and with a reply that is no JSON *)

Lemma getApiKey_missing (h : Host) :
  truthy (API_KEY h) = false -> getApiKey h = Throw ConfigurationError.
Proof.
  unfold getApiKey, truthy. now destruct (API_KEY h) as [[|c k]|].
Qed.

(** X1. Without an API key, undefined or empty, every call of the gateway
    fails with the configuration error, whatever the backend would have
    answered, and [generateVideo] has asked nothing of anyone. *)
Theorem missing_api_key_fails_every_call (h : Host) :
  truthy (API_KEY h) = false ->
  (forall reply, generateMarketingPlan h reply = Throw ConfigurationError)
  /\ (forall reply, generateMarketAnalysis h reply = Throw ConfigurationError)
  /\ (forall reply, generatePostContent h reply = Throw ConfigurationError)
  /\ (forall reply, getPostingRecommendations h reply = Throw ConfigurationError)
  /\ (forall reply, generateImage h reply = Throw ConfigurationError)
  /\ (forall reply, editImage h reply = Throw ConfigurationError)
  /\ (forall reply, getLocalInsights h reply = Throw ConfigurationError)
  /\ (forall fuel b base64Image mimeType prompt ar,
        generateVideo fuel h b base64Image mimeType prompt ar
        = ([], Some (Throw ConfigurationError))).
Proof.
  intros H. apply getApiKey_missing in H.
  repeat apply conj; intros;
    unfold generateMarketingPlan, generateMarketAnalysis, planCall,
      generatePostContent, getPostingRecommendations, generateImage, editImage,
      getLocalInsights, generateVideo;
    now rewrite H.
Qed.

Lemma missing_api_key_fails_every_call_witness :
  generateVideo 5 {| API_KEY := Some [] |}
    (scriptedBackend 0 (Some (str "https://v/1?alt=media")) true)
    (str "aW1n") (str "image/png") (str "zoom out") R16_9
  = ([], Some (Throw ConfigurationError)).
Proof.
  apply (missing_api_key_fails_every_call {| API_KEY := Some [] |} eq_refl).
Defined.

Lemma planCall_failure (failure : jsstring) (h : Host) (key : jsstring)
    (response : GenerateContentResponse) :
  getApiKey h = Ok key ->
  (forall e, planCall failure h (Ok response) = Throw e -> e = Error failure)
  /\ (planCall failure h (Ok response) = Throw (Error failure) <->
      text response = None
      \/ exists t, text response = Some t /\ parseFenced t = None).
Proof.
  intros Hkey. unfold planCall, parsePlanText. rewrite Hkey. cbn [bind].
  destruct (text response) as [t|].
  - destruct (parseFenced t) as [v|] eqn:P.
    + split; [intros e H; discriminate H|].
      split; [intros H; discriminate H|].
      intros [H | (t' & Ht & H)]; [discriminate H|].
      injection Ht as <-. congruence.
    + split; [intros e H; now injection H as <-|].
      split; [intros _; right; now exists t | reflexivity].
  - split; [intros e H; now injection H as <-|].
    split; [intros _; now left | reflexivity].
Qed.

Lemma getPostingRecommendations_failure (h : Host) (key : jsstring)
    (response : GenerateContentResponse) :
  getApiKey h = Ok key ->
  (forall e, getPostingRecommendations h (Ok response) = Throw e ->
             e = RecommendationsFormatError)
  /\ (getPostingRecommendations h (Ok response) = Throw RecommendationsFormatError <->
      text response = None
      \/ exists t, text response = Some t
                   /\ (Json.parse (trim t) = None
                       \/ Json.parse (trim t) = Some JNull)).
Proof.
  intros Hkey. unfold getPostingRecommendations. rewrite Hkey. cbn [bind].
  destruct (text response) as [t|].
  - destruct (Json.parse (trim t)) as [j|] eqn:J.
    + destruct (recommendationsOf j) as [r|] eqn:R.
      * split; [intros e H; discriminate H|].
        split; [intros H; discriminate H|].
        intros [H | (t' & Ht & [H | H])]; [discriminate H | |];
          injection Ht as <-; [congruence|].
        rewrite J in H. injection H as ->. discriminate R.
      * split; [intros e H; now injection H as <-|].
        split; [|reflexivity]. intros _. right. exists t.
        split; [reflexivity|]. right. now destruct j.
    + split; [intros e H; now injection H as <-|].
      split; [|reflexivity]. intros _. right. exists t. auto.
  - split; [intros e H; now injection H as <-|].
    split; [intros _; now left | reflexivity].
Qed.

(** X2. With a key and a reply, the only failure of a plan call is its format
    error, raised exactly when the reply has no text or when its text, the
    fence stripped, is not JSON; the only failure of
    [getPostingRecommendations] is its format error, raised exactly when the
    reply has no text, when the trimmed text is not JSON, or when it is the
    JSON [null]. *)
Theorem reply_failures_are_format_errors (h : Host) (key : jsstring)
    (response : GenerateContentResponse) :
  getApiKey h = Ok key ->
  (forall e, generateMarketingPlan h (Ok response) = Throw e ->
             e = PlanFormatError)
  /\ (generateMarketingPlan h (Ok response) = Throw PlanFormatError <->
      text response = None
      \/ exists t, text response = Some t /\ parseFenced t = None)
  /\ (forall e, generateMarketAnalysis h (Ok response) = Throw e ->
                e = AnalysisFormatError)
  /\ (generateMarketAnalysis h (Ok response) = Throw AnalysisFormatError <->
      text response = None
      \/ exists t, text response = Some t /\ parseFenced t = None)
  /\ (forall e, getPostingRecommendations h (Ok response) = Throw e ->
                e = RecommendationsFormatError)
  /\ (getPostingRecommendations h (Ok response) = Throw RecommendationsFormatError <->
      text response = None
      \/ exists t, text response = Some t
                   /\ (Json.parse (trim t) = None
                       \/ Json.parse (trim t) = Some JNull)).
Proof.
  intros Hkey.
  destruct (planCall_failure
              (str "Could not generate a valid marketing plan. The response from the AI was not in the expected JSON format.")
              h key response Hkey) as [P1 P2].
  destruct (planCall_failure
              (str "Could not generate a valid analysis. The response from the AI was not in the expected JSON format.")
              h key response Hkey) as [A1 A2].
  destruct (getPostingRecommendations_failure h key response Hkey) as [R1 R2].
  exact (conj P1 (conj P2 (conj A1 (conj A2 (conj R1 R2))))).
Qed.

Lemma reply_failures_are_format_errors_witness :
  getPostingRecommendations scriptedHost
    (Ok {| text := Some (str " null "); candidates := None |})
  = Throw RecommendationsFormatError.
Proof.
  apply (proj2 (proj2 (proj2 (proj2 (proj2
           (reply_failures_are_format_errors scriptedHost (str "secret")
              {| text := Some (str " null "); candidates := None |}
              eq_refl)))))).
  right. exists (str " null "). split; [reflexivity|]. right.
  vm_compute. reflexivity.
Defined.

(** ** Fences that are not closed, fences without the tag *)

Lemma trimEnd_app_blank (p t : jsstring) :
  trimEnd t = [] -> trimEnd (p ++ t) = trimEnd p.
Proof.
  intros Ht. induction p as [|a p IH]; simpl; [exact Ht | now rewrite IH].
Qed.

Lemma trimEnd_prefix (t : jsstring) : exists w, t = trimEnd t ++ w.
Proof.
  induction t as [|a t [w Hw]]; simpl; [now exists []|].
  destruct (trimEnd t) as [|c r'] eqn:E.
  - destruct (isWhiteSpace a).
    + now exists (a :: t).
    + exists t. reflexivity.
  - exists w. simpl. now rewrite Hw at 1.
Qed.

Lemma trimEnd_blank_trimStart (t : jsstring) :
  trimEnd t = [] -> trimStart t = [].
Proof.
  induction t as [|a t IH]; simpl; [reflexivity|].
  destruct (trimEnd t) as [|c r'] eqn:E; [|discriminate].
  destruct (isWhiteSpace a); [intros _; now apply IH | discriminate].
Qed.

Lemma trimStart_trimEnd (t : jsstring) :
  trimStart (trimEnd t) = trimEnd (trimStart t).
Proof.
  induction t as [|a t IH]; [reflexivity|].
  cbn [trimStart]. destruct (isWhiteSpace a) eqn:Ha.
  - cbn [trimEnd]. destruct (trimEnd t) as [|c r'] eqn:E.
    + rewrite Ha. now rewrite (trimEnd_blank_trimStart t E).
    + cbn [trimStart]. now rewrite Ha.
  - destruct (trimEnd_head a t Ha) as [r' ->]. simpl. now rewrite Ha.
Qed.

Lemma trimEnd_after (p t : jsstring) :
  trimEnd p = p -> p <> [] -> trimEnd (p ++ t) = p ++ trimEnd t.
Proof.
  intros Hp Hne. destruct (trimEnd t) as [|c r'] eqn:E.
  - rewrite (trimEnd_app_blank p t E), Hp. now rewrite app_nil_r.
  - rewrite trimEnd_app by (rewrite E; discriminate). now rewrite E.
Qed.

Lemma trim_trimEnd (t : jsstring) : trim (trimEnd t) = trim t.
Proof.
  unfold trim. now rewrite trimStart_trimEnd, trimEnd_idem.
Qed.

(** X3. An opening fence that is never closed is stripped all the same: what
    is parsed is the rest of the text, trimmed. *)
Theorem unclosed_fence_is_stripped (t : jsstring) :
  endsWith (trim t) fenceClose = false ->
  parseFenced (fenceOpen ++ t) = Json.parse (trim t).
Proof.
  intros Hends. unfold parseFenced, stripFence.
  assert (Htrim : trim (fenceOpen ++ t) = fenceOpen ++ trimEnd t).
  { unfold trim. change (trimStart (fenceOpen ++ t)) with (fenceOpen ++ t).
    apply trimEnd_after; [reflexivity | discriminate]. }
  rewrite Htrim, startsWith_app.
  change 7%Z with (Z.of_nat (List.length fenceOpen)).
  rewrite slice_from, skipn_app, Nat.sub_diag, skipn_all. cbn [app skipn].
  now rewrite trim_trimEnd, Hends.
Qed.

Lemma unclosed_fence_is_stripped_witness :
  parseFenced (fenceOpen ++ str " [1, 2] ")
  = Some (JArray [JNumber (str "1"); JNumber (str "2")]).
Proof.
  rewrite (unclosed_fence_is_stripped (str " [1, 2] ") eq_refl).
  vm_compute. reflexivity.
Defined.

Lemma startsWith_app_same (p s q : jsstring) :
  startsWith (p ++ s) (p ++ q) = startsWith s q.
Proof.
  induction p as [|a p IH]; simpl; [reflexivity|].
  now rewrite N.eqb_refl.
Qed.

Lemma parse_backtick (s : jsstring) : Json.parse (96%N :: s) = None.
Proof.
  unfold Json.parse.
  destruct (Json.parseValue (S (List.length (96%N :: s))) (96%N :: s))
    as [x|] eqn:E; [|reflexivity].
  destruct (parseValue_start _ _ _ E) as (c & r & Hs & Hc).
  simpl in Hs. injection Hs as <- <-. discriminate Hc.
Qed.

(** X4. A fence without the tag is not stripped: when the text of the reply
    opens with three backticks that [json] does not follow, both plan calls
    fail with their format error, whatever is inside the fence. *)
Theorem untagged_fence_is_a_format_error (h : Host) (key : jsstring)
    (response : GenerateContentResponse) (t : jsstring) :
  getApiKey h = Ok key ->
  text response = Some (fenceClose ++ t) ->
  startsWith t (str "json") = false ->
  generateMarketingPlan h (Ok response) = Throw PlanFormatError
  /\ generateMarketAnalysis h (Ok response) = Throw AnalysisFormatError.
Proof.
  intros Hkey Htext Htag.
  assert (Hparse : parseFenced (fenceClose ++ t) = None).
  { unfold parseFenced, stripFence.
    assert (Htrim : trim (fenceClose ++ t) = fenceClose ++ trimEnd t).
    { unfold trim. change (trimStart (fenceClose ++ t)) with (fenceClose ++ t).
      apply trimEnd_after; [reflexivity | discriminate]. }
    rewrite Htrim. change fenceOpen with (fenceClose ++ str "json").
    rewrite startsWith_app_same.
    destruct (startsWith (trimEnd t) (str "json")) eqn:E.
    - exfalso. apply startsWith_prefix in E. destruct E as [r Hr].
      destruct (trimEnd_prefix t) as [w Hw]. rewrite Hr in Hw.
      assert (startsWith t (str "json") = true).
      { apply startsWith_prefix. exists (r ++ w). now rewrite app_assoc. }
      congruence.
    - apply parse_backtick. }
  unfold generateMarketingPlan, generateMarketAnalysis, planCall, parsePlanText.
  rewrite Hkey. cbn [bind]. now rewrite Htext, Hparse.
Qed.

Lemma untagged_fence_is_a_format_error_witness :
  generateMarketingPlan scriptedHost
    (Ok {| text := Some (fenceClose ++ str " {} " ++ fenceClose);
           candidates := None |})
  = Throw PlanFormatError.
Proof.
  exact (proj1 (untagged_fence_is_a_format_error scriptedHost (str "secret")
                  {| text := Some (fenceClose ++ str " {} " ++ fenceClose);
                     candidates := None |}
                  (str " {} " ++ fenceClose) eq_refl eq_refl eq_refl)).
Defined.

(** ** Grounding chunks of every kind *)

Lemma flat_map_websOf (cs : list GroundingChunk) :
  flat_map websOf cs = map webSource (webParts cs).
Proof.
  unfold webParts. induction cs as [|c cs IH]; simpl; [reflexivity|].
  rewrite map_app, <- IH. unfold websOf. now destruct (chunk_web c).
Qed.

Lemma flat_map_placesOf (cs : list GroundingChunk) :
  flat_map placesOf cs = map mapSource (mapsParts cs).
Proof.
  unfold mapsParts. induction cs as [|c cs IH]; simpl; [reflexivity|].
  rewrite map_app, <- IH. unfold placesOf. now destruct (chunk_maps c).
Qed.

(** X5. [parseGroundingChunks] returns [null] exactly for an undefined or
    empty list.  For any other list it splits the chunks in two sequences
    that keep the order of the list: the web parts, and the maps parts; a
    chunk with both parts is in both, a chunk with neither in none, so that
    the two sequences can both be empty. *)
Theorem parseGroundingChunks_partition (chunks : option (list GroundingChunk)) :
  (parseGroundingChunks chunks = None <-> chunks = None \/ chunks = Some [])
  /\ (forall cs, chunks = Some cs -> cs <> [] ->
        parseGroundingChunks chunks =
        Some {| web := map webSource (webParts cs);
                maps := map mapSource (mapsParts cs) |}).
Proof.
  split.
  - destruct chunks as [[|c cs]|]; simpl; split; auto; try discriminate.
    intros [H | H]; discriminate H.
  - intros cs -> Hne. destruct cs as [|c cs]; [congruence|].
    now rewrite parseGroundingChunks_spec, flat_map_websOf, flat_map_placesOf.
Qed.

Lemma parseGroundingChunks_partition_witness :
  parseGroundingChunks
    (Some [ mapsChunk {| mchunk_title := Some (str "Cafe"); mchunk_uri := None;
                         mchunk_placeId := None |};
            {| chunk_web := None; chunk_maps := None |};
            {| chunk_web := Some {| chunk_title := Some (str "A");
                                    chunk_uri := Some (str "https://a") |};
               chunk_maps := Some {| mchunk_title := None;
                                     mchunk_uri := Some (str "https://maps/x");
                                     mchunk_placeId := Some (str "p1") |} |} ])
  = Some {| web := [ {| title := str "A"; uri := str "https://a" |} ];
            maps := [ {| map_title := str "Cafe"; map_uri := [];
                         placeId := None |};
                      {| map_title := str "Untitled";
                         map_uri := str "https://maps/x";
                         placeId := Some (str "p1") |} ] |}.
Proof.
  refine (proj2 (parseGroundingChunks_partition _) _ eq_refl _). discriminate.
Defined.

(** ** [editImage]: the first inline part *)

Lemma firstInlineData_first (before : list Part) (part : Part)
    (after : list Part) (inl : InlineData) :
  (forall p, In p before -> inlineData p = None) ->
  inlineData part = Some inl ->
  firstInlineData (before ++ part :: after) = Ok (data inl).
Proof.
  intros Hbefore Hpart. induction before as [|p before IH]; simpl.
  - now rewrite Hpart.
  - rewrite (Hbefore p (or_introl eq_refl)). apply IH.
    intros q Hq. apply Hbefore. now right.
Qed.

Lemma firstInlineData_none (ps : list Part) :
  firstInlineData ps = Throw NoContentGenerated <->
  forall p, In p ps -> inlineData p = None.
Proof.
  induction ps as [|p ps IH]; simpl.
  - split; [intros _ q [] | reflexivity].
  - destruct (inlineData p) as [inl|] eqn:E.
    + split; [discriminate|]. intros H.
      specialize (H p (or_introl eq_refl)). congruence.
    + rewrite IH. split.
      * intros H q [<- | Hq]; [exact E | now apply H].
      * intros H q Hq. apply H. now right.
Qed.

(** X6. [editImage] returns the data of the first part of the first
    candidate that carries inline data, whatever comes after it, and fails
    with "No image was generated." exactly when no part carries any. *)
Theorem editImage_first_inline_part (h : Host) (key : jsstring)
    (response : GenerateContentResponse) (candidate : Candidate)
    (rest : list Candidate) (c : Content) (ps : list Part) :
  getApiKey h = Ok key ->
  candidates response = Some (candidate :: rest) ->
  content candidate = Some c ->
  parts c = Some ps ->
  (forall before part after inl,
     ps = before ++ part :: after ->
     (forall p, In p before -> inlineData p = None) ->
     inlineData part = Some inl ->
     editImage h (Ok response) = Ok (data inl))
  /\ (editImage h (Ok response) = Throw NoContentGenerated <->
      forall p, In p ps -> inlineData p = None).
Proof.
  intros Hkey Hc Hcontent Hparts. unfold editImage.
  rewrite Hkey. cbn [bind]. rewrite Hc. cbn [read bind first hd_error].
  rewrite Hcontent. cbn [read bind]. rewrite Hparts. cbn [read bind].
  split.
  - intros before part after inl -> Hbefore Hpart.
    now apply firstInlineData_first.
  - apply firstInlineData_none.
Qed.

Lemma editImage_first_inline_part_witness :
  editImage scriptedHost
    (Ok (replyWithParts
           [ {| inlineData := None |};
             {| inlineData := Some {| data := Some (str "QUJD") |} |};
             {| inlineData := Some {| data := Some (str "REVG") |} |} ]))
  = Ok (Some (str "QUJD")).
Proof.
  refine (proj1 (editImage_first_inline_part scriptedHost (str "secret")
                   (replyWithParts
                      [ {| inlineData := None |};
                        {| inlineData := Some {| data := Some (str "QUJD") |} |};
                        {| inlineData := Some {| data := Some (str "REVG") |} |} ])
                   _ [] _ _ eq_refl eq_refl eq_refl eq_refl)
            [ {| inlineData := None |} ]
            {| inlineData := Some {| data := Some (str "QUJD") |} |}
            [ {| inlineData := Some {| data := Some (str "REVG") |} |} ]
            {| data := Some (str "QUJD") |}
            eq_refl _ eq_refl).
  intros p [<- | []]. reflexivity.
Defined.

(** ** Video generation: every run, runs that do not end, runs that end well *)

Section EveryRun.

Variable b : VideoBackend.

Lemma poll_handles (fuel : nat) :
  forall (i : nat) (op : Operation),
    exists handles, fst (poll fuel b i op) = pollTrace handles.
Proof.
  induction fuel as [|fuel IH]; intros i op; cbn [poll].
  - destruct (isDone op); now exists [].
  - destruct (isDone op); [now exists []|].
    destruct (getVideosOperation b i) as [next|e].
    + destruct (IH (S i) next) as [handles Hh].
      destruct (poll fuel b (S i) next) as [tr r]. simpl in Hh. subst tr.
      now exists (op :: handles).
    + now exists [op].
Qed.

Lemma waited_app (tr tr' : list event) :
  waited (tr ++ tr') = (waited tr + waited tr')%N.
Proof.
  induction tr as [|e tr IH]; simpl; [reflexivity|].
  destruct e; rewrite IH; lia.
Qed.

Lemma waited_pollTrace (handles : list Operation) :
  waited (pollTrace handles) = (10000 * N.of_nat (List.length handles))%N.
Proof.
  induction handles as [|o rest IH]; [reflexivity|].
  change (pollTrace (o :: rest))
    with (ESetTimeout 10000 :: EGetVideosOperation o :: pollTrace rest).
  cbn [waited List.length]. rewrite IH. lia.
Qed.

Lemma pollTrace_counts (handles : list Operation) :
  submissions (pollTrace handles) = 0 /\ fetches (pollTrace handles) = 0.
Proof.
  unfold submissions, fetches.
  induction handles as [|o rest [IH1 IH2]]; simpl; auto.
Qed.

Lemma download_counts (h : Host) (op : Operation) :
  waited (fst (download h b op)) = 0%N
  /\ submissions (fst (download h b op)) = 0
  /\ fetches (fst (download h b op)) <= 1.
Proof.
  unfold download.
  destruct (truthy (downloadLink op)); [|simpl; auto].
  destruct (getApiKey h); [|simpl; auto].
  destruct (fetch b _) as [resp|]; [|simpl; auto].
  destruct (ok resp); [|simpl; auto].
  destruct (blob resp); simpl; auto.
Qed.

(** While every report says not done, the loop goes on. *)
Lemma poll_never_done (fuel : nat) :
  forall (i : nat) (op : Operation),
    isDone op = false ->
    (forall k, exists o, getVideosOperation b k = Ok o /\ isDone o = false) ->
    exists handles,
      List.length handles = fuel
      /\ poll fuel b i op = (pollTrace handles, None).
Proof.
  induction fuel as [|fuel IH]; intros i op Hop Hall; cbn [poll]; rewrite Hop.
  - now exists [].
  - destruct (Hall i) as (o & Ho & Hd). rewrite Ho.
    destruct (IH (S i) o Hd Hall) as (handles & Hlen & Hp). rewrite Hp.
    exists (op :: handles). split; [simpl; now rewrite Hlen | reflexivity].
Qed.

(** A status request that is rejected ends the loop. *)
Lemma poll_rejected (k : nat) :
  forall (fuel i : nat) (op : Operation) (e : exn),
    isDone op = false ->
    (forall j, j < k ->
       exists o, getVideosOperation b (i + j) = Ok o /\ isDone o = false) ->
    getVideosOperation b (i + k) = Throw e ->
    k < fuel ->
    exists handles,
      List.length handles = S k
      /\ poll fuel b i op = (pollTrace handles, Some (Throw e)).
Proof.
  induction k as [|k IH]; intros fuel i op e Hop Hk He Hfuel;
    (destruct fuel as [|fuel]; [lia|]); cbn [poll]; rewrite Hop.
  - rewrite Nat.add_0_r in He. rewrite He. now exists [op].
  - destruct (Hk 0 ltac:(lia)) as (o & Ho & Hd). rewrite Nat.add_0_r in Ho.
    rewrite Ho.
    destruct (IH fuel (S i) o e Hd) as (handles & Hlen & Hp).
    + intros j Hj. destruct (Hk (S j) ltac:(lia)) as (o' & Ho' & Hd').
      exists o'. split; [|exact Hd']. now replace (S i + j) with (i + S j) by lia.
    + now replace (S i + k) with (i + S k) by lia.
    + lia.
    + rewrite Hp. exists (op :: handles).
      split; [simpl; now rewrite Hlen | reflexivity].
Qed.

End EveryRun.

(** X7. In every run of [generateVideo], whatever the backend answers and
    however long the run has lasted: each status request comes right after a
    timer of 10000 ms, the timers add up to 10 seconds per status request,
    and the call has submitted at most once and fetched at most once. *)
Theorem generateVideo_trace_invariants (fuel : nat) (h : Host) (b : VideoBackend)
    (base64Image mimeType prompt : jsstring) (ar : AspectRatio) :
  let tr := fst (generateVideo fuel h b base64Image mimeType prompt ar) in
  eachCheckAfterWait tr
  /\ waited tr = (10000 * N.of_nat (statusChecks tr))%N
  /\ submissions tr <= 1
  /\ fetches tr <= 1.
Proof.
  unfold generateVideo.
  destruct (getApiKey h) as [key|e]; [|cbn; auto].
  destruct (generateVideos b _) as [op0|e]; [|cbn; auto].
  destruct (poll_handles b fuel 0 op0) as [handles Hh].
  destruct (pollTrace_counts handles) as [Hs Hf].
  destruct (poll fuel b 0 op0) as [tr0 [[op|e]|]]; simpl in Hh; subst tr0.
  - destruct (download_trace b h op) as (Hc & Hw & _).
    destruct (download_counts b h op) as (Hw0 & Hs0 & Hf0).
    destruct (download h b op) as [tr1 r1]. cbn [fst] in *.
    repeat split.
    + simpl. now apply eachCheckAfterWait_pollTrace.
    + change (waited (EGenerateVideos ?r :: ?t)) with (waited t).
      rewrite waited_app, waited_pollTrace, Hw0.
      change (statusChecks (EGenerateVideos ?r :: ?t)) with (statusChecks t).
      rewrite statusChecks_app, statusChecks_pollTrace, Hc. lia.
    + unfold submissions in *. simpl. rewrite filter_app, length_app. lia.
    + unfold fetches in *. simpl. rewrite filter_app, length_app. lia.
  - cbn [fst]. repeat split.
    + simpl. rewrite <- (app_nil_r (pollTrace handles)).
      now apply eachCheckAfterWait_pollTrace.
    + change (waited (EGenerateVideos ?r :: ?t)) with (waited t).
      rewrite waited_pollTrace.
      change (statusChecks (EGenerateVideos ?r :: ?t)) with (statusChecks t).
      now rewrite statusChecks_pollTrace.
    + unfold submissions in *. simpl. lia.
    + unfold fetches in *. simpl. lia.
  - cbn [fst]. repeat split.
    + simpl. rewrite <- (app_nil_r (pollTrace handles)).
      now apply eachCheckAfterWait_pollTrace.
    + change (waited (EGenerateVideos ?r :: ?t)) with (waited t).
      rewrite waited_pollTrace.
      change (statusChecks (EGenerateVideos ?r :: ?t)) with (statusChecks t).
      now rewrite statusChecks_pollTrace.
    + unfold submissions in *. simpl. lia.
    + unfold fetches in *. simpl. lia.
Qed.

(** X8. The loop has no bound of its own: when the submitted operation and
    every status reply are not done, the call has not returned after any
    number of rounds, and has by then made that many status requests and
    waited 10 seconds for each. *)
Theorem generateVideo_polls_without_bound (h : Host) (b : VideoBackend)
    (base64Image mimeType prompt key : jsstring) (ar : AspectRatio)
    (op0 : Operation) :
  getApiKey h = Ok key ->
  generateVideos b (videoRequest base64Image mimeType prompt ar) = Ok op0 ->
  isDone op0 = false ->
  (forall k, exists o, getVideosOperation b k = Ok o /\ isDone o = false) ->
  forall fuel,
    snd (generateVideo fuel h b base64Image mimeType prompt ar) = None
    /\ statusChecks (fst (generateVideo fuel h b base64Image mimeType prompt ar))
       = fuel
    /\ waited (fst (generateVideo fuel h b base64Image mimeType prompt ar))
       = (10000 * N.of_nat fuel)%N.
Proof.
  intros Hkey Hsubmit Hop Hall fuel. unfold generateVideo.
  rewrite Hkey, Hsubmit.
  destruct (poll_never_done b fuel 0 op0 Hop Hall) as (handles & Hlen & Hp).
  rewrite Hp. cbn [fst snd]. repeat split.
  - change (statusChecks (EGenerateVideos ?r :: ?t)) with (statusChecks t).
    now rewrite statusChecks_pollTrace.
  - change (waited (EGenerateVideos ?r :: ?t)) with (waited t).
    now rewrite waited_pollTrace, Hlen.
Qed.

Lemma generateVideo_polls_without_bound_witness :
  snd (generateVideo 100 scriptedHost
         {| generateVideos := fun _ => Ok pendingOperation;
            getVideosOperation := fun _ => Ok pendingOperation;
            fetch := fun _ => Throw Rejection;
            createObjectURL := fun _ => [] |}
         (str "aW1n") (str "image/png") (str "zoom out") R16_9) = None.
Proof.
  refine (proj1 (generateVideo_polls_without_bound scriptedHost
            {| generateVideos := fun _ => Ok pendingOperation;
               getVideosOperation := fun _ => Ok pendingOperation;
               fetch := fun _ => Throw Rejection;
               createObjectURL := fun _ => [] |}
            (str "aW1n") (str "image/png") (str "zoom out") (str "secret") R16_9
            pendingOperation eq_refl eq_refl eq_refl _ 100)).
  intros k. exists pendingOperation. split; reflexivity.
Defined.

(** X9. A status request that the backend rejects ends the call at once with
    that rejection: after [k] replies that are not done and a rejection of
    the next request, the call has made [k + 1] status requests, fetches
    nothing and fails with what the request was rejected with. *)
Theorem generateVideo_status_rejection (h : Host) (b : VideoBackend)
    (base64Image mimeType prompt key : jsstring) (ar : AspectRatio)
    (op0 : Operation) (k : nat) (e : exn) :
  getApiKey h = Ok key ->
  generateVideos b (videoRequest base64Image mimeType prompt ar) = Ok op0 ->
  isDone op0 = false ->
  (forall j, j < k ->
     exists o, getVideosOperation b j = Ok o /\ isDone o = false) ->
  getVideosOperation b k = Throw e ->
  forall fuel, k < fuel ->
    snd (generateVideo fuel h b base64Image mimeType prompt ar) = Some (Throw e)
    /\ statusChecks (fst (generateVideo fuel h b base64Image mimeType prompt ar))
       = k + 1
    /\ fetches (fst (generateVideo fuel h b base64Image mimeType prompt ar)) = 0.
Proof.
  intros Hkey Hsubmit Hop Hk He fuel Hfuel. unfold generateVideo.
  rewrite Hkey, Hsubmit.
  destruct (poll_rejected b k fuel 0 op0 e Hop Hk He Hfuel)
    as (handles & Hlen & Hp).
  rewrite Hp. cbn [fst snd]. repeat split.
  - change (statusChecks (EGenerateVideos ?r :: ?t)) with (statusChecks t).
    rewrite statusChecks_pollTrace. lia.
  - change (fetches (EGenerateVideos ?r :: ?t)) with (fetches t).
    apply pollTrace_counts.
Qed.

Lemma generateVideo_status_rejection_witness :
  snd (generateVideo 5 scriptedHost
         {| generateVideos := fun _ => Ok pendingOperation;
            getVideosOperation :=
              fun j => if j <? 2 then Ok pendingOperation
                       else Throw (Error (str "Requested entity was not found."));
            fetch := fun _ => Throw Rejection;
            createObjectURL := fun _ => [] |}
         (str "aW1n") (str "image/png") (str "zoom out") R16_9)
  = Some (Throw (Error (str "Requested entity was not found."))).
Proof.
  refine (proj1 (generateVideo_status_rejection scriptedHost
            {| generateVideos := fun _ => Ok pendingOperation;
               getVideosOperation :=
                 fun j => if j <? 2 then Ok pendingOperation
                          else Throw (Error (str "Requested entity was not found."));
               fetch := fun _ => Throw Rejection;
               createObjectURL := fun _ => [] |}
            (str "aW1n") (str "image/png") (str "zoom out") (str "secret") R16_9
            pendingOperation 2 (Error (str "Requested entity was not found."))
            eq_refl eq_refl eq_refl _ eq_refl 5 _)).
  - intros j Hj. exists pendingOperation.
    destruct j as [|[|j]]; [split; reflexivity | split; reflexivity | lia].
  - lia.
Defined.

(** X10. When the operation that is done carries a URI and the fetch is ok,
    the call fetches once, from the URI followed by "&key=" and the API key,
    reads the blob and returns the object URL made of it. *)
Theorem generateVideo_success (h : Host) (b : VideoBackend)
    (base64Image mimeType prompt key : jsstring) (ar : AspectRatio)
    (op0 final : Operation) (pending : list Operation) (fuel : nat)
    (link : jsstring) (videoResponse : FetchResponse) (videoBlob : Blob) :
  getApiKey h = Ok key ->
  generateVideos b (videoRequest base64Image mimeType prompt ar) = Ok op0 ->
  pollsUntil b 0 op0 pending final ->
  List.length pending <= fuel ->
  downloadLink final = Some link ->
  link <> [] ->
  fetch b (link ++ str "&key=" ++ key) = Ok videoResponse ->
  ok videoResponse = true ->
  blob videoResponse = Ok videoBlob ->
  generateVideo fuel h b base64Image mimeType prompt ar =
  (EGenerateVideos (videoRequest base64Image mimeType prompt ar)
     :: pollTrace pending
        ++ [ EFetch (link ++ str "&key=" ++ key); EBlob;
             ECreateObjectURL videoBlob ],
   Some (Ok (createObjectURL b videoBlob))).
Proof.
  intros Hkey Hsubmit Hpoll Hfuel Hlink Hne Hfetch Hok Hblob.
  destruct (generateVideo_run h b base64Image mimeType prompt key ar
              op0 final pending Hkey Hsubmit Hpoll) as [Hrun _].
  rewrite (Hrun fuel Hfuel). unfold download. rewrite Hlink.
  destruct link as [|c link]; [congruence|].
  cbn [truthy nullish]. now rewrite Hkey, Hfetch, Hok, Hblob.
Qed.

Lemma generateVideo_success_witness :
  generateVideo 1 scriptedHost
    (scriptedBackend 0 (Some (str "https://v/1?alt=media")) true)
    (str "aW1n") (str "image/png") (str "zoom out") R9_16
  = ([ EGenerateVideos
         (videoRequest (str "aW1n") (str "image/png") (str "zoom out") R9_16);
       ESetTimeout 10000; EGetVideosOperation pendingOperation;
       EFetch (str "https://v/1?alt=media&key=secret");
       EBlob;
       ECreateObjectURL [82; 73; 70; 70]%N ],
     Some (Ok (str "blob:https://app/0001"))).
Proof.
  refine (generateVideo_success scriptedHost
            (scriptedBackend 0 (Some (str "https://v/1?alt=media")) true)
            (str "aW1n") (str "image/png") (str "zoom out") (str "secret") R9_16
            pendingOperation (doneOperation (Some (str "https://v/1?alt=media")))
            [pendingOperation] 1 (str "https://v/1?alt=media")
            {| ok := true; blob := Ok [82; 73; 70; 70]%N |} [82; 73; 70; 70]%N
            eq_refl eq_refl _ _ eq_refl _ eq_refl eq_refl eq_refl).
  - simpl. repeat split.
    exists (doneOperation (Some (str "https://v/1?alt=media"))). repeat split.
  - simpl. lia.
  - discriminate.
Defined.

(** ** The task list and the calendar over it *)

Lemma toggleTask_absent (taskId : jsstring) (tasks : list App.Task) :
  (forall t, In t tasks -> App.id t <> taskId) ->
  App.toggleTask taskId tasks = tasks.
Proof.
  intros H. unfold App.toggleTask. rewrite <- (map_id tasks) at 2.
  apply map_ext_in. intros t Ht.
  destruct (jsstring_eqb (App.id t) taskId) eqn:E; [|reflexivity].
  apply jsstring_eqb_eq in E. now apply H in Ht.
Qed.

(** X11. Toggling the same identifier twice gives the list back; toggling an
    identifier that no task has changes nothing; and two toggles can be made
    in either order. *)
Theorem toggleTask_composes (tasks : list App.Task) :
  (forall taskId,
     App.toggleTask taskId (App.toggleTask taskId tasks) = tasks)
  /\ (forall taskId,
        (forall t, In t tasks -> App.id t <> taskId) ->
        App.toggleTask taskId tasks = tasks)
  /\ (forall a b,
        App.toggleTask a (App.toggleTask b tasks)
        = App.toggleTask b (App.toggleTask a tasks)).
Proof.
  repeat apply conj.
  - intros taskId. unfold App.toggleTask. rewrite map_map.
    rewrite <- (map_id tasks) at 2. apply map_ext. intros [i p c]. simpl.
    destruct (jsstring_eqb i taskId) eqn:E; simpl; rewrite E;
      [now rewrite negb_involutive | reflexivity].
  - intros taskId. apply toggleTask_absent.
  - intros a b. unfold App.toggleTask. rewrite !map_map.
    apply map_ext. intros [i p c]. simpl.
    destruct (jsstring_eqb i b) eqn:Eb, (jsstring_eqb i a) eqn:Ea; simpl;
      rewrite ?Ea, ?Eb; reflexivity.
Qed.

Lemma toggleTask_composes_witness :
  App.toggleTask (str "task-1700000000003-0.9") twoTasks = twoTasks.
Proof.
  apply (proj1 (proj2 (toggleTask_composes twoTasks))).
  intros t [<- | [<- | []]]; discriminate.
Defined.

(** X12. [addTask] never removes, reorders or changes a task: the old list
    is a prefix of the new one, which has at most one task more.  After it
    the idea shows as saved in the marketing plan, and adding the same idea
    again, under whatever identifier, changes nothing. *)
Theorem addTask_saves_once (now random : jsstring) (idea : App.PostIdea)
    (tasks : list App.Task) :
  (exists added,
     App.addTask now random idea tasks = tasks ++ added
     /\ List.length added <= 1)
  /\ MarketingPlan.isSaved (App.addTask now random idea tasks) idea = true
  /\ (forall now' random',
        App.addTask now' random' idea (App.addTask now random idea tasks)
        = App.addTask now random idea tasks).
Proof.
  assert (Hsaved : existsb (App.sameIdea idea)
                     (App.addTask now random idea tasks) = true).
  { unfold App.addTask.
    destruct (existsb (App.sameIdea idea) tasks) eqn:E; [exact E|].
    rewrite existsb_app, E. cbn [existsb orb]. unfold App.sameIdea.
    cbn [App.postIdea App.prompt App.platform].
    assert (Hr : forall s, jsstring_eqb s s = true)
      by (intros s; now apply jsstring_eqb_eq).
    now rewrite !Hr. }
  repeat apply conj.
  - unfold App.addTask. destruct (existsb (App.sameIdea idea) tasks).
    + exists []. split; [now rewrite app_nil_r | simpl; lia].
    + eexists. split; [reflexivity | simpl; lia].
  - exact Hsaved.
  - intros now' random'. unfold App.addTask at 1. now rewrite Hsaved.
Qed.





(** ** The selection of platforms *)

Module SelectionFacts.

Import MultiPostManager.

Lemma Platform_eqb_eq (a b : Platform) : Platform_eqb a b = true <-> a = b.
Proof. destruct a, b; simpl; split; congruence. Qed.

Lemma includes_In (l : list Platform) (p : Platform) :
  includesPlatform l p = true <-> In p l.
Proof.
  unfold includesPlatform. rewrite existsb_exists. split.
  - intros (q & Hq & H). apply Platform_eqb_eq in H. now subst.
  - intros H. exists p. split; [exact H | now apply Platform_eqb_eq].
Qed.

Lemma change_In (platform q : Platform) (prev : list Platform) :
  In q (handlePlatformChange platform prev) <->
  (q = platform /\ ~ In platform prev) \/ (q <> platform /\ In q prev).
Proof.
  unfold handlePlatformChange.
  destruct (includesPlatform prev platform) eqn:E.
  - apply includes_In in E. rewrite filter_In, negb_true_iff. split.
    + intros [Hq Hne]. right. split; [|exact Hq]. intros ->.
      assert (Platform_eqb platform platform = true) by now apply Platform_eqb_eq.
      congruence.
    + intros [[-> Hn] | [Hne Hq]]; [contradiction|]. split; [exact Hq|].
      destruct (Platform_eqb q platform) eqn:Eq; [|reflexivity].
      apply Platform_eqb_eq in Eq. contradiction.
  - assert (Hn : ~ In platform prev).
    { intros H. apply includes_In in H. congruence. }
    rewrite in_app_iff. simpl. split.
    + intros [Hq | [<- | []]].
      * right. split; [|exact Hq]. intros ->. contradiction.
      * now left.
    + intros [[-> _] | [_ Hq]]; auto.
Qed.

End SelectionFacts.

(** X15. Ticking a platform selects it when it was not selected and
    deselects it when it was, and leaves the other platforms as they were;
    no selection the component can reach holds a platform twice; and ticking
    a platform that was not selected twice gives the selection back. *)
Theorem platform_selection_toggles (platform : MultiPostManager.Platform)
    (prev : list MultiPostManager.Platform) :
  MultiPostManager.includesPlatform
    (MultiPostManager.handlePlatformChange platform prev) platform
  = negb (MultiPostManager.includesPlatform prev platform)
  /\ (forall q, q <> platform ->
        MultiPostManager.includesPlatform
          (MultiPostManager.handlePlatformChange platform prev) q
        = MultiPostManager.includesPlatform prev q)
  /\ (MultiPostManager.selectable prev -> NoDup prev)
  /\ (MultiPostManager.includesPlatform prev platform = false ->
      MultiPostManager.handlePlatformChange platform
        (MultiPostManager.handlePlatformChange platform prev) = prev).
Proof.
  assert (Hbool : forall l p b,
             (MultiPostManager.includesPlatform l p = true <-> b = true) ->
             MultiPostManager.includesPlatform l p = b).
  { intros l p b H. destruct (MultiPostManager.includesPlatform l p), b;
      try reflexivity; [symmetry|]; now apply H. }
  split; [|split; [|split]].
  - apply Hbool. rewrite SelectionFacts.includes_In, SelectionFacts.change_In.
    rewrite negb_true_iff. split.
    + intros [[_ Hn] | [Hne _]]; [|congruence].
      destruct (MultiPostManager.includesPlatform prev platform) eqn:E;
        [|reflexivity]. apply SelectionFacts.includes_In in E. contradiction.
    + intros E. left. split; [reflexivity|]. intros H.
      apply SelectionFacts.includes_In in H. congruence.
  - intros q Hne. apply Hbool.
    rewrite !SelectionFacts.includes_In, SelectionFacts.change_In. split.
    + intros [[-> _] | [_ H]]; [congruence | exact H].
    + intros H. right. now split.
  - induction 1 as [|p l _ IH]; [constructor|].
    unfold MultiPostManager.handlePlatformChange.
    destruct (MultiPostManager.includesPlatform l p) eqn:E.
    + now apply NoDup_filter.
    + apply NoDup_app; [exact IH | repeat constructor; intros [] |].
      intros q Hq [<- | []]. apply SelectionFacts.includes_In in Hq. congruence.
  - intros E. unfold MultiPostManager.handlePlatformChange at 2. rewrite E.
    unfold MultiPostManager.handlePlatformChange.
    assert (Hin : MultiPostManager.includesPlatform (prev ++ [platform]) platform
                  = true).
    { apply SelectionFacts.includes_In, in_or_app. right. now left. }
    rewrite Hin, filter_app. simpl.
    assert (Hr : MultiPostManager.Platform_eqb platform platform = true)
      by now apply SelectionFacts.Platform_eqb_eq.
    rewrite Hr. simpl. rewrite app_nil_r.
    apply forallb_filter_id. apply forallb_forall. intros q Hq.
    apply negb_true_iff.
    destruct (MultiPostManager.Platform_eqb q platform) eqn:Eq; [|reflexivity].
    apply SelectionFacts.Platform_eqb_eq in Eq. subst q.
    apply SelectionFacts.includes_In in Hq. congruence.
Qed.

Lemma platform_selection_toggles_witness :
  MultiPostManager.handlePlatformChange MultiPostManager.LinkedIn
    (MultiPostManager.handlePlatformChange MultiPostManager.LinkedIn
       [MultiPostManager.Facebook; MultiPostManager.Instagram])
  = [MultiPostManager.Facebook; MultiPostManager.Instagram].
Proof.
  apply (proj2 (proj2 (proj2 (platform_selection_toggles
           MultiPostManager.LinkedIn
           [MultiPostManager.Facebook; MultiPostManager.Instagram])))).
  reflexivity.
Defined.

(** ** The loading messages *)

Module RotationFacts.

Import VideoGenerator VideoGeneratorEffects.

Lemma indexOfFrom_absent (l : list jsstring) (x : jsstring) (i : Z) :
  ~ In x l -> indexOfFrom i l x = (-1)%Z.
Proof.
  revert i. induction l as [|y l IH]; intros i Hn; simpl; [reflexivity|].
  destruct (jsstring_eqb y x) eqn:E.
  - apply jsstring_eqb_eq in E. subst y. exfalso. apply Hn. now left.
  - apply IH. intros H. apply Hn. now right.
Qed.

Lemma indexOfFrom_bounds (l : list jsstring) (x : jsstring) (i : Z) :
  (indexOfFrom i l x = -1 \/
   i <= indexOfFrom i l x < i + Z.of_nat (List.length l))%Z.
Proof.
  revert i. induction l as [|y l IH]; intros i; [now left|].
  cbn [indexOfFrom]. destruct (jsstring_eqb y x).
  - right. cbn [List.length]. lia.
  - destruct (IH (i + 1)%Z) as [H | H]; [now left|].
    right. cbn [List.length]. lia.
Qed.

Lemma next_of_nth (i : nat) :
  i < 7 ->
  nextLoadingMessage (nth i loadingMessages []) =
  nth (S i mod 7) loadingMessages [].
Proof.
  intros H.
  do 7 (destruct i as [|i]; [vm_compute; reflexivity|]). lia.
Qed.

End RotationFacts.

(** X16. While a video is generated the message under the spinner is
    always one of the seven loading messages: the interval moves it one
    entry on and from the last entry back to the first, so that its [n]-th
    firing after a submission shows the entry [n mod 7]; a text that is none
    of the seven is followed by the first entry. *)
Theorem loading_message_rotation :
  (forall prev, In (VideoGeneratorEffects.nextLoadingMessage prev)
                  VideoGenerator.loadingMessages)
  /\ (forall prev, ~ In prev VideoGenerator.loadingMessages ->
        VideoGeneratorEffects.nextLoadingMessage prev =
        nth 0 VideoGenerator.loadingMessages [])
  /\ (forall (n : nat) (st : VideoGenerator.State),
        VideoGenerator.loadingMessage
          (Nat.iter n VideoGeneratorEffects.onInterval
             (VideoGenerator.setLoadingMessage
                (nth 0 VideoGenerator.loadingMessages []) st))
        = nth (n mod 7) VideoGenerator.loadingMessages []).
Proof.
  split; [|split].
  - intros prev. unfold VideoGeneratorEffects.nextLoadingMessage.
    cbv zeta. apply nth_In.
    unfold VideoGeneratorEffects.indexOf.
    destruct (RotationFacts.indexOfFrom_bounds VideoGenerator.loadingMessages
                prev 0) as [-> | H].
    + simpl. lia.
    + set (k := VideoGeneratorEffects.indexOfFrom 0
                  VideoGenerator.loadingMessages prev) in *.
      set (len := List.length VideoGenerator.loadingMessages) in *.
      assert (Hlen : 0 < len) by (unfold len; simpl; lia).
      assert (Hrem : (0 <= Z.rem (k + 1) (Z.of_nat len) < Z.of_nat len)%Z).
      { rewrite Z.rem_mod_nonneg by lia. apply Z.mod_pos_bound. lia. }
      lia.
  - intros prev Hn. unfold VideoGeneratorEffects.nextLoadingMessage,
      VideoGeneratorEffects.indexOf.
    now rewrite (RotationFacts.indexOfFrom_absent _ _ 0%Z Hn).
  - intros n st. induction n as [|n IH]; [reflexivity|].
    rewrite Nat.iter_succ.
    change (VideoGenerator.loadingMessage (VideoGeneratorEffects.onInterval ?s))
      with (VideoGeneratorEffects.nextLoadingMessage
              (VideoGenerator.loadingMessage s)).
    rewrite IH.
    assert (Hlt : n mod 7 < 7) by (apply Nat.mod_upper_bound; lia).
    rewrite (RotationFacts.next_of_nth _ Hlt). f_equal.
    rewrite <- Nat.add_1_r. rewrite Nat.Div0.add_mod_idemp_l.
    now rewrite Nat.add_1_r.
Qed.

Lemma loading_message_rotation_witness :
  VideoGeneratorEffects.nextLoadingMessage (str "Loading...") =
  nth 0 VideoGenerator.loadingMessages [].
Proof.
  apply (proj1 (proj2 loading_message_rotation)).
  intros H. repeat (destruct H as [H | H]; [discriminate H|]). exact H.
Defined.

(** ** The key gate of the video generator *)

(** X17. Once the check of the key has run, the component no longer shows
    that it is checking; it asks for a key exactly when the host has the
    key dialog and answers that no key is selected: without the dialog, or
    when the question fails, the form is shown. *)
Theorem key_check_gate (aistudio : option VideoGeneratorEffects.AIStudio)
    (st : VideoGenerator.State) :
  VideoGenerator.checkingApiKey (VideoGeneratorEffects.checkKey aistudio st)
  = false
  /\ (VideoGenerator.render (VideoGeneratorEffects.checkKey aistudio st)
      = VideoGenerator.ApiKeyRequired
      <-> exists studio,
            aistudio = Some studio
            /\ VideoGeneratorEffects.hasSelectedApiKey studio = Resolved false)
  /\ (VideoGenerator.render (VideoGeneratorEffects.checkKey aistudio st)
      <> VideoGenerator.ApiKeyRequired ->
      VideoGenerator.render (VideoGeneratorEffects.checkKey aistudio st)
      = VideoGenerator.GeneratorForm).
Proof.
  split; [|split].
  - destruct aistudio as [studio|]; [|reflexivity].
    unfold VideoGeneratorEffects.checkKey.
    now destruct (VideoGeneratorEffects.hasSelectedApiKey studio).
  - destruct aistudio as [[[[|]|err] open]|]; cbn; split;
      try discriminate; try reflexivity;
      try (intros (studio & H & E); try discriminate H;
           injection H as <-; discriminate E).
    intros _. now eexists.
  - destruct aistudio as [[[[|]|err] open]|]; cbn; congruence.
Qed.

Lemma key_check_gate_witness :
  VideoGenerator.render
    (VideoGeneratorEffects.checkKey
       (Some {| VideoGeneratorEffects.hasSelectedApiKey := Rejected OtherValue;
                VideoGeneratorEffects.openSelectKey := Resolved tt |})
       {| VideoGenerator.apiKeySelected := false;
          VideoGenerator.checkingApiKey := true;
          VideoGenerator.imageFile := None;
          VideoGenerator.previewUrl := None;
          VideoGenerator.generatedVideoUrl := None;
          VideoGenerator.prompt := [];
          VideoGenerator.aspectRatio := R16_9;
          VideoGenerator.loading := false;
          VideoGenerator.loadingMessage := nth 0 VideoGenerator.loadingMessages [];
          VideoGenerator.error := None |})
  = VideoGenerator.GeneratorForm.
Proof.
  apply (proj2 (proj2 (key_check_gate _ _))). discriminate.
Defined.

(** X18. After a submission that fails with a message holding "Requested
    entity was not found" the component asks for a key.  Choosing one in the
    dialog brings the form back with the image and the prompt as they were,
    and with the message about the invalid key still on it; when the dialog
    fails to open, or the host has none, the request for a key stays, under
    a message of that failure. *)
Theorem invalid_key_recovery (st : VideoGenerator.State)
    (file : VideoGenerator.File) (m : jsstring) :
  VideoGenerator.imageFile st = Some file ->
  blank (VideoGenerator.prompt st) = false ->
  VideoGenerator.checkingApiKey st = false ->
  includes m VideoGenerator.notFound = true ->
  let failed := VideoGenerator.handleSubmit (Rejected (ErrorInstance m)) st in
  VideoGenerator.render failed = VideoGenerator.ApiKeyRequired
  /\ (forall studio,
        VideoGeneratorEffects.openSelectKey studio = Resolved tt ->
        let st' := VideoGeneratorEffects.handleSelectKey (Some studio) failed in
        VideoGenerator.render st' = VideoGenerator.GeneratorForm
        /\ VideoGenerator.error st'
           = Some (str "Your API key is invalid. Please select a valid key.")
        /\ VideoGenerator.imageFile st' = Some file
        /\ VideoGenerator.prompt st' = VideoGenerator.prompt st
        /\ VideoGenerator.aspectRatio st' = VideoGenerator.aspectRatio st)
  /\ (forall studio err,
        VideoGeneratorEffects.openSelectKey studio = Rejected err ->
        let st' := VideoGeneratorEffects.handleSelectKey (Some studio) failed in
        VideoGenerator.render st' = VideoGenerator.ApiKeyRequired
        /\ VideoGenerator.error st'
           = Some (str "Could not open the API key selection dialog."))
  /\ (let st' := VideoGeneratorEffects.handleSelectKey None failed in
      VideoGenerator.render st' = VideoGenerator.ApiKeyRequired
      /\ VideoGenerator.error st'
         = Some (str "API key selection is not available in this environment.")).
Proof.
  intros Hfile Hprompt Hcheck Hm failed.
  assert (Hfailed :
            failed =
            VideoGenerator.setLoading false
              (VideoGenerator.setApiKeySelected false
                 (VideoGenerator.setError
                    (Some (str "Your API key is invalid. Please select a valid key."))
                    (VideoGenerator.setLoadingMessage
                       (nth 0 VideoGenerator.loadingMessages [])
                       (VideoGenerator.setGeneratedVideoUrl None
                          (VideoGenerator.setError None
                             (VideoGenerator.setLoading true st))))))).
  { unfold failed, VideoGenerator.handleSubmit, VideoGenerator.onCatch.
    rewrite Hfile, Hprompt. cbn [messageOf]. now rewrite Hm. }
  split; [|split; [|split]].
  - rewrite Hfailed. unfold VideoGenerator.render. cbn. now rewrite Hcheck.
  - intros studio Hopen st'. unfold st', VideoGeneratorEffects.handleSelectKey.
    rewrite Hopen, Hfailed. unfold VideoGenerator.render. cbn.
    rewrite Hcheck. repeat split. exact Hfile.
  - intros studio err Hopen st'. unfold st', VideoGeneratorEffects.handleSelectKey.
    rewrite Hopen, Hfailed. unfold VideoGenerator.render. cbn.
    rewrite Hcheck. now split.
  - intros st'. unfold st', VideoGeneratorEffects.handleSelectKey.
    rewrite Hfailed. unfold VideoGenerator.render. cbn.
    rewrite Hcheck. now split.
Qed.

Lemma invalid_key_recovery_witness :
  VideoGenerator.render
    (VideoGenerator.handleSubmit
       (Rejected (ErrorInstance (str "404: Requested entity was not found.")))
       readyVideo)
  = VideoGenerator.ApiKeyRequired.
Proof.
  apply (proj1 (invalid_key_recovery readyVideo
                  {| VideoGenerator.type := str "image/png" |}
                  (str "404: Requested entity was not found.")
                  eq_refl eq_refl eq_refl eq_refl)).
Defined.

(** ** The video generator with the gateway behind it *)

(** X19. The three failures that [generateVideo] raises itself, the missing
    API key, the report without a URI and the download that is not ok, come
    on the screen with their own message; none of them makes the component
    ask for a key, and the video of an earlier run is gone. *)
Theorem video_gateway_failures_on_screen (fuel : nat) (h : Host)
    (b : VideoBackend) (engineText base64Image m : jsstring)
    (st : VideoGenerator.State) (file : VideoGenerator.File) :
  VideoGenerator.imageFile st = Some file ->
  blank (VideoGenerator.prompt st) = false ->
  snd (generateVideo fuel h b base64Image (VideoGenerator.type file)
         (VideoGenerator.prompt st) (VideoGenerator.aspectRatio st))
  = Some (Throw (Error m)) ->
  In (Error m) [ConfigurationError; GenerationFailed; DownloadFailed] ->
  exists st',
    VideoGeneratorEffects.submit fuel h b engineText (Resolved base64Image) st
    = Some st'
    /\ VideoGenerator.error st' = Some m
    /\ VideoGenerator.apiKeySelected st' = VideoGenerator.apiKeySelected st
    /\ VideoGenerator.generatedVideoUrl st' = None
    /\ VideoGenerator.loading st' = false.
Proof.
  intros Hfile Hprompt Hrun Hin.
  assert (Hm : includes m VideoGenerator.notFound = false).
  { destruct Hin as [E | [E | [E | []]]]; injection E as <-; vm_compute;
      reflexivity. }
  unfold VideoGeneratorEffects.submit. rewrite Hfile, Hprompt, Hrun.
  eexists. split; [reflexivity|].
  unfold VideoGenerator.handleSubmit, VideoGenerator.onCatch.
  rewrite Hfile, Hprompt. cbn [settle caught messageOf]. rewrite Hm.
  repeat split.
Qed.

Lemma video_gateway_failures_on_screen_witness :
  exists st',
    VideoGeneratorEffects.submit 1 scriptedHost (scriptedBackend 0 None true)
      engineMessage (Resolved (str "aW1n"))
      readyVideo
    = Some st'
    /\ VideoGenerator.error st'
       = Some (str "Video generation failed or returned no URI.")
    /\ VideoGenerator.apiKeySelected st' = true
    /\ VideoGenerator.generatedVideoUrl st' = None
    /\ VideoGenerator.loading st' = false.
Proof.
  apply (video_gateway_failures_on_screen 1 scriptedHost
           (scriptedBackend 0 None true)
           engineMessage (str "aW1n")
           (str "Video generation failed or returned no URI.") readyVideo
           {| VideoGenerator.type := str "image/png" |}
           eq_refl eq_refl eq_refl).
  right. left. reflexivity.
Defined.

(** X20. A submission with an image and a prompt, on a backend whose
    operation comes to be done with a URI and whose download is ok, ends
    with the object URL of the downloaded video as the video of the
    component, no error and the spinner off; as long as the backend has not
    reported the operation done, the submission has not ended. *)
Theorem video_submission_shows_the_video (h : Host) (b : VideoBackend)
    (engineText base64Image key link : jsstring) (st : VideoGenerator.State)
    (file : VideoGenerator.File) (op0 final : Operation)
    (pending : list Operation) (videoResponse : FetchResponse)
    (videoBlob : Blob) :
  VideoGenerator.imageFile st = Some file ->
  blank (VideoGenerator.prompt st) = false ->
  getApiKey h = Ok key ->
  generateVideos b
    (videoRequest base64Image (VideoGenerator.type file)
       (VideoGenerator.prompt st) (VideoGenerator.aspectRatio st)) = Ok op0 ->
  pollsUntil b 0 op0 pending final ->
  downloadLink final = Some link ->
  link <> [] ->
  fetch b (link ++ str "&key=" ++ key) = Ok videoResponse ->
  ok videoResponse = true ->
  blob videoResponse = Ok videoBlob ->
  (forall fuel, List.length pending <= fuel ->
     exists st',
       VideoGeneratorEffects.submit fuel h b engineText (Resolved base64Image) st
       = Some st'
       /\ VideoGenerator.generatedVideoUrl st'
          = Some (createObjectURL b videoBlob)
       /\ VideoGenerator.error st' = None
       /\ VideoGenerator.loading st' = false
       /\ VideoGenerator.apiKeySelected st' = VideoGenerator.apiKeySelected st)
  /\ (forall fuel, fuel < List.length pending ->
        VideoGeneratorEffects.submit fuel h b engineText (Resolved base64Image) st
        = None).
Proof.
  intros Hfile Hprompt Hkey Hsubmit Hpoll Hlink Hne Hfetch Hok Hblob.
  destruct (generateVideo_run h b base64Image (VideoGenerator.type file)
              (VideoGenerator.prompt st) key (VideoGenerator.aspectRatio st)
              op0 final pending Hkey Hsubmit Hpoll) as [Hrun Hstill].
  split; intros fuel Hfuel; unfold VideoGeneratorEffects.submit;
    rewrite Hfile, Hprompt.
  - rewrite (Hrun fuel Hfuel). cbn [snd]. unfold download. rewrite Hlink.
    destruct link as [|c link]; [congruence|].
    cbn [truthy nullish]. rewrite Hkey. cbn [bind].
    rewrite Hfetch, Hok, Hblob. cbn [snd settle].
    eexists. split; [reflexivity|].
    unfold VideoGenerator.handleSubmit. rewrite Hfile, Hprompt.
    repeat split.
  - now rewrite (Hstill fuel Hfuel).
Qed.

Lemma video_submission_shows_the_video_witness :
  exists st',
    VideoGeneratorEffects.submit 2 scriptedHost
      (scriptedBackend 1 (Some (str "https://v/1?alt=media")) true)
      engineMessage (Resolved (str "aW1n"))
      readyVideo
    = Some st'
    /\ VideoGenerator.generatedVideoUrl st' = Some (str "blob:https://app/0001")
    /\ VideoGenerator.error st' = None
    /\ VideoGenerator.loading st' = false
    /\ VideoGenerator.apiKeySelected st' = true.
Proof.
  refine (proj1 (video_submission_shows_the_video scriptedHost
            (scriptedBackend 1 (Some (str "https://v/1?alt=media")) true)
            engineMessage (str "aW1n")
            (str "secret") (str "https://v/1?alt=media") readyVideo
            {| VideoGenerator.type := str "image/png" |}
            pendingOperation (doneOperation (Some (str "https://v/1?alt=media")))
            [pendingOperation; pendingOperation]
            {| ok := true; blob := Ok [82; 73; 70; 70]%N |} [82; 73; 70; 70]%N
            eq_refl eq_refl eq_refl eq_refl _ eq_refl _ eq_refl eq_refl eq_refl)
            2 _).
  - simpl. repeat split. exists pendingOperation. repeat split.
    exists (doneOperation (Some (str "https://v/1?alt=media"))). repeat split.
  - discriminate.
  - simpl. lia.
Defined.

(** ** The citations, from the chunks of the backend to the card *)

Module CitationFacts.

Import GroundingSources.

Lemma orElse_nonempty (s fallback : jsstring) :
  fallback <> [] -> orElse s fallback <> [].
Proof. destruct s; simpl; [auto | discriminate]. Qed.

Lemma render_spec (metadata : GroundingMetadata) :
  render metadata =
  match web metadata, maps metadata with
  | [], [] => None
  | ws, ms =>
      Some {| webSources :=
                match ws with [] => None | _ => Some (map webLink ws) end;
              mapSources :=
                match ms with [] => None | _ => Some (map mapLink ms) end |}
  end.
Proof.
  unfold render. now destruct (web metadata), (maps metadata).
Qed.

Lemma webParts_nil (cs : list GroundingChunk) :
  webParts cs = [] <-> forall c, In c cs -> chunk_web c = None.
Proof.
  unfold webParts. induction cs as [|c cs IH]; simpl.
  - split; [intros _ c [] | reflexivity].
  - destruct (chunk_web c) eqn:E; simpl.
    + split; [discriminate|]. intros H.
      specialize (H c (or_introl eq_refl)). congruence.
    + rewrite IH. split.
      * intros H d [<- | Hd]; auto.
      * intros H d Hd. apply H. now right.
Qed.

Lemma mapsParts_nil (cs : list GroundingChunk) :
  mapsParts cs = [] <-> forall c, In c cs -> chunk_maps c = None.
Proof.
  unfold mapsParts. induction cs as [|c cs IH]; simpl.
  - split; [intros _ c [] | reflexivity].
  - destruct (chunk_maps c) eqn:E; simpl.
    + split; [discriminate|]. intros H.
      specialize (H c (or_introl eq_refl)). congruence.
    + rewrite IH. split.
      * intros H d [<- | Hd]; auto.
      * intros H d Hd. apply H. now right.
Qed.

Lemma show_parse (cs : list GroundingChunk) :
  show (parseGroundingChunks (Some cs)) =
  match webParts cs, mapsParts cs with
  | [], [] => None
  | ws, ms =>
      Some {| webSources :=
                match ws with
                | [] => None
                | _ => Some (map (fun w => webLink (webSource w)) ws)
                end;
              mapSources :=
                match ms with
                | [] => None
                | _ => Some (map (fun m => mapLink (mapSource m)) ms)
                end |}
  end.
Proof.
  destruct cs as [|c cs]; [reflexivity|].
  rewrite parseGroundingChunks_spec, flat_map_websOf, flat_map_placesOf.
  cbn [show]. rewrite render_spec. cbn [web maps].
  destruct (webParts (c :: cs)), (mapsParts (c :: cs)); cbn [map];
    rewrite ?map_map; reflexivity.
Qed.

End CitationFacts.

(** X21. The card of the citations of a reply.  It is absent exactly when
    no chunk of the reply has a web part or a maps part.  Otherwise it
    lists the web parts and the maps parts in the order of the chunks, each
    list only if it has entries.  The text of a link is never empty: it is
    the title of the part, "Untitled" when the part has no title, and
    "Untitled Source" or "Untitled Place" when the title is the empty
    text. *)
Theorem citations_card (cs : list GroundingChunk) :
  (GroundingSources.show (parseGroundingChunks (Some cs)) = None
   <-> forall c, In c cs -> chunk_web c = None /\ chunk_maps c = None)
  /\ (forall card,
        GroundingSources.show (parseGroundingChunks (Some cs)) = Some card ->
        GroundingSources.webSources card =
          match webParts cs with
          | [] => None
          | ws => Some (map (fun w => GroundingSources.webLink (webSource w)) ws)
          end
        /\ GroundingSources.mapSources card =
          match mapsParts cs with
          | [] => None
          | ms => Some (map (fun m => GroundingSources.mapLink (mapSource m)) ms)
          end)
  /\ (forall w,
        GroundingSources.label (GroundingSources.webLink (webSource w)) =
          match chunk_title w with
          | None => str "Untitled"
          | Some [] => str "Untitled Source"
          | Some t => t
          end
        /\ GroundingSources.label (GroundingSources.webLink (webSource w)) <> [])
  /\ (forall m,
        GroundingSources.label (GroundingSources.mapLink (mapSource m)) =
          match mchunk_title m with
          | None => str "Untitled"
          | Some [] => str "Untitled Place"
          | Some t => t
          end
        /\ GroundingSources.label (GroundingSources.mapLink (mapSource m)) <> []).
Proof.
  split; [|split; [|split]].
  - rewrite CitationFacts.show_parse. split.
    + intros H c Hc.
      destruct (webParts cs) eqn:Ew, (mapsParts cs) eqn:Em; try discriminate H.
      split; [now apply (proj1 (CitationFacts.webParts_nil cs) Ew)
             | now apply (proj1 (CitationFacts.mapsParts_nil cs) Em)].
    + intros H.
      assert (Ew : webParts cs = []).
      { apply CitationFacts.webParts_nil. intros c Hc. now apply H. }
      assert (Em : mapsParts cs = []).
      { apply CitationFacts.mapsParts_nil. intros c Hc. now apply H. }
      now rewrite Ew, Em.
  - intros card. rewrite CitationFacts.show_parse.
    destruct (webParts cs), (mapsParts cs); [discriminate | | |];
      intros H; injection H as <-; now split.
  - intros w. split.
    + unfold webSource, GroundingSources.webLink. cbn.
      now destruct (chunk_title w) as [[|c t]|].
    + apply CitationFacts.orElse_nonempty. discriminate.
  - intros m. split.
    + unfold mapSource, GroundingSources.mapLink. cbn.
      now destruct (mchunk_title m) as [[|c t]|].
    + apply CitationFacts.orElse_nonempty. discriminate.
Qed.

Lemma citations_card_witness :
  GroundingSources.show
    (parseGroundingChunks
       (Some [ {| chunk_web := None; chunk_maps := None |};
               {| chunk_web := None; chunk_maps := None |} ]))
  = None.
Proof.
  apply (proj2 (proj1 (citations_card _))).
  intros c [<- | [<- | []]]; now split.
Defined.

(** ** The local insights, from the position to the results *)

(** X22. A query with a position, an API key and a reply of the backend
    ends with the text of the reply as the insights and the citations
    parsed from its chunks, no error and the spinner off.  The card of the
    results is there exactly when the reply has a text that is not empty or
    a chunk; so a reply without text whose chunks have no web and no maps
    part gives a card with nothing in it, and a reply without text and
    without chunks gives no card and no message. *)
Theorem local_insights_results (position : LocalInsights.Coords) (h : Host)
    (key engineText : jsstring) (response : GenerateContentResponse)
    (st : LocalInsights.State) :
  blank (LocalInsights.query st) = false ->
  getApiKey h = Ok key ->
  let st' :=
    LocalInsights.submit (LocalInsights.fetchLocation (Some (inr position))) h
      (Ok response) engineText st in
  LocalInsights.insights st' = text response
  /\ LocalInsights.grounding st' = parseGroundingChunks (responseChunks response)
  /\ LocalInsights.error st' = None
  /\ LocalInsights.loading st' = false
  /\ LocalInsights.resultsShown st' =
       truthy (text response)
       || match responseChunks response with
          | Some (_ :: _) => true
          | _ => false
          end
  /\ (forall cs,
        truthy (text response) = false ->
        responseChunks response = Some cs ->
        cs <> [] ->
        (forall c, In c cs -> chunk_web c = None /\ chunk_maps c = None) ->
        LocalInsights.resultsShown st' = true
        /\ GroundingSources.show (LocalInsights.grounding st') = None).
Proof.
  intros Hquery Hkey st'.
  assert (Hst : st' =
                LocalInsights.setLoading false
                  (LocalInsights.setGrounding
                     (parseGroundingChunks (responseChunks response))
                     (LocalInsights.setInsights (text response)
                        (LocalInsights.setGrounding None
                           (LocalInsights.setInsights None
                              (LocalInsights.setError None
                                 (LocalInsights.setLoading true st))))))).
  { unfold st', LocalInsights.submit, LocalInsights.handleSubmit,
      getLocalInsights.
    rewrite Hquery, Hkey. reflexivity. }
  assert (Hshown : LocalInsights.resultsShown st' =
                   truthy (text response)
                   || match responseChunks response with
                      | Some (_ :: _) => true
                      | _ => false
                      end).
  { rewrite Hst. unfold LocalInsights.resultsShown. cbn. f_equal.
    now destruct (responseChunks response) as [[|c cs]|]. }
  split; [|split; [|split; [|split; [|split]]]];
    try (rewrite Hst; reflexivity); [exact Hshown|].
  intros cs Htext Hchunks Hne Hnone. split.
  - rewrite Hshown, Htext, Hchunks. destruct cs; [congruence | reflexivity].
  - rewrite Hst. cbn. rewrite Hchunks, CitationFacts.show_parse.
    assert (Ew : webParts cs = []).
    { apply CitationFacts.webParts_nil. intros c Hc. now apply Hnone. }
    assert (Em : mapsParts cs = []).
    { apply CitationFacts.mapsParts_nil. intros c Hc. now apply Hnone. }
    now rewrite Ew, Em.
Qed.

Lemma local_insights_results_witness :
  LocalInsights.resultsShown
    (LocalInsights.submit (LocalInsights.fetchLocation (Some (inr here)))
       scriptedHost (Ok bareReply) engineMessage answered)
  = true
  /\ GroundingSources.show
       (LocalInsights.grounding
          (LocalInsights.submit (LocalInsights.fetchLocation (Some (inr here)))
             scriptedHost (Ok bareReply) engineMessage answered))
     = None.
Proof.
  refine (proj2 (proj2 (proj2 (proj2 (proj2
            (local_insights_results here scriptedHost (str "secret")
               engineMessage bareReply answered eq_refl eq_refl)))))
            [ {| chunk_web := None; chunk_maps := None |} ]
            eq_refl eq_refl _ _).
  - discriminate.
  - intros c [<- | []]. now split.
Defined.

(** X23. What a query that does not go through leaves on the screen.  An
    empty query, and a missing position, give their message and leave the
    results of an earlier query where they are; the form that submits is
    only there with a position.  A call of the gateway that fails takes the
    earlier results away and gives the message of the failure: that of the
    missing API key, the backend's own, or "An unknown error occurred." for
    what is no [Error]. *)
Theorem local_insights_failures (geo : LocalInsights.GeolocationState)
    (h : Host) (reply : result GenerateContentResponse) (engineText : jsstring)
    (st : LocalInsights.State) :
  let st' := LocalInsights.submit geo h reply engineText st in
  (blank (LocalInsights.query st) = true ->
   st' = LocalInsights.setError (Some (str "Please enter a query.")) st)
  /\ (blank (LocalInsights.query st) = false ->
      LocalInsights.geoData geo = None ->
      st' = LocalInsights.setError
              (Some (str "Could not determine your location.")) st
      /\ LocalInsights.formShown geo = false)
  /\ (forall position e,
        blank (LocalInsights.query st) = false ->
        LocalInsights.geoData geo = Some position ->
        getLocalInsights h reply = Throw e ->
        LocalInsights.insights st' = None
        /\ LocalInsights.grounding st' = None
        /\ LocalInsights.resultsShown st' = false
        /\ LocalInsights.loading st' = false
        /\ LocalInsights.error st' =
             Some match e with
                  | Error m => m
                  | TypeError => engineText
                  | Rejection => str "An unknown error occurred."
                  end)
  /\ (truthy (API_KEY h) = false ->
      getLocalInsights h reply = Throw ConfigurationError)
  /\ (forall e, truthy (API_KEY h) = true -> reply = Throw e ->
      getLocalInsights h reply = Throw e).
Proof.
  intros st'. unfold st', LocalInsights.submit, LocalInsights.handleSubmit.
  split; [|split; [|split; [|split]]].
  - now intros ->.
  - intros -> Hgeo. unfold LocalInsights.formShown. now rewrite Hgeo.
  - intros position e -> -> ->. repeat split. now destruct e.
  - intros Hkey. unfold getLocalInsights.
    now rewrite (getApiKey_missing h Hkey).
  - intros e Hkey ->. unfold getLocalInsights, getApiKey.
    now destruct (API_KEY h) as [[|c k]|].
Qed.

Lemma local_insights_failures_witness :
  LocalInsights.submit
    (LocalInsights.fetchLocation (Some (inl (str "User denied Geolocation"))))
    scriptedHost (Throw Rejection) engineMessage answered
  = LocalInsights.setError (Some (str "Could not determine your location."))
      answered.
Proof.
  apply (proj1 (proj2 (local_insights_failures
           (LocalInsights.fetchLocation
              (Some (inl (str "User denied Geolocation"))))
           scriptedHost (Throw Rejection) engineMessage answered)));
    reflexivity.
Defined.

(** ** The image editor *)

Module EditorFacts.

Import ImageEditor.

Lemma supported_In (mimeType : jsstring) :
  existsb (fun t => jsstring_eqb t mimeType) supportedMimeTypes = true
  <-> In mimeType supportedMimeTypes.
Proof.
  rewrite existsb_exists. split.
  - intros (t & Ht & E). apply jsstring_eqb_eq in E. now subst.
  - intros H. exists mimeType. split; [exact H | now apply jsstring_eqb_eq].
Qed.

Lemma validate_ok (mimeType : jsstring) (st : State) (file : File) :
  imageFile st = Some file ->
  blank (prompt st) = false ->
  (size file <= 4194304)%N ->
  In mimeType supportedMimeTypes ->
  validate mimeType st = None.
Proof.
  intros Hfile Hprompt Hsize Hin. unfold validate. rewrite Hfile, Hprompt.
  assert (Hlt : (MAX_FILE_SIZE_BYTES <? size file)%N = false).
  { apply N.ltb_ge. exact Hsize. }
  rewrite Hlt. apply supported_In in Hin. now rewrite Hin.
Qed.

Lemma sameUrl_refl (a : option jsstring) : sameUrl a a = true.
Proof. destruct a; simpl; [now apply jsstring_eqb_eq | reflexivity]. Qed.

Lemma ImageFilter_eqb_eq (a b : ImageFilter) :
  ImageFilter_eqb a b = true <-> a = b.
Proof. destruct a, b; simpl; split; congruence. Qed.

Lemma afterRender_started (browser : Browser) (st : State) :
  afterRender browser st (started st) = started st.
Proof.
  unfold afterRender.
  destruct (sameUrl _ _ && ImageFilter_eqb _ _); reflexivity.
Qed.

End EditorFacts.

(** X24. The editor takes a submission with an image and a prompt when
    the image has at most 4194304 bytes and its type is one of the five
    supported ones.  A larger image gives "Image size exceeds the 4 MB
    limit.", whatever its type; an image of another type gives the message
    that names jpeg, png, webp, heic and heif.  A submission that is not
    taken changes nothing but the message, whatever the gateway would have
    answered. *)
Theorem editor_submission_checks (mimeType : jsstring)
    (st : ImageEditor.State) (file : ImageEditor.File) :
  ImageEditor.imageFile st = Some file ->
  blank (ImageEditor.prompt st) = false ->
  ((4194304 < ImageEditor.size file)%N ->
   forall call,
     ImageEditor.handleSubmit mimeType call st =
     ImageEditor.setError (Some (str "Image size exceeds the 4 MB limit.")) st)
  /\ ((ImageEditor.size file <= 4194304)%N ->
      ~ In mimeType ImageEditor.supportedMimeTypes ->
      forall call,
        ImageEditor.handleSubmit mimeType call st =
        ImageEditor.setError
          (Some (str "Unsupported image type. Please use one of the following: jpeg, png, webp, heic, heif."))
          st)
  /\ ((ImageEditor.size file <= 4194304)%N ->
      In mimeType ImageEditor.supportedMimeTypes ->
      forall call,
        ImageEditor.handleSubmit mimeType call st =
        ImageEditor.settled mimeType call (ImageEditor.started st)
        /\ ImageEditor.loading (ImageEditor.handleSubmit mimeType call st) = false
        /\ ImageEditor.selectedFilter (ImageEditor.handleSubmit mimeType call st)
           = FNone).
Proof.
  intros Hfile Hprompt. split; [|split].
  - intros Hsize call. unfold ImageEditor.handleSubmit, ImageEditor.validate.
    rewrite Hfile, Hprompt.
    assert (Hlt : (ImageEditor.MAX_FILE_SIZE_BYTES <? ImageEditor.size file)%N
                  = true) by (apply N.ltb_lt; exact Hsize).
    now rewrite Hlt.
  - intros Hsize Hin call. unfold ImageEditor.handleSubmit, ImageEditor.validate.
    rewrite Hfile, Hprompt.
    assert (Hlt : (ImageEditor.MAX_FILE_SIZE_BYTES <? ImageEditor.size file)%N
                  = false) by (apply N.ltb_ge; exact Hsize).
    rewrite Hlt.
    destruct (existsb (fun t => jsstring_eqb t mimeType)
                ImageEditor.supportedMimeTypes) eqn:E.
    + apply EditorFacts.supported_In in E. contradiction.
    + reflexivity.
  - intros Hsize Hin call. unfold ImageEditor.handleSubmit.
    rewrite (EditorFacts.validate_ok mimeType st file Hfile Hprompt Hsize Hin).
    split; [reflexivity|]. now destruct call.
Qed.

Lemma editor_submission_checks_witness :
  ImageEditor.handleSubmit (str "image/gif") (Resolved (Some (str "QUJD")))
    editing
  = ImageEditor.setError
      (Some (str "Unsupported image type. Please use one of the following: jpeg, png, webp, heic, heif."))
      editing.
Proof.
  refine (proj1 (proj2 (editor_submission_checks (str "image/gif") editing photo
                          eq_refl eq_refl)) _ _ _).
  - vm_compute. discriminate.
  - intros H. repeat (destruct H as [H | H]; [discriminate H|]). exact H.
Defined.

(** X25. A submission that the editor takes, answered by the gateway with
    the data of an image, ends with the data URL of the image, made of the
    type of the file and the data, on the screen without a filter, and with
    the same URL behind the download link, under the name
    "edited-image-none.png".  A data that is undefined gives a URL that ends
    in "undefined".  When the gateway fails there is no edited image and no
    download link, and the message of the failure is shown. *)
Theorem editor_submission_result (browser : Browser) (h : Host)
    (reply : result GenerateContentResponse)
    (engineText mimeType base64Image : jsstring) (st : ImageEditor.State)
    (file : ImageEditor.File) :
  ImageEditor.imageFile st = Some file ->
  blank (ImageEditor.prompt st) = false ->
  (ImageEditor.size file <= 4194304)%N ->
  In mimeType ImageEditor.supportedMimeTypes ->
  let st' :=
    ImageEditor.submit browser h reply engineText mimeType
      (Resolved base64Image) st in
  (forall editedBase64,
     editImage h reply = Ok editedBase64 ->
     let url :=
       str "data:" ++ mimeType ++ str ";base64,"
       ++ match editedBase64 with
          | Some d => d
          | None => str "undefined"
          end in
     ImageEditor.editedImageUrl st' = Some url
     /\ ImageEditor.downloadLink st'
        = Some {| DownloadButton.href := url;
                  DownloadButton.download := str "edited-image-none.png" |}
     /\ ImageEditor.shownFilter st' = str "none"
     /\ ImageEditor.error st' = None
     /\ ImageEditor.loading st' = false)
  /\ (forall e,
        editImage h reply = Throw e ->
        ImageEditor.editedImageUrl st' = None
        /\ ImageEditor.downloadLink st' = None
        /\ ImageEditor.loading st' = false
        /\ ImageEditor.error st' =
             Some match e with
                  | Error m => m
                  | TypeError => engineText
                  | Rejection => str "Failed to edit image."
                  end).
Proof.
  intros Hfile Hprompt Hsize Hin st'.
  assert (Hst : st' =
                ImageEditor.afterRender browser (ImageEditor.started st)
                  (ImageEditor.settled mimeType
                     (settle engineText (editImage h reply))
                     (ImageEditor.started st))).
  { unfold st', ImageEditor.submit.
    rewrite (EditorFacts.validate_ok mimeType st file Hfile Hprompt Hsize Hin).
    cbv zeta. now rewrite EditorFacts.afterRender_started. }
  split.
  - intros editedBase64 Hedit url. rewrite Hst, Hedit.
    unfold ImageEditor.afterRender, ImageEditor.downloadEffect,
      ImageEditor.downloadLink, ImageEditor.shownFilter.
    cbn. repeat split.
  - intros e Hedit. rewrite Hst, Hedit.
    unfold ImageEditor.afterRender, ImageEditor.downloadLink. cbn.
    repeat split. now destruct e.
Qed.

Lemma editor_submission_result_witness :
  ImageEditor.downloadLink
    (ImageEditor.submit (canvasBrowser true) scriptedHost
       (Ok (replyWithParts
              [ {| inlineData := Some {| data := Some (str "QUJD") |} |} ]))
       engineMessage (str "image/png") (Resolved (str "aW1n")) editing)
  = Some {| DownloadButton.href := str "data:image/png;base64,QUJD";
            DownloadButton.download := str "edited-image-none.png" |}.
Proof.
  refine (proj1 (proj2 (proj1 (editor_submission_result (canvasBrowser true)
            scriptedHost
            (Ok (replyWithParts
                   [ {| inlineData := Some {| data := Some (str "QUJD") |} |} ]))
            engineMessage (str "image/png") (str "aW1n") editing photo
            eq_refl eq_refl _ _) (Some (str "QUJD")) eq_refl))).
  - vm_compute. discriminate.
  - right. left. reflexivity.
Defined.

(** X26. Choosing another filter for an edited image shows the image
    under that filter and names the download "edited-image-" with the
    filter ".png".  Without a filter the link leads to the edited image
    itself and the browser is not asked.  With a filter it leads to the PNG
    that the canvas makes of the image; when the image does not load or the
    canvas has no context, it leads to the edited image without the filter,
    under the name that carries the filter, and "Could not apply filter for
    download." is shown. *)
Theorem editor_filter_download (browser : Browser) (filter : ImageFilter)
    (st : ImageEditor.State) (c : N) (u : jsstring) :
  ImageEditor.editedImageUrl st = Some (c :: u) ->
  ImageEditor.selectedFilter st <> filter ->
  let st' := ImageEditor.selectFilter browser filter st in
  let filename := str "edited-image-" ++ filterId filter ++ str ".png" in
  ImageEditor.shownFilter st' = getCssFilterValue filter
  /\ ImageEditor.editedImageUrl st' = Some (c :: u)
  /\ (filter = FNone ->
      ImageEditor.downloadLink st'
      = Some {| DownloadButton.href := c :: u;
                DownloadButton.download := filename |}
      /\ ImageEditor.error st' = ImageEditor.error st)
  /\ (filter <> FNone ->
      forall image,
        loadImage browser (c :: u) = inr image ->
        getContext browser = true ->
        ImageEditor.downloadLink st'
        = DownloadButton.render
            (Some (toDataURL browser (getCssFilterValue filter) image)) filename
        /\ ImageEditor.error st' = ImageEditor.error st)
  /\ (filter <> FNone ->
      getContext browser = false
      \/ (exists err, loadImage browser (c :: u) = inl err) ->
      ImageEditor.downloadLink st'
      = Some {| DownloadButton.href := c :: u;
                DownloadButton.download := filename |}
      /\ ImageEditor.error st'
         = Some (str "Could not apply filter for download.")).
Proof.
  intros Hurl Hfilter st' filename.
  assert (Hst : st' =
                ImageEditor.downloadEffect browser
                  (ImageEditor.setSelectedFilter filter st)).
  { unfold st', ImageEditor.selectFilter, ImageEditor.afterRender.
    cbn [ImageEditor.selectedFilter ImageEditor.setSelectedFilter].
    destruct (ImageFilter_eqb (ImageEditor.selectedFilter st) filter) eqn:E.
    - apply EditorFacts.ImageFilter_eqb_eq in E. contradiction.
    - now rewrite andb_false_r. }
  assert (Hnone : forall f, f <> FNone -> ImageFilter_eqb f FNone = false).
  { intros f Hf. destruct (ImageFilter_eqb f FNone) eqn:E; [|reflexivity].
    apply EditorFacts.ImageFilter_eqb_eq in E. contradiction. }
  rewrite Hst. unfold ImageEditor.downloadEffect, ImageEditor.downloadLink,
    ImageEditor.shownFilter.
  cbn [ImageEditor.editedImageUrl ImageEditor.setSelectedFilter
       ImageEditor.selectedFilter ImageEditor.setDownloadableUrl].
  rewrite Hurl. cbv zeta.
  cbn [ImageEditor.editedImageUrl ImageEditor.setSelectedFilter
       ImageEditor.selectedFilter ImageEditor.setDownloadableUrl].
  split; [|split; [|split; [|split]]].
  - destruct (ImageFilter_eqb filter FNone); cbn [negb];
      [reflexivity|].
    now destruct (applyFilterAndGetUrl browser (c :: u) filter).
  - destruct (ImageFilter_eqb filter FNone); cbn [negb]; cbn;
      [exact Hurl|].
    destruct (applyFilterAndGetUrl browser (c :: u) filter); exact Hurl.
  - intros ->. cbn. rewrite Hurl. now split.
  - intros Hf image Himage Hctx. rewrite (Hnone filter Hf). cbn [negb].
    unfold applyFilterAndGetUrl. rewrite (Hnone filter Hf), Himage, Hctx.
    cbn. rewrite Hurl. now split.
  - intros Hf Hfail. rewrite (Hnone filter Hf). cbn [negb].
    unfold applyFilterAndGetUrl. rewrite (Hnone filter Hf).
    destruct Hfail as [Hctx | [err Herr]].
    + rewrite Hctx. destruct (loadImage browser (c :: u)); cbn;
        rewrite Hurl; now split.
    + rewrite Herr. cbn. rewrite Hurl. now split.
Qed.

Lemma editor_filter_download_witness :
  ImageEditor.downloadLink
    (ImageEditor.selectFilter (canvasBrowser false) Sepia edited)
  = Some {| DownloadButton.href := str "data:image/png;base64,QUJD";
            DownloadButton.download := str "edited-image-sepia.png" |}
  /\ ImageEditor.error
       (ImageEditor.selectFilter (canvasBrowser false) Sepia edited)
     = Some (str "Could not apply filter for download.").
Proof.
  refine (proj2 (proj2 (proj2 (proj2
            (editor_filter_download (canvasBrowser false) Sepia edited
               100%N (str "ata:image/png;base64,QUJD") eq_refl _)))) _ _).
  - discriminate.
  - discriminate.
  - left. reflexivity.
Defined.

(** ** The plan on the screen *)

Module PlanViewFacts.

Import MarketingPlanView.



Lemma traverse_throw {A B : Type} (f : A -> result B) (l : list A) (e : exn) :
  (forall x e', f x = Throw e' -> e' = TypeError) ->
  traverse f l = Throw e -> e = TypeError.
Proof.
  intros Hf. induction l as [|x l IH]; simpl; [discriminate|].
  destruct (f x) as [y|e'] eqn:E; cbn [bind].
  - destruct (traverse f l) as [ys|e'']; cbn [bind]; [discriminate|].
    intros H. injection H as <-. now apply IH.
  - intros H. injection H as <-. now apply (Hf x).
Qed.

Lemma get_throw (v : value) (key : jsstring) (e : exn) :
  get v key = Throw e -> e = TypeError.
Proof.
  destruct v as [[| | | | |]|]; simpl; intros H; congruence.
Qed.

Lemma mapOver_throw {B : Type} (v : value) (f : json -> result B) (e : exn) :
  (forall x e', f x = Throw e' -> e' = TypeError) ->
  mapOver v f = Throw e -> e = TypeError.
Proof.
  intros Hf. destruct v as [[| | | |l|]|]; simpl; try congruence.
  now apply traverse_throw.
Qed.

Lemma some_throw {A : Type} (f : A -> result bool) (a : list A) (e : exn) :
  (forall x e', f x = Throw e' -> e' = TypeError) ->
  some f a = Throw e -> e = TypeError.
Proof.
  intros Hf. induction a as [|x a IH]; simpl; [discriminate|].
  destruct (f x) as [[|]|e'] eqn:E; cbn [bind].
  - discriminate.
  - exact IH.
  - intros H. injection H as <-. now apply (Hf x).
Qed.

(** A step of a sequence of reads: it fails as its first part does, or
    goes on. *)
Ltac step H :=
  match type of H with
  | bind ?r _ = Throw _ =>
      let E := fresh "E" in
      destruct r eqn:E; cbn [bind] in H;
      [| injection H as <-]
  end.

Lemma competitorCard_throw (comp : json) (e : exn) :
  competitorCard comp = Throw e -> e = TypeError.
Proof.
  unfold competitorCard. intros H.
  step H; [|now apply get_throw in E].
  step H; [|now apply get_throw in E0].
  step H; [|apply mapOver_throw in E1; [exact E1 | discriminate]].
  step H; [|now apply get_throw in E2].
  step H; [|apply mapOver_throw in E3; [exact E3 | discriminate]].
  discriminate H.
Qed.

Lemma pillarCard_throw (p : json) (e : exn) :
  pillarCard p = Throw e -> e = TypeError.
Proof.
  unfold pillarCard. intros H.
  step H; [|now apply get_throw in E].
  step H; [|now apply get_throw in E0].
  discriminate H.
Qed.

Lemma isSaved_throw (tasks : list App.Task) (idea : json) (e : exn) :
  isSaved tasks idea = Throw e -> e = TypeError.
Proof.
  unfold isSaved. apply some_throw. intros task e' H.
  step H; [|now apply get_throw in E].
  destruct (strictEq _ _); [|discriminate H].
  step H; [|now apply get_throw in E0].
  discriminate H.
Qed.

Lemma ideaCard_throw (tasks : list App.Task) (idea : json) (e : exn) :
  ideaCard tasks idea = Throw e -> e = TypeError.
Proof.
  unfold ideaCard. intros H.
  step H; [|now apply isSaved_throw in E].
  step H; [|now apply get_throw in E0].
  step H; [|now apply get_throw in E1].
  step H; [|now apply get_throw in E2].
  discriminate H.
Qed.

Lemma render_throw (tasks : list App.Task) (plan : json)
    (grounding : option GroundingMetadata) (e : exn) :
  render tasks plan grounding = Throw e -> e = TypeError.
Proof.
  unfold render. destruct (truthyValue plan); [|discriminate]. intros H.
  step H; [|now apply get_throw in E].
  step H; [|apply mapOver_throw in E0; [exact E0 | apply competitorCard_throw]].
  step H; [|now apply get_throw in E1].
  step H; [|apply mapOver_throw in E2; [exact E2 | apply pillarCard_throw]].
  step H; [|now apply get_throw in E3].
  step H; [|apply mapOver_throw in E4; [exact E4 | apply ideaCard_throw]].
  discriminate H.
Qed.









Lemma mapOver_ok {B : Type} (v : value) (f : json -> result B) (ys : list B) :
  mapOver v f = Ok ys ->
  exists l, v = Some (JArray l) /\ traverse f l = Ok ys.
Proof.
  destruct v as [[| | | |l|]|]; simpl; try discriminate.
  intros H. now exists l.
Qed.

Lemma render_missing_list (tasks : list App.Task)
    (ms : list (jsstring * json)) (grounding : option GroundingMetadata) :
  Json.member (str "competitorAnalysis") ms = None
  \/ Json.member (str "contentPillars") ms = None
  \/ Json.member (str "postIdeas") ms = None ->
  render tasks (JObject ms) grounding = Throw TypeError.
Proof.
  intros Hmissing.
  destruct (render tasks (JObject ms) grounding) as [v|e] eqn:E.
  - exfalso. unfold render in E. cbn [truthyValue get bind] in E.
    destruct (mapOver (Json.member (str "competitorAnalysis") ms) _)
      as [cs|] eqn:E1; cbn [bind] in E; [|discriminate E].
    destruct (mapOver (Json.member (str "contentPillars") ms) _)
      as [ps|] eqn:E2; cbn [bind] in E; [|discriminate E].
    destruct (mapOver (Json.member (str "postIdeas") ms) _)
      as [ideas|] eqn:E3; cbn [bind] in E; [|discriminate E].
    apply mapOver_ok in E1, E2, E3.
    destruct E1 as (l1 & M1 & _), E2 as (l2 & M2 & _), E3 as (l3 & M3 & _).
    destruct Hmissing as [Hm | [Hm | Hm]]; congruence.
  - f_equal. now apply (render_throw tasks (JObject ms) grounding).
Qed.

End PlanViewFacts.



(** X28. A reply that parses to an object without one of the three lists
    of a plan is passed on by the gateway and kept by the component with no
    message and with the spinner off; from there on the screen cannot be
    drawn: rendering raises a [TypeError]. *)
Theorem partial_reply_breaks_plan_screen (tasks : list App.Task) (h : Host)
    (key t engineText : jsstring) (response : GenerateContentResponse)
    (ms : list (jsstring * json)) (st : MarketingPlanView.State) :
  blank (MarketingPlanView.businessInfo st) = false ->
  blank (MarketingPlanView.competitorsInfo st) = false ->
  getApiKey h = Ok key ->
  text response = Some t ->
  parseFenced t = Some (JObject ms) ->
  Json.member (str "competitorAnalysis") ms = None
  \/ Json.member (str "contentPillars") ms = None
  \/ Json.member (str "postIdeas") ms = None ->
  let st' := MarketingPlanView.submit h (Ok response) engineText st in
  MarketingPlanView.plan st' = JObject ms
  /\ MarketingPlanView.error st' = None
  /\ MarketingPlanView.loading st' = false
  /\ MarketingPlanView.screen tasks st' = Throw TypeError.
Proof.
  intros Hb Hc Hkey Ht Hp Hmissing st'.
  assert (Hst : st' =
                MarketingPlanView.setLoading false
                  (MarketingPlanView.setGrounding
                     (parseGroundingChunks (responseChunks response))
                     (MarketingPlanView.setPlan (JObject ms)
                        (MarketingPlanView.setGrounding None
                           (MarketingPlanView.setPlan JNull
                              (MarketingPlanView.setError None
                                 (MarketingPlanView.setLoading true st))))))).
  { unfold st', MarketingPlanView.submit, MarketingPlanView.handleSubmit,
      generateMarketingPlan, planCall, parsePlanText.
    rewrite Hb, Hc, Hkey. cbn [orb bind]. rewrite Ht, Hp. reflexivity. }
  rewrite Hst. repeat split.
  unfold MarketingPlanView.screen. cbn.
  now apply PlanViewFacts.render_missing_list.
Qed.

Lemma partial_reply_breaks_plan_screen_witness :
  MarketingPlanView.screen twoTasks
    (MarketingPlanView.submit scriptedHost
       (Ok {| text := Some onlyPostIdeas; candidates := None |})
       engineMessage planForm)
  = Throw TypeError.
Proof.
  refine (proj2 (proj2 (proj2
            (partial_reply_breaks_plan_screen twoTasks scriptedHost
               (str "secret") onlyPostIdeas engineMessage
               {| text := Some onlyPostIdeas; candidates := None |}
               [(str "postIdeas", JArray [])] planForm
               eq_refl eq_refl eq_refl eq_refl _ _)))).
  - vm_compute. reflexivity.
  - left. reflexivity.
Defined.
